(** * chai-backend: controllers over a document store

    A shallow embedding of the controllers of the video platform back end
    (subscription, like, video, tweet, playlist and dashboard controllers)
    together with the part of the Mongoose/MongoDB interface they call.

    Documents are JavaScript objects: ordered lists of (key, value) pairs.
    A collection is the list of its documents in insertion order.  The
    handlers are written in a state-and-error monad over the database, one
    [throw] per [throw new ApiError(...)] of the source. *)

From Stdlib Require Import List Arith ZArith Lia Bool String Ascii Permutation.
Import ListNotations.
Open Scope string_scope.
Set Warnings "-register-all".

(* ================================================================== *)
(** ** Values and documents *)

(** An ObjectId is opaque to the controllers; only equality is used. *)
Definition ObjectId := nat.

Inductive value : Type :=
| VNull
| VBool (b : bool)
| VNum (n : Z)
| VStr (s : string)
| VId (i : ObjectId)
| VArr (items : list value)
| VDoc (fields : list (string * value)).

Definition document := list (string * value).

Fixpoint value_eqb (a b : value) {struct a} : bool :=
  match a, b with
  | VNull, VNull => true
  | VBool x, VBool y => Bool.eqb x y
  | VNum x, VNum y => Z.eqb x y
  | VStr x, VStr y => String.eqb x y
  | VId x, VId y => Nat.eqb x y
  | VArr xs, VArr ys =>
      (fix items (xs ys : list value) {struct xs} : bool :=
         match xs, ys with
         | [], [] => true
         | x :: xs', y :: ys' => value_eqb x y && items xs' ys'
         | _, _ => false
         end) xs ys
  | VDoc xs, VDoc ys =>
      (fix fields (xs ys : list (string * value)) {struct xs} : bool :=
         match xs, ys with
         | [], [] => true
         | (k, x) :: xs', (k', y) :: ys' =>
             String.eqb k k' && value_eqb x y && fields xs' ys'
         | _, _ => false
         end) xs ys
  | _, _ => false
  end.

(** [d[k]]: the first binding of [k], [None] for [undefined]. *)
Fixpoint field (k : string) (d : document) : option value :=
  match d with
  | [] => None
  | (k', v) :: rest => if String.eqb k k' then Some v else field k rest
  end.

(** [d[k] = v]: an existing key keeps its position, a new key goes last. *)
Fixpoint set_field (k : string) (v : value) (d : document) : document :=
  match d with
  | [] => [(k, v)]
  | (k', v') :: rest =>
      if String.eqb k k' then (k, v) :: rest else (k', v') :: set_field k v rest
  end.

Definition remove_field (k : string) (d : document) : document :=
  filter (fun kv => negb (String.eqb k (fst kv))) d.

(** JavaScript truthiness of an optional string ([undefined] and the empty
    string are falsy). *)
Definition truthy (s : option string) : bool :=
  match s with
  | Some s' => negb (String.eqb s' "")
  | None => false
  end.

(* ------------------------------------------------------------------ *)
(** *** Strings: case folding, substring search, trimming *)

Definition lower_ascii (c : ascii) : ascii :=
  let n := nat_of_ascii c in
  if (65 <=? n)%nat && (n <=? 90)%nat then ascii_of_nat (n + 32) else c.

Fixpoint lower (s : string) : string :=
  match s with
  | EmptyString => EmptyString
  | String c rest => String (lower_ascii c) (lower rest)
  end.

Fixpoint contains (needle hay : string) : bool :=
  String.prefix needle hay
  || match hay with
     | EmptyString => false
     | String _ rest => contains needle rest
     end.

(** Strings hold the UTF-8 bytes of the text.  [String.prototype.trim]
    strips the white space and the line terminators of ECMAScript: the
    one-byte TAB, LF, VT, FF, CR and SP, the two-byte U+00A0, and the
    three-byte U+1680, U+2000 to U+200A, U+2028, U+2029, U+202F, U+205F,
    U+3000 and U+FEFF. *)
Definition is_space (c : ascii) : bool :=
  let n := nat_of_ascii c in
  (n =? 32)%nat || ((9 <=? n)%nat && (n <=? 13)%nat).

(** U+00A0 is C2 A0. *)
Definition is_space2 (c1 c2 : ascii) : bool :=
  (nat_of_ascii c1 =? 194)%nat && (nat_of_ascii c2 =? 160)%nat.

(** U+1680 is E1 9A 80; U+2000 to U+200A, U+2028, U+2029 and U+202F are
    E2 80 followed by 80 to 8A, A8, A9 and AF; U+205F is E2 81 9F; U+3000 is
    E3 80 80; U+FEFF is EF BB BF. *)
Definition is_space3 (c1 c2 c3 : ascii) : bool :=
  let a := nat_of_ascii c1 in
  let b := nat_of_ascii c2 in
  let c := nat_of_ascii c3 in
  ((a =? 225) && (b =? 154) && (c =? 128))%nat
  || ((a =? 226) && (b =? 128)
      && (((128 <=? c) && (c <=? 138)) || (c =? 168) || (c =? 169) || (c =? 175)))%nat
  || ((a =? 226) && (b =? 129) && (c =? 159))%nat
  || ((a =? 227) && (b =? 128) && (c =? 128))%nat
  || ((a =? 239) && (b =? 187) && (c =? 191))%nat.

Fixpoint trim_start (s : string) : string :=
  match s with
  | EmptyString => EmptyString
  | String c1 rest1 =>
      if is_space c1 then trim_start rest1
      else
        match rest1 with
        | EmptyString => s
        | String c2 rest2 =>
            if is_space2 c1 c2 then trim_start rest2
            else
              match rest2 with
              | EmptyString => s
              | String c3 rest3 =>
                  if is_space3 c1 c2 c3 then trim_start rest3 else s
              end
        end
  end.

(** The text up to its last character that is no white space: a suffix of
    white space only is one that [trim_start] leaves nothing of. *)
Fixpoint trim_end (s : string) : string :=
  match s with
  | EmptyString => EmptyString
  | String c rest =>
      if String.eqb (trim_start s) "" then EmptyString
      else String c (trim_end rest)
  end.

Definition trim (s : string) : string := trim_end (trim_start s).

(** The distinct values of a list, first occurrences kept. *)
Fixpoint nodup_values (vs : list value) : list value :=
  match vs with
  | [] => []
  | v :: rest =>
      v :: filter (fun x => negb (value_eqb x v)) (nodup_values rest)
  end.

(* ================================================================== *)
(** ** Query filters *)

(** The text of a search as the regular-expression engine of the store
    reads it under option "i": a pattern it compiles, given with the test
    whether a string holds a match of it, or a text it rejects as ill-formed. *)
Inductive searchText : Type :=
| Pattern (raw : string) (found_in : string -> bool)
| IllFormed (raw : string).

Definition raw_text (t : searchText) : string :=
  match t with
  | Pattern raw _ | IllFormed raw => raw
  end.

(** The reading of a text of ASCII letters, digits and blanks, for fields of
    ASCII text: the strings that hold it, letter case apart. *)
Definition literal (text : string) : searchText :=
  Pattern text (fun s => contains (lower text) (lower s)).

Inductive cond : Type :=
| CEq (v : value)           (* { k: v } *)
| CRegexI (q : searchText)  (* { k: { $regex: q, $options: "i" } } *)
| CExists (b : bool)        (* { k: { $exists: b } } *)
| CIn (vs : list value).    (* { k: { $in: vs } } *)

Inductive query : Type :=
| Fields (cs : list (string * cond))
| Or (alts : list (list (string * cond))).   (* { $or: [ ... ] } *)

(** Equality on a field also matches an array field holding the value. *)
Definition value_matches (stored wanted : value) : bool :=
  value_eqb stored wanted
  || match stored with
     | VArr items => existsb (fun x => value_eqb x wanted) items
     | _ => false
     end.

(** A pattern holds of a string it has a match in, and of an array with
    such a string; a text that is no pattern never reaches the documents
    (see [refused_by_engine]). *)
Definition cond_holds (c : cond) (v : option value) : bool :=
  match c, v with
  | CEq w, Some x => value_matches x w
  | CEq _, None => false
  | CRegexI (Pattern _ found_in), Some (VStr s) => found_in s
  | CRegexI (Pattern _ found_in), Some (VArr items) =>
      existsb (fun x => match x with VStr s => found_in s | _ => false end) items
  | CRegexI _, _ => false
  | CExists b, Some _ => b
  | CExists b, None => negb b
  | CIn ws, Some x => existsb (value_matches x) ws
  | CIn _, None => false
  end.

Definition fields_hold (cs : list (string * cond)) (d : document) : bool :=
  forallb (fun kc => cond_holds (snd kc) (field (fst kc) d)) cs.

Definition matches (f : query) (d : document) : bool :=
  match f with
  | Fields cs => fields_hold cs d
  | Or alts => existsb (fun cs => fields_hold cs d) alts
  end.

Definition byId (i : ObjectId) : query := Fields [("_id", CEq (VId i))].

(* ================================================================== *)
(** ** The database *)

Inductive Model : Type :=
  User | Video | Subscription | Like | Comment | Tweet | Playlist.

Record Db : Type := mkDb {
  users : list document;
  videos : list document;
  subscriptions : list document;
  likes : list document;
  comments : list document;
  tweets : list document;
  playlists : list document;
  now : Z                      (* the clock that stamps [createdAt] *)
}.

Definition coll (m : Model) (db : Db) : list document :=
  match m with
  | User => users db
  | Video => videos db
  | Subscription => subscriptions db
  | Like => likes db
  | Comment => comments db
  | Tweet => tweets db
  | Playlist => playlists db
  end.

Definition with_coll (m : Model) (ds : list document) (db : Db) : Db :=
  match m with
  | User => mkDb ds (videos db) (subscriptions db) (likes db) (comments db) (tweets db) (playlists db) (now db)
  | Video => mkDb (users db) ds (subscriptions db) (likes db) (comments db) (tweets db) (playlists db) (now db)
  | Subscription => mkDb (users db) (videos db) ds (likes db) (comments db) (tweets db) (playlists db) (now db)
  | Like => mkDb (users db) (videos db) (subscriptions db) ds (comments db) (tweets db) (playlists db) (now db)
  | Comment => mkDb (users db) (videos db) (subscriptions db) (likes db) ds (tweets db) (playlists db) (now db)
  | Tweet => mkDb (users db) (videos db) (subscriptions db) (likes db) (comments db) ds (playlists db) (now db)
  | Playlist => mkDb (users db) (videos db) (subscriptions db) (likes db) (comments db) (tweets db) ds (now db)
  end.

Definition tick (db : Db) : Db :=
  mkDb (users db) (videos db) (subscriptions db) (likes db) (comments db)
       (tweets db) (playlists db) (now db + 1).

(** The collection a [$lookup] names in its [from]. *)
Definition from_collection (db : Db) (name : string) : list document :=
  if String.eqb name "users" then users db
  else if String.eqb name "videos" then videos db
  else if String.eqb name "subscriptions" then subscriptions db
  else if String.eqb name "likes" then likes db
  else if String.eqb name "comments" then comments db
  else if String.eqb name "tweets" then tweets db
  else if String.eqb name "playlists" then playlists db
  else [].

Definition oid (d : document) : option ObjectId :=
  match field "_id" d with
  | Some (VId i) => Some i
  | _ => None
  end.

(** A new ObjectId: any id no document of the collection carries. *)
Definition fresh_id (ds : list document) : ObjectId :=
  S (list_max (map (fun d => match oid d with Some i => i | None => 0 end) ds)).

(** Removal of the first document a predicate selects. *)
Fixpoint remove_first (p : document -> bool) (ds : list document) : list document :=
  match ds with
  | [] => []
  | d :: rest => if p d then rest else d :: remove_first p rest
  end.

(** Replacement of the first document a predicate selects. *)
Fixpoint update_first (p : document -> bool) (u : document -> document)
         (ds : list document) : list document :=
  match ds with
  | [] => []
  | d :: rest => if p d then u d :: rest else d :: update_first p u rest
  end.

(* ================================================================== *)
(** ** Handlers: state and [ApiError] *)

Record ApiError : Type := mkApiError {
  statusCode : nat;
  errorMessage : string
}.

Record ApiResponse (A : Type) : Type := mkApiResponse {
  status : nat;
  data : A;
  message : string
}.
Arguments mkApiResponse {A} _ _ _.
Arguments status {A} _.
Arguments data {A} _.
Arguments message {A} _.

(** A handler runs on a database and ends either in a thrown [ApiError] or
    in a value, with the database as its writes left it. *)
Definition M (A : Type) : Type := Db -> (ApiError + A) * Db.

Definition ret {A} (a : A) : M A := fun db => (inr a, db).

Definition bind {A B} (c : M A) (k : A -> M B) : M B :=
  fun db =>
    match c db with
    | (inl e, db') => (inl e, db')
    | (inr a, db') => k a db'
    end.

Definition throw {A} (code : nat) (msg : string) : M A :=
  fun db => (inl (mkApiError code msg), db).

Notation "x <- c ;; k" := (bind c (fun x => k))
  (at level 61, c at next level, right associativity).
Notation "c ;;; k" := (bind c (fun _ => k))
  (at level 61, right associativity).

(** [if (cond) throw new ApiError(code, msg)] *)
Definition throw_if (c : bool) (code : nat) (msg : string) : M unit :=
  if c then throw code msg else ret tt.

(** The outcome of a handler, for statements. *)
Definition failed {A} (r : (ApiError + A) * Db) (code : nat) : Prop :=
  exists msg, fst r = inl (mkApiError code msg).

Definition fails {A} (r : (ApiError + A) * Db) : Prop :=
  exists e, fst r = inl e.

Definition succeeds {A} (r : (ApiError + A) * Db) : Prop :=
  exists a, fst r = inr a.

(* ------------------------------------------------------------------ *)
(** *** Route parameters *)

(** A route or query parameter that should carry an id, as Mongoose reads
    the string: one that [isValidObjectId] rejects; the 24 lower-case
    hexadecimal digits that [toString()] gives for an ObjectId; or another
    string that [isValidObjectId] accepts (the same digits with a letter in
    upper case, for one), which every cast reads as an ObjectId but which is
    not the string [toString()] gives for it. *)
Inductive idParam : Type :=
| BadId (raw : string)
| GoodId (i : ObjectId)
| AltId (i : ObjectId).

Definition isValidObjectId (p : idParam) : bool :=
  match p with
  | GoodId _ | AltId _ => true
  | BadId _ => false
  end.

(** The id a parameter is cast to where the handler has validated it. *)
Definition cast (p : idParam) : value :=
  match p with
  | GoodId i | AltId i => VId i
  | BadId raw => VStr raw
  end.

(* ================================================================== *)
(** ** Model operations *)

Definition findOne (m : Model) (f : query) : M (option document) :=
  fun db => (inr (find (matches f) (coll m db)), db).

Definition findById (m : Model) (id : value) : M (option document) :=
  findOne m (Fields [("_id", CEq id)]).

(** [Model.create(fields)]: a fresh [_id], the fields, the time stamp. *)
Definition create (m : Model) (fields : document) : M document :=
  fun db =>
    let d : document :=
      ("_id", VId (fresh_id (coll m db))) :: fields
      ++ [("createdAt", VNum (now db))] in
    (inr d, tick (with_coll m (coll m db ++ [d]) db)).

Definition findByIdAndDelete (m : Model) (id : value) : M (option document) :=
  fun db =>
    let p := matches (Fields [("_id", CEq id)]) in
    match find p (coll m db) with
    | Some d => (inr (Some d), with_coll m (remove_first p (coll m db)) db)
    | None => (inr None, db)
    end.

(** Update operators of the second argument of [findByIdAndUpdate]. *)
Inductive update : Type :=
| USet (fields : document)              (* { $set: fields } *)
| UInc (k : string) (n : Z)             (* { $inc: { k: n } } *)
| UAddToSet (k : string) (v : value)    (* { $addToSet: { k: v } } *)
| UPull (k : string) (v : value).       (* { $pull: { k: v } } *)

Definition apply_update (u : update) (d : document) : document :=
  match u with
  | USet fields => fold_left (fun acc kv => set_field (fst kv) (snd kv) acc) fields d
  | UInc k n =>
      match field k d with
      | Some (VNum x) => set_field k (VNum (x + n)) d
      | None => set_field k (VNum n) d
      | Some _ => d
      end
  | UAddToSet k v =>
      match field k d with
      | Some (VArr items) =>
          if existsb (fun x => value_eqb x v) items then d
          else set_field k (VArr (items ++ [v])) d
      | None => set_field k (VArr [v]) d
      | Some _ => d
      end
  | UPull k v =>
      match field k d with
      | Some (VArr items) =>
          set_field k (VArr (filter (fun x => negb (value_eqb x v)) items)) d
      | _ => d
      end
  end.

(** [findByIdAndUpdate(id, u, { new: true })]: the updated document. *)
Definition findByIdAndUpdate (m : Model) (id : value) (u : update)
  : M (option document) :=
  fun db =>
    let p := matches (Fields [("_id", CEq id)]) in
    match find p (coll m db) with
    | Some d =>
        (inr (Some (apply_update u d)),
         with_coll m (update_first p (apply_update u) (coll m db)) db)
    | None => (inr None, db)
    end.

Definition countDocuments (m : Model) (f : query) : M Z :=
  fun db => (inr (Z.of_nat (List.length (filter (matches f) (coll m db)))), db).

(** [Model.find(f).distinct('_id')] *)
Definition distinct_ids (m : Model) (f : query) : M (list value) :=
  fun db =>
    (inr (nodup_values
            (flat_map (fun d => match field "_id" d with
                                | Some v => [v]
                                | None => []
                                end)
                      (filter (matches f) (coll m db)))), db).

(* ================================================================== *)
(** ** Aggregation pipelines *)

Inductive expr : Type :=
| EFirst (path : string)    (* { $first: "$path" } *)
| ESize (path : string).    (* { $size: "$path" } *)

Inductive stage : Type :=
| Match (f : query)                                   (* $match *)
| Sort (key : string) (dir : Z)                       (* $sort: { key: dir } *)
| Lookup (from localField foreignField as_ : string)
         (pipeline : list stage)                      (* $lookup *)
| AddFields (fs : list (string * expr))               (* $addFields *)
| Project (fs : list (string * bool))                 (* $project, 1 / 0 *)
| GroupSum (out path : string).
    (* $group: { _id: null, out: { $sum: "$path" } } *)

(** Order of values under [$sort]: by type first, then within the type. *)
Definition type_rank (v : option value) : nat :=
  match v with
  | None | Some VNull => 0
  | Some (VNum _) => 1
  | Some (VStr _) => 2
  | Some (VDoc _) => 3
  | Some (VArr _) => 4
  | Some (VId _) => 5
  | Some (VBool _) => 6
  end.

Definition value_leb (a b : option value) : bool :=
  match a, b with
  | Some (VNum x), Some (VNum y) => (x <=? y)%Z
  | Some (VStr x), Some (VStr y) => String.leb x y
  | Some (VId x), Some (VId y) => (x <=? y)%nat
  | Some (VBool x), Some (VBool y) => implb x y
  | _, _ => (type_rank a <=? type_rank b)%nat
  end.

Fixpoint insert_by (le : document -> document -> bool) (d : document)
         (sorted : list document) : list document :=
  match sorted with
  | [] => [d]
  | x :: rest => if le d x then d :: x :: rest else x :: insert_by le d rest
  end.

(** A stable sort: documents with equal keys keep their input order. *)
Definition sort_by (key : string) (dir : Z) (ds : list document) : list document :=
  let le := fun a b =>
    if (dir =? 1)%Z then value_leb (field key a) (field key b)
    else value_leb (field key b) (field key a) in
  fold_right (insert_by le) [] ds.

Definition eval_expr (e : expr) (d : document) : option value :=
  match e with
  | EFirst path =>
      match field path d with
      | Some (VArr (x :: _)) => Some x
      | _ => None
      end
  | ESize path =>
      match field path d with
      | Some (VArr items) => Some (VNum (Z.of_nat (List.length items)))
      | _ => None
      end
  end.

(** A field whose expression has no value is left out of the document. *)
Definition add_fields (fs : list (string * expr)) (d : document) : document :=
  fold_left (fun acc fe =>
               match eval_expr (snd fe) d with
               | Some v => set_field (fst fe) v acc
               | None => remove_field (fst fe) acc
               end) fs d.

(** Inclusion keeps [_id] and the listed fields; exclusion drops the listed. *)
Definition project (fs : list (string * bool)) (d : document) : document :=
  if existsb snd fs then
    filter (fun kv => String.eqb (fst kv) "_id"
                      || existsb (fun f => String.eqb (fst f) (fst kv) && snd f) fs) d
  else
    filter (fun kv => negb (existsb (fun f => String.eqb (fst f) (fst kv)) fs)) d.

Definition joins (local foreign : option value) : bool :=
  match local, foreign with
  | Some (VArr ids), Some y => existsb (fun x => value_matches y x) ids
  | Some x, Some y => value_matches y x
  | None, None => true
  | _, _ => false
  end.

Definition num_of (v : option value) : Z :=
  match v with
  | Some (VNum n) => n
  | _ => 0%Z
  end.

Definition sum_field (path : string) (ds : list document) : Z :=
  fold_right (fun d acc => (num_of (field path d) + acc)%Z) 0%Z ds.

Fixpoint run_stage (src : string -> list document) (s : stage)
         (ds : list document) {struct s} : list document :=
  match s with
  | Match f => filter (matches f) ds
  | Sort key dir => sort_by key dir ds
  | Lookup from localField foreignField as_ pipeline =>
      map (fun d =>
             let joined :=
               filter (fun e => joins (field localField d) (field foreignField e))
                      (src from) in
             set_field as_
               (VArr (map VDoc
                  (fold_left (fun acc s' => run_stage src s' acc) pipeline joined)))
               d) ds
  | AddFields fs => map (add_fields fs) ds
  | Project fs => map (project fs) ds
  | GroupSum out path =>
      match ds with
      | [] => []
      | _ => [[("_id", VNull); (out, VNum (sum_field path ds))]]
      end
  end.

Definition run_pipeline (src : string -> list document) (p : list stage)
           (ds : list document) : list document :=
  fold_left (fun acc s => run_stage src s acc) p ds.

(** [Model.aggregate(pipeline)] *)
Definition aggregate (m : Model) (p : list stage) : M (list document) :=
  fun db => (inr (run_pipeline (from_collection db) p (coll m db)), db).

(* ------------------------------------------------------------------ *)
(** *** Pagination *)

(** [options = { page, limit }] *)
Record PageRequest : Type := mkPageRequest {
  page : Z;
  limit : Z
}.

Record PageResult : Type := mkPageResult {
  items : list document;
  totalItems : Z;
  totalPages : Z;
  resultPage : Z;
  resultLimit : Z
}.

Definition ceil_div (a b : Z) : Z := ((a + b - 1) / b)%Z.

(** Modelled from the spec: [aggregatePaginate], which the model files
    (absent from the sources at hand) attach to every model as a plugin.
    Spec 3 and 4.5, for a page request with [page >= 1] and [limit >= 1]:
    [totalItems] is the size of the full result of the pipeline, the items
    are the [limit]-bounded window that starts at offset [(page - 1) * limit],
    [totalPages = ceil(totalItems / limit)], and [page] and [limit] are
    echoed.  The spec has no page request below 1, and the statements use
    the definition on none.  The ceiling on [limit] that 4.5 asks an
    implementer to choose is a constant that no source file defines and no
    call passes: every handler hands over
    [{ page: parseInt(page), limit: parseInt(limit) }] and nothing else, so
    the window is cut with the [limit] received. *)
Definition paginate (results : list document) (o : PageRequest) : PageResult :=
  {| items := firstn (Z.to_nat (limit o))
                (skipn (Z.to_nat ((page o - 1) * limit o)) results);
     totalItems := Z.of_nat (List.length results);
     totalPages := ceil_div (Z.of_nat (List.length results)) (limit o);
     resultPage := page o;
     resultLimit := limit o |}.

(** [Model.aggregatePaginate(Model.aggregate(pipeline), options)] *)
Definition aggregatePaginate (m : Model) (p : list stage) (o : PageRequest)
  : M PageResult :=
  fun db => (inr (paginate (run_pipeline (from_collection db) p (coll m db)) o), db).

(** [.populate("owner", "fullName username avatar")] *)
Definition populate_owner (d : option document) : M (option document) :=
  fun db =>
    (inr (option_map
            (fun d =>
               match field "owner" d with
               | Some v =>
                   match find (matches (Fields [("_id", CEq v)])) (users db) with
                   | Some u =>
                       set_field "owner"
                         (VDoc (project [("fullName", true); ("username", true);
                                         ("avatar", true)] u)) d
                   | None => set_field "owner" VNull d
                   end
               | None => d
               end) d), db).

(* ================================================================== *)
(** ** Helpers shared by the controllers *)

(** [doc._id] *)
Definition id_of (d : document) : value :=
  match field "_id" d with
  | Some v => v
  | None => VNull
  end.

(** [param === req.user._id.toString()]: a comparison of strings, which
    only the spelling of [toString()] can pass. *)
Definition is_caller (p : idParam) (caller : ObjectId) : bool :=
  match p with
  | GoodId i => (i =? caller)%nat
  | AltId _ | BadId _ => false
  end.

(** [doc.owner.toString() !== req.user._id.toString()]; a document with no
    owner makes [toString] throw, which the error middleware reports as 500. *)
Definition owner_differs (d : document) (caller : ObjectId) : M bool :=
  match field "owner" d with
  | Some (VId o) => ret (negb (o =? caller)%nat)
  | Some VNull | None => throw 500 "Cannot read properties of undefined"
  | Some _ => ret true
  end.

(** [!v] on a stored value *)
Definition js_not (v : option value) : bool :=
  match v with
  | Some (VBool b) => negb b
  | Some (VNum n) => (n =? 0)%Z
  | Some (VStr s) => String.eqb s ""
  | Some VNull | None => true
  | Some _ => false
  end.

(** [!s || s.trim() === ""] *)
Definition blank (s : option string) : bool :=
  match s with
  | Some s' => String.eqb s' "" || String.eqb (trim s') ""
  | None => true
  end.

(** [const { page = d } = req.query; parseInt(page)]: the query carries the
    integer its string reads as, when the parameter is present.  A parameter
    that reads as no integer is not a value of the type. *)
Definition parseInt (v : option Z) (default : Z) : Z :=
  match v with
  | Some z => z
  | None => default
  end.

Definition ownerProfile : list stage :=
  [Project [("fullName", true); ("username", true); ("avatar", true)]].

(* ================================================================== *)
(** ** subscription.controller.js *)

Definition toggleSubscription (caller : ObjectId) (channelId : idParam)
  : M (ApiResponse document) :=
  throw_if (negb (isValidObjectId channelId)) 400 "Invalid channel ID" ;;;
  channel <- findById User (cast channelId) ;;
  throw_if (match channel with None => true | Some _ => false end)
           404 "Channel not found" ;;;
  throw_if (is_caller channelId caller)
           400 "You cannot subscribe to your own channel" ;;;
  existingSubscription <-
    findOne Subscription (Fields [("subscriber", CEq (VId caller));
                                  ("channel", CEq (cast channelId))]) ;;
  match existingSubscription with
  | Some existing =>
      findByIdAndDelete Subscription (id_of existing) ;;;
      ret (mkApiResponse 200 [("isSubscribed", VBool false)]
                         "Unsubscribed successfully")
  | None =>
      create Subscription [("subscriber", VId caller);
                           ("channel", cast channelId)] ;;;
      ret (mkApiResponse 200 [("isSubscribed", VBool true)]
                         "Subscribed successfully")
  end.

Definition subscribers_pipeline (channelId : idParam) : list stage :=
  [ Match (Fields [("channel", CEq (cast channelId))]);
    Lookup "users" "subscriber" "_id" "subscriber" ownerProfile;
    AddFields [("subscriber", EFirst "subscriber")];
    Sort "createdAt" (-1) ].

Definition getUserChannelSubscribers (channelId : idParam) (pg lim : option Z)
  : M (ApiResponse PageResult) :=
  throw_if (negb (isValidObjectId channelId)) 400 "Invalid channel ID" ;;;
  channel <- findById User (cast channelId) ;;
  throw_if (match channel with None => true | Some _ => false end)
           404 "Channel not found" ;;;
  aggregate Subscription (subscribers_pipeline channelId) ;;;
  let options := mkPageRequest (parseInt pg 1) (parseInt lim 10) in
  paginatedSubscribers <-
    aggregatePaginate Subscription (subscribers_pipeline channelId) options ;;
  ret (mkApiResponse 200 paginatedSubscribers "Subscribers fetched successfully").

Definition subscribedChannels_pipeline (subscriberId : idParam) : list stage :=
  [ Match (Fields [("subscriber", CEq (cast subscriberId))]);
    Lookup "users" "channel" "_id" "channel"
           [Project [("fullName", true); ("username", true); ("avatar", true);
                     ("coverImage", true)]];
    AddFields [("channel", EFirst "channel")];
    Sort "createdAt" (-1) ].

Definition getSubscribedChannels (subscriberId : idParam) (pg lim : option Z)
  : M (ApiResponse PageResult) :=
  throw_if (negb (isValidObjectId subscriberId)) 400 "Invalid subscriber ID" ;;;
  subscriber <- findById User (cast subscriberId) ;;
  throw_if (match subscriber with None => true | Some _ => false end)
           404 "Subscriber not found" ;;;
  aggregate Subscription (subscribedChannels_pipeline subscriberId) ;;;
  let options := mkPageRequest (parseInt pg 1) (parseInt lim 10) in
  paginated <-
    aggregatePaginate Subscription (subscribedChannels_pipeline subscriberId) options ;;
  ret (mkApiResponse 200 paginated "Subscribed channels fetched successfully").

(* ================================================================== *)
(** ** like.controller.js *)

(** The Like schema is not among the sources; a like document carries the
    fields under the names the controller writes them with. *)

Definition toggleVideoLike (caller : ObjectId) (videoId : idParam)
  : M (ApiResponse document) :=
  throw_if (negb (isValidObjectId videoId)) 400 "Invalid video ID" ;;;
  video <- findById Video (cast videoId) ;;
  throw_if (match video with None => true | Some _ => false end)
           404 "Video not found" ;;;
  existingLike <-
    findOne Like (Fields [("video", CEq (cast videoId));
                          ("likedBy", CEq (VId caller))]) ;;
  match existingLike with
  | Some existing =>
      findByIdAndDelete Like (id_of existing) ;;;
      ret (mkApiResponse 200 [("isLiked", VBool false)] "Video unliked successfully")
  | None =>
      create Like [("video", cast videoId); ("likedBy", VId caller)] ;;;
      ret (mkApiResponse 200 [("isLiked", VBool true)] "Video liked successfully")
  end.

Definition toggleCommentLike (caller : ObjectId) (commentId : idParam)
  : M (ApiResponse document) :=
  throw_if (negb (isValidObjectId commentId)) 400 "Invalid comment ID" ;;;
  comment <- findById Comment (cast commentId) ;;
  throw_if (match comment with None => true | Some _ => false end)
           404 "Comment not found" ;;;
  existingLike <-
    findOne Like (Fields [("Comment", CEq (cast commentId));
                          ("likedBy", CEq (VId caller))]) ;;
  match existingLike with
  | Some existing =>
      findByIdAndDelete Like (id_of existing) ;;;
      ret (mkApiResponse 200 [("isLiked", VBool false)] "Comment unliked successfully")
  | None =>
      create Like [("Comment", cast commentId); ("likedBy", VId caller)] ;;;
      ret (mkApiResponse 200 [("isLiked", VBool true)] "Comment liked successfully")
  end.

Definition toggleTweetLike (caller : ObjectId) (tweetId : idParam)
  : M (ApiResponse document) :=
  throw_if (negb (isValidObjectId tweetId)) 400 "Invalid tweet ID" ;;;
  tweet <- findById Tweet (cast tweetId) ;;
  throw_if (match tweet with None => true | Some _ => false end)
           404 "Tweet not found" ;;;
  existingLike <-
    findOne Like (Fields [("tweet", CEq (cast tweetId));
                          ("likedBy", CEq (VId caller))]) ;;
  match existingLike with
  | Some existing =>
      findByIdAndDelete Like (id_of existing) ;;;
      ret (mkApiResponse 200 [("isLiked", VBool false)] "Tweet unliked successfully")
  | None =>
      create Like [("tweet", cast tweetId); ("likedBy", VId caller)] ;;;
      ret (mkApiResponse 200 [("isLiked", VBool true)] "Tweet liked successfully")
  end.

Definition videoWithOwner : list stage :=
  [ Lookup "users" "owner" "_id" "owner" ownerProfile;
    AddFields [("owner", EFirst "owner")] ].

Definition likedVideos_pipeline (caller : ObjectId) : list stage :=
  [ Match (Fields [("likedBy", CEq (VId caller)); ("video", CExists true)]);
    Lookup "videos" "video" "_id" "video" videoWithOwner;
    AddFields [("video", EFirst "video")];
    Sort "createdAt" (-1) ].

Definition getLikedVideos (caller : ObjectId) (pg lim : option Z)
  : M (ApiResponse PageResult) :=
  aggregate Like (likedVideos_pipeline caller) ;;;
  let options := mkPageRequest (parseInt pg 1) (parseInt lim 10) in
  paginatedLikedVideos <-
    aggregatePaginate Like (likedVideos_pipeline caller) options ;;
  ret (mkApiResponse 200 paginatedLikedVideos "Liked videos fetched successfully").

(* ================================================================== *)
(** ** video.controller.js *)

(** The sort key of a request as the engine reads it: a field to sort on,
    or a text with which the [$sort] stage is refused (a name that starts
    with "$", a path with an empty component; also "__proto__", which is no
    key of [sortStage] once assigned). *)
Inductive sortKey : Type :=
| FieldKey (name : string)
| BadKey (raw : string).

Definition key_text (k : sortKey) : string :=
  match k with
  | FieldKey raw | BadKey raw => raw
  end.

(** [req.query] of the video feed. *)
Record VideoQuery : Type := mkVideoQuery {
  q_page : option Z;
  q_limit : option Z;
  q_query : option searchText;
  q_sortBy : option sortKey;
  q_sortType : option string;
  q_userId : option idParam
}.

Definition sortStage (sortBy sortType : option string) : stage :=
  match sortBy, sortType with
  | Some by_, Some type_ =>
      if truthy sortBy && truthy sortType
      then Sort by_ (if String.eqb type_ "asc" then 1 else -1)
      else Sort "createdAt" (-1)
  | _, _ => Sort "createdAt" (-1)
  end.

(** The stages in the order the handler pushes them. *)
Definition getAllVideos_pipeline (q : VideoQuery) : list stage :=
  [Match (Fields [("isPublished", CEq (VBool true))])]
  ++ match q_userId q with
     | Some userId =>
         if isValidObjectId userId
         then [Match (Fields [("owner", CEq (cast userId))])]
         else []
     | None => []
     end
  ++ match q_query q with
     | Some text =>
         if truthy (Some (raw_text text))
         then [Match (Or [[("title", CRegexI text)];
                          [("description", CRegexI text)]])]
         else []
     | None => []
     end
  ++ [sortStage (option_map key_text (q_sortBy q)) (q_sortType q)]
  ++ [Lookup "users" "owner" "_id" "owner" ownerProfile]
  ++ [AddFields [("owner", EFirst "owner")]].

Definition getAllVideos_options (q : VideoQuery) : PageRequest :=
  mkPageRequest (parseInt (q_page q) 1) (parseInt (q_limit q) 10).

(** [await Video.aggregatePaginate(videoAggregate, options)] is rejected
    when the engine refuses the pipeline the request has led to: a search
    text that is no regular expression, or a sort key it accepts no sort on.
    The error is no [ApiError]; the error middleware reports it as 500. *)
Definition refused_by_engine (q : VideoQuery) : bool :=
  match q_query q with
  | Some (IllFormed raw) => truthy (Some raw)
  | _ => false
  end
  || match q_sortBy q with
     | Some (BadKey raw) => truthy (Some raw) && truthy (q_sortType q)
     | _ => false
     end.

Definition getAllVideos (q : VideoQuery) : M (ApiResponse PageResult) :=
  let pipeline := getAllVideos_pipeline q in
  let options := getAllVideos_options q in
  throw_if (refused_by_engine q) 500 "The pipeline is refused" ;;;
  videos <- aggregatePaginate Video pipeline options ;;
  ret (mkApiResponse 200 videos "Videos fetched successfully").

Definition videoById_pipeline (videoId : idParam) : list stage :=
  [ Match (Fields [("_id", CEq (cast videoId))]);
    Lookup "users" "owner" "_id" "owner" ownerProfile;
    AddFields [("owner", EFirst "owner")] ].

Definition getVideoById (videoId : idParam) : M (ApiResponse (option document)) :=
  throw_if (negb (isValidObjectId videoId)) 400 "Invalid video ID" ;;;
  video <- findById Video (cast videoId) ;;
  throw_if (match video with None => true | Some _ => false end)
           404 "Video not found" ;;;
  findByIdAndUpdate Video (cast videoId) (UInc "views" 1) ;;;
  videoWithOwner <- aggregate Video (videoById_pipeline videoId) ;;
  ret (mkApiResponse 200 (hd_error videoWithOwner) "Video fetched successfully").

(** [req.file] of an update: absent, or a local file together with what
    [uploadOnCloudinary] returns for it ([None] when the upload fails). *)
Definition upload := option (option string).

(** A file of [req.files]: absent (no path), or a local file together with
    what [uploadOnCloudinary] returns for it: nothing when the upload
    fails, else the url and, for a video, the duration when there is one. *)
Definition mediaUpload := option (option (string * option Z)).

Definition publishAVideo (caller : ObjectId) (title description : option string)
           (videoFile : mediaUpload) (thumbnail : upload)
  : M (ApiResponse (option document)) :=
  throw_if (negb (truthy title && truthy description))
           400 "Title and description are required" ;;;
  throw_if (match videoFile with None => true | Some _ => false end)
           400 "Video file is required" ;;;
  throw_if (match thumbnail with None => true | Some _ => false end)
           400 "Thumbnail is required" ;;;
  match videoFile, thumbnail with
  | Some (Some (videoUrl, duration)), Some (Some thumbnailUrl) =>
      video <- create Video
                 [("videoFile", VStr videoUrl);
                  ("thumbnail", VStr thumbnailUrl);
                  ("title", VStr (match title with Some t => t | None => "" end));
                  ("description",
                   VStr (match description with Some d => d | None => "" end));
                  ("duration", VNum (match duration with Some n => n | None => 0%Z end));
                  ("owner", VId caller);
                  ("isPublished", VBool true)] ;;
      createdVideo <- findById Video (id_of video) ;;
      throw_if (match createdVideo with None => true | Some _ => false end)
               500 "Something went wrong while publishing the video" ;;;
      ret (mkApiResponse 201 createdVideo "Video published successfully")
  | Some None, _ => throw 400 "Video file upload failed"
  | _, _ => throw 400 "Thumbnail upload failed"
  end.

Definition updateVideo (caller : ObjectId) (videoId : idParam)
           (title description : option string) (file : upload)
  : M (ApiResponse (option document)) :=
  throw_if (negb (isValidObjectId videoId)) 400 "Invalid video ID" ;;;
  video <- findById Video (cast videoId) ;;
  match video with
  | None => throw 404 "Video not found"
  | Some video =>
      differs <- owner_differs video caller ;;
      throw_if differs 403 "You can only update your own videos" ;;;
      let updateFields : document :=
        (match title with
         | Some t => if truthy title then [("title", VStr t)] else []
         | None => []
         end
         ++ match description with
            | Some d => if truthy description then [("description", VStr d)] else []
            | None => []
            end)%list in
      updateFields <-
        match file with
        | Some thumbnail =>
            match thumbnail with
            | None => throw 400 "Thumbnail upload failed"
            | Some url => ret (updateFields ++ [("thumbnail", VStr url)])%list
            end
        | None => ret updateFields
        end ;;
      updatedVideo <- findByIdAndUpdate Video (cast videoId) (USet updateFields) ;;
      ret (mkApiResponse 200 updatedVideo "Video updated successfully")
  end.

Definition deleteVideo (caller : ObjectId) (videoId : idParam)
  : M (ApiResponse document) :=
  throw_if (negb (isValidObjectId videoId)) 400 "Invalid video ID" ;;;
  video <- findById Video (cast videoId) ;;
  match video with
  | None => throw 404 "Video not found"
  | Some video =>
      differs <- owner_differs video caller ;;
      throw_if differs 403 "You can only delete your own videos" ;;;
      findByIdAndDelete Video (cast videoId) ;;;
      ret (mkApiResponse 200 [] "Video deleted successfully")
  end.

Definition togglePublishStatus (caller : ObjectId) (videoId : idParam)
  : M (ApiResponse (option document)) :=
  throw_if (negb (isValidObjectId videoId)) 400 "Invalid video ID" ;;;
  video <- findById Video (cast videoId) ;;
  match video with
  | None => throw 404 "Video not found"
  | Some video =>
      differs <- owner_differs video caller ;;
      throw_if differs 403 "You can only toggle publish status of your own videos" ;;;
      updatedVideo <-
        findByIdAndUpdate Video (cast videoId)
          (USet [("isPublished", VBool (js_not (field "isPublished" video)))]) ;;
      ret (mkApiResponse 200 updatedVideo
             (match updatedVideo with
              | Some u => if js_not (field "isPublished" u)
                          then "Video unpublished successfully"
                          else "Video published successfully"
              | None => "Video unpublished successfully"
              end))
  end.

(* ================================================================== *)
(** ** dashboard.controller.js *)

Record ChannelStats : Type := mkChannelStats {
  totalVideos : Z;
  totalViews : Z;
  totalSubscribers : Z;
  totalLikes : Z;
  totalComments : Z
}.

Definition getChannelStats (userId : ObjectId) : M (ApiResponse ChannelStats) :=
  totalVideos <- countDocuments Video (Fields [("owner", CEq (VId userId))]) ;;
  totalViews <- aggregate Video [ Match (Fields [("owner", CEq (VId userId))]);
                                  GroupSum "totalViews" "views" ] ;;
  totalSubscribers <-
    countDocuments Subscription (Fields [("channel", CEq (VId userId))]) ;;
  owned <- distinct_ids Video (Fields [("owner", CEq (VId userId))]) ;;
  totalLikes <- countDocuments Like (Fields [("video", CIn owned)]) ;;
  owned' <- distinct_ids Video (Fields [("owner", CEq (VId userId))]) ;;
  totalComments <- countDocuments Comment (Fields [("video", CIn owned')]) ;;
  let stats :=
    mkChannelStats
      totalVideos
      (* totalViews[0]?.totalViews || 0 *)
      (match hd_error totalViews with
       | Some g => match field "totalViews" g with
                   | Some (VNum n) => n
                   | _ => 0%Z
                   end
       | None => 0%Z
       end)
      totalSubscribers totalLikes totalComments in
  ret (mkApiResponse 200 stats "Channel stats fetched successfully").

(** [status]: "published", "draft", anything else lists all. *)
Definition channelVideos_pipeline (userId : ObjectId) (status : string) : list stage :=
  let matchStage : list (string * cond) :=
    ([("owner", CEq (VId userId))]
     ++ (if String.eqb status "published" then [("isPublished", CEq (VBool true))]
         else if String.eqb status "draft" then [("isPublished", CEq (VBool false))]
         else []))%list in
  [ Match (Fields matchStage);
    Lookup "likes" "_id" "video" "likes" [];
    Lookup "comments" "_id" "video" "comments" [];
    AddFields [("likeCount", ESize "likes"); ("commentCount", ESize "comments")];
    Project [("likes", false); ("comments", false)];
    Sort "createdAt" (-1) ].

Definition getChannelVideos (userId : ObjectId) (pg lim : option Z)
           (status : option string) : M (ApiResponse PageResult) :=
  let status := match status with Some s => s | None => "all" end in
  let options := mkPageRequest (parseInt pg 1) (parseInt lim 10) in
  videos <- aggregatePaginate Video (channelVideos_pipeline userId status) options ;;
  ret (mkApiResponse 200 videos "Channel videos fetched successfully").

(* ================================================================== *)
(** ** tweet.controller.js *)

Definition createTweet (caller : ObjectId) (content : option string)
  : M (ApiResponse (option document)) :=
  throw_if (blank content) 400 "Tweet content is required" ;;;
  tweet <- create Tweet
             [("content", VStr (trim (match content with Some c => c | None => "" end)));
              ("owner", VId caller)] ;;
  found <- findById Tweet (id_of tweet) ;;
  createdTweet <- populate_owner found ;;
  ret (mkApiResponse 201 createdTweet "Tweet created successfully").

Definition userTweets_pipeline (userId : idParam) : list stage :=
  [ Match (Fields [("owner", CEq (cast userId))]);
    Lookup "users" "owner" "_id" "owner" ownerProfile;
    AddFields [("owner", EFirst "owner")];
    Sort "createdAt" (-1) ].

Definition getUserTweets (userId : idParam) (pg lim : option Z)
  : M (ApiResponse PageResult) :=
  throw_if (negb (isValidObjectId userId)) 400 "Invalid user ID" ;;;
  user <- findById User (cast userId) ;;
  throw_if (match user with None => true | Some _ => false end)
           404 "User not found" ;;;
  let options := mkPageRequest (parseInt pg 1) (parseInt lim 10) in
  tweets <- aggregatePaginate Tweet (userTweets_pipeline userId) options ;;
  ret (mkApiResponse 200 tweets "User tweets fetched successfully").

Definition updateTweet (caller : ObjectId) (tweetId : idParam)
           (content : option string) : M (ApiResponse (option document)) :=
  throw_if (negb (isValidObjectId tweetId)) 400 "Invalid tweet ID" ;;;
  throw_if (blank content) 400 "Tweet content is required" ;;;
  tweet <- findById Tweet (cast tweetId) ;;
  match tweet with
  | None => throw 404 "Tweet not found"
  | Some tweet =>
      differs <- owner_differs tweet caller ;;
      throw_if differs 403 "You can only update your own tweets" ;;;
      updated <-
        findByIdAndUpdate Tweet (cast tweetId)
          (USet [("content",
                  VStr (trim (match content with Some c => c | None => "" end)))]) ;;
      updatedTweet <- populate_owner updated ;;
      ret (mkApiResponse 200 updatedTweet "Tweet updated successfully")
  end.

Definition deleteTweet (caller : ObjectId) (tweetId : idParam)
  : M (ApiResponse document) :=
  throw_if (negb (isValidObjectId tweetId)) 400 "Invalid tweet ID" ;;;
  tweet <- findById Tweet (cast tweetId) ;;
  match tweet with
  | None => throw 404 "Tweet not found"
  | Some tweet =>
      differs <- owner_differs tweet caller ;;
      throw_if differs 403 "You can only delete your own tweets" ;;;
      findByIdAndDelete Tweet (cast tweetId) ;;;
      ret (mkApiResponse 200 [] "Tweet deleted successfully")
  end.

(* ================================================================== *)
(** ** playlist.controller.js *)

Definition createPlaylist (caller : ObjectId) (name description : option string)
  : M (ApiResponse (option document)) :=
  throw_if (blank name) 400 "Playlist name is required" ;;;
  throw_if (blank description) 400 "Playlist description is required" ;;;
  playlist <- create Playlist
                [("name", VStr (trim (match name with Some n => n | None => "" end)));
                 ("description",
                  VStr (trim (match description with Some d => d | None => "" end)));
                 ("owner", VId caller)] ;;
  found <- findById Playlist (id_of playlist) ;;
  createdPlaylist <- populate_owner found ;;
  ret (mkApiResponse 201 createdPlaylist "Playlist created successfully").

Definition userPlaylists_pipeline (userId : idParam) : list stage :=
  [ Match (Fields [("owner", CEq (cast userId))]);
    Lookup "users" "owner" "_id" "owner" ownerProfile;
    AddFields [("owner", EFirst "owner"); ("videoCount", ESize "videos")];
    Sort "createdAt" (-1) ].

Definition getUserPlaylists (userId : idParam) (pg lim : option Z)
  : M (ApiResponse PageResult) :=
  throw_if (negb (isValidObjectId userId)) 400 "Invalid user ID" ;;;
  user <- findById User (cast userId) ;;
  throw_if (match user with None => true | Some _ => false end)
           404 "User not found" ;;;
  let options := mkPageRequest (parseInt pg 1) (parseInt lim 10) in
  playlists <- aggregatePaginate Playlist (userPlaylists_pipeline userId) options ;;
  ret (mkApiResponse 200 playlists "User playlists fetched successfully").

Definition playlistById_pipeline (playlistId : idParam) : list stage :=
  [ Match (Fields [("_id", CEq (cast playlistId))]);
    Lookup "videos" "videos" "_id" "videos" videoWithOwner;
    Lookup "users" "owner" "_id" "owner" ownerProfile;
    AddFields [("owner", EFirst "owner")] ].

Definition getPlaylistById (playlistId : idParam)
  : M (ApiResponse (option document)) :=
  throw_if (negb (isValidObjectId playlistId)) 400 "Invalid playlist ID" ;;;
  playlist <- findById Playlist (cast playlistId) ;;
  throw_if (match playlist with None => true | Some _ => false end)
           404 "Playlist not found" ;;;
  playlistWithVideos <- aggregate Playlist (playlistById_pipeline playlistId) ;;
  ret (mkApiResponse 200 (hd_error playlistWithVideos) "Playlist fetched successfully").

(** The array under [k] holds the id [v]. *)
Definition includes (d : document) (k : string) (v : value) : bool :=
  match field k d with
  | Some (VArr ids) => existsb (fun x => value_eqb x v) ids
  | _ => false
  end.

(** [playlist.videos.includes(videoId)]: the array compares the string of
    the request with the [toString()] of each of its ids, so only the
    spelling of [toString()] is found. *)
Definition includes_param (d : document) (k : string) (p : idParam) : bool :=
  match p with
  | GoodId i => includes d k (VId i)
  | AltId _ | BadId _ => false
  end.

Definition addVideoToPlaylist (caller : ObjectId) (playlistId videoId : idParam)
  : M (ApiResponse (option document)) :=
  throw_if (negb (isValidObjectId playlistId) || negb (isValidObjectId videoId))
           400 "Invalid playlist or video ID" ;;;
  playlist <- findById Playlist (cast playlistId) ;;
  match playlist with
  | None => throw 404 "Playlist not found"
  | Some playlist =>
      video <- findById Video (cast videoId) ;;
      throw_if (match video with None => true | Some _ => false end)
               404 "Video not found" ;;;
      differs <- owner_differs playlist caller ;;
      throw_if differs 403 "You can only add videos to your own playlists" ;;;
      throw_if (includes_param playlist "videos" videoId)
               400 "Video is already in the playlist" ;;;
      updated <- findByIdAndUpdate Playlist (cast playlistId)
                   (UAddToSet "videos" (cast videoId)) ;;
      updatedPlaylist <- populate_owner updated ;;
      ret (mkApiResponse 200 updatedPlaylist "Video added to playlist successfully")
  end.

Definition removeVideoFromPlaylist (caller : ObjectId) (playlistId videoId : idParam)
  : M (ApiResponse (option document)) :=
  throw_if (negb (isValidObjectId playlistId) || negb (isValidObjectId videoId))
           400 "Invalid playlist or video ID" ;;;
  playlist <- findById Playlist (cast playlistId) ;;
  match playlist with
  | None => throw 404 "Playlist not found"
  | Some playlist =>
      differs <- owner_differs playlist caller ;;
      throw_if differs 403 "You can only remove videos from your own playlists" ;;;
      updated <- findByIdAndUpdate Playlist (cast playlistId)
                   (UPull "videos" (cast videoId)) ;;
      updatedPlaylist <- populate_owner updated ;;
      ret (mkApiResponse 200 updatedPlaylist
                         "Video removed from playlist successfully")
  end.

Definition deletePlaylist (caller : ObjectId) (playlistId : idParam)
  : M (ApiResponse document) :=
  throw_if (negb (isValidObjectId playlistId)) 400 "Invalid playlist ID" ;;;
  playlist <- findById Playlist (cast playlistId) ;;
  match playlist with
  | None => throw 404 "Playlist not found"
  | Some playlist =>
      differs <- owner_differs playlist caller ;;
      throw_if differs 403 "You can only delete your own playlists" ;;;
      findByIdAndDelete Playlist (cast playlistId) ;;;
      ret (mkApiResponse 200 [] "Playlist deleted successfully")
  end.

Definition updatePlaylist (caller : ObjectId) (playlistId : idParam)
           (name description : option string)
  : M (ApiResponse (option document)) :=
  throw_if (negb (isValidObjectId playlistId)) 400 "Invalid playlist ID" ;;;
  playlist <- findById Playlist (cast playlistId) ;;
  match playlist with
  | None => throw 404 "Playlist not found"
  | Some playlist =>
      differs <- owner_differs playlist caller ;;
      throw_if differs 403 "You can only update your own playlists" ;;;
      let updateFields : document :=
        (match name with
         | Some n => if negb (blank name) then [("name", VStr (trim n))] else []
         | None => []
         end
         ++ match description with
            | Some d =>
                if negb (blank description) then [("description", VStr (trim d))]
                else []
            | None => []
            end)%list in
      throw_if (match updateFields with [] => true | _ => false end)
               400 "At least one field (name or description) is required" ;;;
      updated <- findByIdAndUpdate Playlist (cast playlistId) (USet updateFields) ;;
      updatedPlaylist <- populate_owner updated ;;
      ret (mkApiResponse 200 updatedPlaylist "Playlist updated successfully")
  end.

(* ================================================================== *)
(** * Vocabulary of the statements *)

Open Scope list_scope.
Open Scope nat_scope.

Definition count (p : document -> bool) (ds : list document) : nat :=
  List.length (filter p ds).

Definition has_id (d : document) : Prop :=
  exists i, field "_id" d = Some (VId i).

(** What the store guarantees for every collection: each document carries
    an ObjectId under [_id] and no two documents share one. *)
Definition wf_coll (ds : list document) : Prop :=
  Forall has_id ds /\ NoDup (map (field "_id") ds).

(** The four toggles of the controllers. *)
Inductive toggle : Type :=
  SubscriptionToggle | VideoLikeToggle | CommentLikeToggle | TweetLikeToggle.

Definition run_toggle (t : toggle) (caller : ObjectId) (target : idParam)
  : M (ApiResponse document) :=
  match t with
  | SubscriptionToggle => toggleSubscription caller target
  | VideoLikeToggle => toggleVideoLike caller target
  | CommentLikeToggle => toggleCommentLike caller target
  | TweetLikeToggle => toggleTweetLike caller target
  end.

(** Where the edges of a toggle live, and where its targets live. *)
Definition edge_model (t : toggle) : Model :=
  match t with
  | SubscriptionToggle => Subscription
  | _ => Like
  end.

Definition target_model (t : toggle) : Model :=
  match t with
  | SubscriptionToggle => User
  | VideoLikeToggle => Video
  | CommentLikeToggle => Comment
  | TweetLikeToggle => Tweet
  end.

(** The query each handler uses to look its edge up. *)
Definition edge_query (t : toggle) (source target : ObjectId) : query :=
  match t with
  | SubscriptionToggle =>
      Fields [("subscriber", CEq (VId source)); ("channel", CEq (VId target))]
  | VideoLikeToggle =>
      Fields [("video", CEq (VId target)); ("likedBy", CEq (VId source))]
  | CommentLikeToggle =>
      Fields [("Comment", CEq (VId target)); ("likedBy", CEq (VId source))]
  | TweetLikeToggle =>
      Fields [("tweet", CEq (VId target)); ("likedBy", CEq (VId source))]
  end.

(** The fields each handler creates its edge with. *)
Definition edge_fields (t : toggle) (source target : ObjectId) : document :=
  match t with
  | SubscriptionToggle => [("subscriber", VId source); ("channel", VId target)]
  | VideoLikeToggle => [("video", VId target); ("likedBy", VId source)]
  | CommentLikeToggle => [("Comment", VId target); ("likedBy", VId source)]
  | TweetLikeToggle => [("tweet", VId target); ("likedBy", VId source)]
  end.

(** The flag of the response: [isSubscribed] or [isLiked]. *)
Definition reported (t : toggle) (r : ApiResponse document) : option value :=
  match t with
  | SubscriptionToggle => field "isSubscribed" (data r)
  | _ => field "isLiked" (data r)
  end.

(** Presence of the edge [(source, target, kind)]. *)
Definition present (t : toggle) (source target : ObjectId) (db : Db) : bool :=
  existsb (matches (edge_query t source target)) (coll (edge_model t) db).

Definition edge_count (t : toggle) (source target : ObjectId) (db : Db) : nat :=
  count (matches (edge_query t source target)) (coll (edge_model t) db).

(** At most one edge for every triple. *)
Definition unique_edges (db : Db) : Prop :=
  forall t source target, edge_count t source target db <= 1.

(** A valid triple: the target exists in its collection, and a subscription
    is not to oneself. *)
Definition valid_triple (t : toggle) (source target : ObjectId) (db : Db) : bool :=
  (match find (matches (Fields [("_id", CEq (VId target))]))
              (coll (target_model t) db) with
   | Some _ => true
   | None => false
   end)
  && match t with
     | SubscriptionToggle => negb (target =? source)
     | _ => true
     end.

(** The look-up, then delete or create, that the four handlers share. *)
Definition toggle_core (m : Model) (q : query) (fields : document)
           (off on : ApiResponse document) : M (ApiResponse document) :=
  existing <- findOne m q ;;
  match existing with
  | Some e => findByIdAndDelete m (id_of e) ;;; ret off
  | None => create m fields ;;; ret on
  end.

Definition response_off (t : toggle) : ApiResponse document :=
  match t with
  | SubscriptionToggle =>
      mkApiResponse 200 [("isSubscribed", VBool false)] "Unsubscribed successfully"
  | VideoLikeToggle =>
      mkApiResponse 200 [("isLiked", VBool false)] "Video unliked successfully"
  | CommentLikeToggle =>
      mkApiResponse 200 [("isLiked", VBool false)] "Comment unliked successfully"
  | TweetLikeToggle =>
      mkApiResponse 200 [("isLiked", VBool false)] "Tweet unliked successfully"
  end.

Definition response_on (t : toggle) : ApiResponse document :=
  match t with
  | SubscriptionToggle =>
      mkApiResponse 200 [("isSubscribed", VBool true)] "Subscribed successfully"
  | VideoLikeToggle =>
      mkApiResponse 200 [("isLiked", VBool true)] "Video liked successfully"
  | CommentLikeToggle =>
      mkApiResponse 200 [("isLiked", VBool true)] "Comment liked successfully"
  | TweetLikeToggle =>
      mkApiResponse 200 [("isLiked", VBool true)] "Tweet liked successfully"
  end.

(** The document [create] stores. *)
Definition new_doc (m : Model) (fields : document) (db : Db) : document :=
  ("_id", VId (fresh_id (coll m db))) :: fields ++ [("createdAt", VNum (now db))].

(** The ways a toggle may leave the collection of its edges. *)
Definition edges_step (before after : list document) : Prop :=
  after = before
  \/ (exists d, after = before ++ [d])
  \/ (exists l1 d l2, before = l1 ++ d :: l2 /\ after = l1 ++ l2).

(** [n] toggles of the same triple, one after the other. *)
Fixpoint toggle_times (n : nat) (t : toggle) (caller target : ObjectId)
         (db : Db) : Db :=
  match n with
  | 0 => db
  | S k => toggle_times k t caller target
             (snd (run_toggle t caller (GoodId target) db))
  end.

(** A decision procedure for [wf_coll]. *)
Fixpoint mem_id (i : ObjectId) (l : list ObjectId) : bool :=
  match l with
  | [] => false
  | j :: rest => (i =? j) || mem_id i rest
  end.

Fixpoint wf_ids (ds : list document) (seen : list ObjectId) : bool :=
  match ds with
  | [] => true
  | d :: rest =>
      match oid d with
      | Some i => negb (mem_id i seen) && wf_ids rest (i :: seen)
      | None => false
      end
  end.

Definition wf_collb (ds : list document) : bool := wf_ids ds [].

(* ------------------------------------------------------------------ *)
(** ** A small store used in the examples *)

Definition alice : ObjectId := 1.
Definition bob : ObjectId := 2.

(** U+00A0 (no-break space) and U+2003 (em space), in UTF-8. *)
Definition nbsp : string :=
  String (ascii_of_nat 194) (String (ascii_of_nat 160) EmptyString).

Definition em_space : string :=
  String (ascii_of_nat 226)
    (String (ascii_of_nat 128) (String (ascii_of_nat 131) EmptyString)).

Definition sampleUser (i : ObjectId) (name handle : string) : document :=
  [("_id", VId i); ("fullName", VStr name); ("username", VStr handle);
   ("avatar", VStr "avatar.png")].

Definition sampleVideo (i owner : ObjectId) (title : string) (views created : Z)
  : document :=
  [("_id", VId i); ("videoFile", VStr "video.mp4"); ("thumbnail", VStr "thumb.png");
   ("title", VStr title); ("description", VStr "a video"); ("duration", VNum 60);
   ("views", VNum views); ("isPublished", VBool true); ("owner", VId owner);
   ("createdAt", VNum created)].

(** Alice owns video 10, tweet 30 and playlist 20, which holds video 10;
    Bob has liked video 10, commented on it and subscribed to Alice. *)
Definition sampleDb : Db :=
  {| users := [sampleUser alice "Alice" "alice"; sampleUser bob "Bob" "bob"];
     videos := [sampleVideo 10 alice "First" 5 1];
     subscriptions := [[("_id", VId 50); ("subscriber", VId bob);
                        ("channel", VId alice); ("createdAt", VNum 4)]];
     likes := [[("_id", VId 100); ("video", VId 10); ("likedBy", VId bob);
                ("createdAt", VNum 5)]];
     comments := [[("_id", VId 40); ("content", VStr "nice"); ("video", VId 10);
                   ("owner", VId bob); ("createdAt", VNum 6)]];
     tweets := [[("_id", VId 30); ("content", VStr "hello"); ("owner", VId alice);
                 ("createdAt", VNum 2)]];
     playlists := [[("_id", VId 20); ("name", VStr "Mine");
                    ("description", VStr "my list"); ("videos", VArr [VId 10]);
                    ("owner", VId alice); ("createdAt", VNum 3)]];
     now := 7 |}.

(** A feed of [n] published videos of [alice], oldest first. *)
Definition manyVideos (n : nat) : list document :=
  map (fun i => sampleVideo i alice "clip" 0 (Z.of_nat i)) (seq 1 n).

Definition feedDb (n : nat) : Db :=
  {| users := [sampleUser alice "Alice" "alice"];
     videos := manyVideos n;
     subscriptions := []; likes := []; comments := []; tweets := [];
     playlists := []; now := Z.of_nat (S n) |}.

(** The feed request that sets only [page] and [limit]. *)
Definition feedQuery (pg lim : option Z) : VideoQuery :=
  mkVideoQuery pg lim None None None None.

(* ------------------------------------------------------------------ *)
(** ** The order of the stages of a read view *)

(** The read views of the controllers, each with what its pipeline is
    built from. *)
Inductive view : Type :=
| Feed (q : VideoQuery)                                (* getAllVideos *)
| VideoById (videoId : idParam)                        (* getVideoById *)
| ChannelVideos (userId : ObjectId) (status : string)  (* getChannelVideos *)
| UserTweets (userId : idParam)                        (* getUserTweets *)
| LikedVideos (caller : ObjectId)                      (* getLikedVideos *)
| UserPlaylists (userId : idParam)                     (* getUserPlaylists *)
| PlaylistById (playlistId : idParam)                  (* getPlaylistById *)
| Subscribers (channelId : idParam)                    (* getUserChannelSubscribers *)
| SubscribedChannels (subscriberId : idParam).         (* getSubscribedChannels *)

Definition view_pipeline (v : view) : list stage :=
  match v with
  | Feed q => getAllVideos_pipeline q
  | VideoById i => videoById_pipeline i
  | ChannelVideos u status => channelVideos_pipeline u status
  | UserTweets u => userTweets_pipeline u
  | LikedVideos c => likedVideos_pipeline c
  | UserPlaylists u => userPlaylists_pipeline u
  | PlaylistById i => playlistById_pipeline i
  | Subscribers c => subscribers_pipeline c
  | SubscribedChannels s => subscribedChannels_pipeline s
  end.

(** The place of a stage in the order base filters, search filter, sort,
    joins, output projection.  A join is a [$lookup] or the [$addFields]
    that reduces the looked-up array to its first element or to its size. *)
Definition phase (s : stage) : nat :=
  match s with
  | Match (Fields _) => 0
  | Match (Or _) => 1
  | Sort _ _ => 2
  | Lookup _ _ _ _ _ => 3
  | AddFields _ => 3
  | Project _ => 4
  | GroupSum _ _ => 4
  end.








(* ------------------------------------------------------------------ *)
(** ** The pages of the list views *)




(* ------------------------------------------------------------------ *)
(** ** Mutations behind the ownership check *)

(** The handlers that change or delete a video, a tweet or a playlist, each
    with the request it reads. *)
Inductive mutation : Type :=
| UpdateVideo (videoId : idParam) (title description : option string) (file : upload)
| DeleteVideo (videoId : idParam)
| TogglePublishStatus (videoId : idParam)
| UpdateTweet (tweetId : idParam) (content : option string)
| DeleteTweet (tweetId : idParam)
| AddVideoToPlaylist (playlistId videoId : idParam)
| RemoveVideoFromPlaylist (playlistId videoId : idParam)
| DeletePlaylist (playlistId : idParam)
| UpdatePlaylist (playlistId : idParam) (name description : option string).

(** The outcome of a handler with its payload dropped: the error thrown, if
    any, and the store left. *)
Definition outcome {A} (r : (ApiError + A) * Db) : option ApiError * Db :=
  match r with
  | (inl e, db) => (Some e, db)
  | (inr _, db) => (None, db)
  end.

Definition run_mutation (caller : ObjectId) (mu : mutation) (db : Db)
  : option ApiError * Db :=
  match mu with
  | UpdateVideo i title description file =>
      outcome (updateVideo caller i title description file db)
  | DeleteVideo i => outcome (deleteVideo caller i db)
  | TogglePublishStatus i => outcome (togglePublishStatus caller i db)
  | UpdateTweet i content => outcome (updateTweet caller i content db)
  | DeleteTweet i => outcome (deleteTweet caller i db)
  | AddVideoToPlaylist p v => outcome (addVideoToPlaylist caller p v db)
  | RemoveVideoFromPlaylist p v => outcome (removeVideoFromPlaylist caller p v db)
  | DeletePlaylist p => outcome (deletePlaylist caller p db)
  | UpdatePlaylist p name description =>
      outcome (updatePlaylist caller p name description db)
  end.

(** The entity a mutation is about. *)
Definition mutated (mu : mutation) : Model * idParam :=
  match mu with
  | UpdateVideo i _ _ _ | DeleteVideo i | TogglePublishStatus i => (Video, i)
  | UpdateTweet i _ | DeleteTweet i => (Tweet, i)
  | AddVideoToPlaylist p _ | RemoveVideoFromPlaylist p _ | DeletePlaylist p
  | UpdatePlaylist p _ _ => (Playlist, p)
  end.

(** [stored mu db d]: the mutation names, by a valid id in whichever
    spelling, the stored entity [d]. *)
Definition stored (mu : mutation) (db : Db) (d : document) : Prop :=
  exists i, cast (snd (mutated mu)) = VId i
            /\ find (matches (byId i)) (coll (fst (mutated mu)) db) = Some d.

(** The checks a handler makes on the rest of its request before it
    compares the owner with the caller. *)
Definition checks_before_guard (mu : mutation) (db : Db) : bool :=
  match mu with
  | UpdateTweet _ content => negb (blank content)
  | AddVideoToPlaylist _ v =>
      isValidObjectId v
      && match find (matches (Fields [("_id", CEq (cast v))])) (videos db) with
         | Some _ => true
         | None => false
         end
  | RemoveVideoFromPlaylist _ v => isValidObjectId v
  | _ => true
  end.

(* ------------------------------------------------------------------ *)
(** ** Channel statistics *)

(** A document owned by [u]. *)
Definition owned_by (u : ObjectId) (d : document) : bool :=
  matches (Fields [("owner", CEq (VId u))]) d.

(** A like or a comment whose [video] is a video owned by [u]. *)
Definition on_video_of (u : ObjectId) (db : Db) (l : document) : bool :=
  existsb (fun v =>
             owned_by u v
             && match field "video" l, field "_id" v with
                | Some x, Some i => value_matches x i
                | _, _ => false
                end) (videos db).

(* ------------------------------------------------------------------ *)
(** ** Vocabulary of the further properties *)

(** The list under [videos] of the stored playlist [i]. *)
Definition videos_of (i : ObjectId) (db : Db) : option (list value) :=
  match find (matches (byId i)) (playlists db) with
  | Some d =>
      match field "videos" d with
      | Some (VArr ids) => Some ids
      | _ => None
      end
  | None => None
  end.

(** [k] fetches of the same video, one after the other. *)
Fixpoint fetch_times (k : nat) (i : ObjectId) (db : Db) : Db :=
  match k with
  | 0 => db
  | S k' => fetch_times k' i (snd (getVideoById (GoodId i) db))
  end.

(** The fields [publishAVideo] creates a video with. *)
Definition published_fields (caller : ObjectId) (title description videoUrl
                             thumbnailUrl : string) (duration : option Z)
  : document :=
  [("videoFile", VStr videoUrl);
   ("thumbnail", VStr thumbnailUrl);
   ("title", VStr title);
   ("description", VStr description);
   ("duration", VNum (match duration with Some n => n | None => 0%Z end));
   ("owner", VId caller);
   ("isPublished", VBool true)].

(** The three handlers that delete an entity. *)
Definition is_delete (mu : mutation) : bool :=
  match mu with
  | DeleteVideo _ | DeleteTweet _ | DeletePlaylist _ => true
  | _ => false
  end.

(** The string of an optional request field, empty when it is absent. *)
Definition given (s : option string) : string :=
  match s with
  | Some x => x
  | None => ""
  end.

(** The videos the feed lists for a request: published, of the user the
    request names by a valid id, and with a match of the pattern of the
    request, when it has one, in the title or in the description. *)
Definition in_feed (q : VideoQuery) (d : document) : bool :=
  matches (Fields [("isPublished", CEq (VBool true))]) d
  && match q_userId q with
     | Some u =>
         if isValidObjectId u then matches (Fields [("owner", CEq (cast u))]) d
         else true
     | None => true
     end
  && match q_query q with
     | Some text =>
         if truthy (Some (raw_text text))
         then cond_holds (CRegexI text) (field "title" d)
              || cond_holds (CRegexI text) (field "description" d)
         else true
     | None => true
     end.

(** The handler of each read view, its payload dropped. *)
Definition run_view (v : view) (pg lim : option Z) (db : Db)
  : option ApiError * Db :=
  match v with
  | Feed q => outcome (getAllVideos q db)
  | VideoById i => outcome (getVideoById i db)
  | ChannelVideos u status => outcome (getChannelVideos u pg lim (Some status) db)
  | UserTweets u => outcome (getUserTweets u pg lim db)
  | LikedVideos c => outcome (getLikedVideos c pg lim db)
  | UserPlaylists u => outcome (getUserPlaylists u pg lim db)
  | PlaylistById i => outcome (getPlaylistById i db)
  | Subscribers c => outcome (getUserChannelSubscribers c pg lim db)
  | SubscribedChannels s => outcome (getSubscribedChannels s pg lim db)
  end.




(** The creation time of a document, and documents that carry one. *)
Definition created (d : document) : Z := num_of (field "createdAt" d).

Definition dated (d : document) : Prop :=
  exists n, field "createdAt" d = Some (VNum n).

(** Newest first. *)
Fixpoint newest_first (ds : list document) : Prop :=
  match ds with
  | [] => True
  | d :: rest =>
      Forall (fun b => (created b <= created d)%Z) rest /\ newest_first rest
  end.







(** A document whose [video] is absent or a single id. *)
Definition video_is_id (d : document) : Prop :=
  field "video" d = None \/ exists i, field "video" d = Some (VId i).

(** A like that carries no [video]. *)
Definition not_on_video (d : document) : Prop := field "video" d = None.

(** The statistics [getChannelStats] computes for a user. *)
Definition stats_of (u : ObjectId) (db : Db) : option ChannelStats :=
  match fst (getChannelStats u db) with
  | inr r => Some (data r)
  | inl _ => None
  end.

(** The entries of the list of the videos of a channel, over all pages. *)
Definition channel_entries (u : ObjectId) (db : Db) : list document :=
  run_pipeline (from_collection db) (channelVideos_pipeline u "all") (videos db).

(** The documents of [from_] that the join on [_id] = [video] attaches
    to the video [v]. *)
Definition joined (from_ : list document) (v : document) : list document :=
  filter (fun e => joins (field "_id" v) (field "video" e)) from_.

(** What the stages after the match make of the video [v]. *)
Definition channel_entry (db : Db) (v : document) : document :=
  project [("likes", false); ("comments", false)]
    (add_fields [("likeCount", ESize "likes"); ("commentCount", ESize "comments")]
       (set_field "comments" (VArr (map VDoc (joined (comments db) v)))
          (set_field "likes" (VArr (map VDoc (joined (likes db) v))) v))).

(* ================================================================== *)
(** * Properties *)

Section Collections.

Variables p q : document -> bool.

Lemma count_app ds ds' : count p (ds ++ ds') = count p ds + count p ds'.
Proof. unfold count. now rewrite filter_app, length_app. Qed.

Lemma find_none_count ds : find p ds = None <-> count p ds = 0.
Proof.
  unfold count. induction ds as [|d ds IH]; simpl; [tauto|].
  destruct (p d); simpl; [split; discriminate | exact IH].
Qed.

Lemma find_some_count ds d : find p ds = Some d -> 1 <= count p ds.
Proof.
  intros H. destruct (count p ds) eqn:E; [|lia].
  apply find_none_count in E. congruence.
Qed.

Lemma existsb_count ds : existsb p ds = negb (count p ds =? 0).
Proof.
  unfold count. induction ds as [|d ds IH]; simpl; [reflexivity|].
  destruct (p d); simpl; [reflexivity | exact IH].
Qed.

Lemma count_remove_first_same ds :
  count p (remove_first p ds) = pred (count p ds).
Proof.
  unfold count. induction ds as [|d ds IH]; simpl; [reflexivity|].
  destruct (p d) eqn:E; simpl; [reflexivity|]. now rewrite E.
Qed.

Lemma count_remove_first_le ds :
  count q (remove_first p ds) <= count q ds.
Proof.
  unfold count. induction ds as [|d ds IH]; simpl; [lia|].
  destruct (p d); simpl; destruct (q d); simpl; lia.
Qed.

Lemma remove_first_none ds : find p ds = None -> remove_first p ds = ds.
Proof.
  induction ds as [|d ds IH]; simpl; [reflexivity|].
  destruct (p d); [discriminate|]. intros H. now rewrite IH.
Qed.

(** Removal takes out exactly the document [find] returns. *)
Lemma remove_first_split ds d :
  find p ds = Some d ->
  exists l1 l2, ds = l1 ++ d :: l2 /\ remove_first p ds = l1 ++ l2.
Proof.
  induction ds as [|x ds IH]; simpl; [discriminate|].
  destruct (p x) eqn:E; intros H.
  - injection H as ->. now exists [], ds.
  - destruct (IH H) as (l1 & l2 & -> & Hr).
    exists (x :: l1), l2. simpl. now rewrite Hr.
Qed.

End Collections.

Lemma value_eqb_VId (i j : ObjectId) : value_eqb (VId i) (VId j) = (i =? j)%nat.
Proof. reflexivity. Qed.

Lemma matches_byId_iff (d : document) (i : ObjectId) :
  has_id d ->
  (matches (Fields [("_id", CEq (VId i))]) d = true <-> field "_id" d = Some (VId i)).
Proof.
  intros [j Hj]. unfold matches, fields_hold. simpl. rewrite Hj.
  unfold value_matches. rewrite value_eqb_VId, orb_false_r, andb_true_r.
  rewrite Nat.eqb_eq. split; congruence.
Qed.

Lemma wf_coll_tail d ds : wf_coll (d :: ds) -> wf_coll ds.
Proof.
  intros [Hf Hn]. inversion Hf; inversion Hn; subst. now split.
Qed.

(** With unique identifiers, deleting by the [_id] of the document a query
    found deletes the document the query found. *)
Lemma delete_found (p : document -> bool) (ds : list document) (d : document) :
  wf_coll ds ->
  find p ds = Some d ->
  remove_first (matches (Fields [("_id", CEq (id_of d))])) ds = remove_first p ds
  /\ find (matches (Fields [("_id", CEq (id_of d))])) ds <> None.
Proof.
  induction ds as [|x ds IH]; cbn [find remove_first]; [discriminate|].
  intros Hwf Hfind.
  assert (Hx : has_id x) by (destruct Hwf as [Hf _]; now inversion Hf).
  destruct (p x) eqn:E.
  - injection Hfind as <-. destruct Hx as [i Hi].
    unfold id_of. rewrite Hi.
    assert (Hm : matches (Fields [("_id", CEq (VId i))]) x = true)
      by (apply matches_byId_iff; [now exists i | exact Hi]).
    rewrite Hm. split; [reflexivity | discriminate].
  - assert (Hin : In d ds) by (apply find_some in Hfind; tauto).
    assert (Hd : has_id d).
    { destruct Hwf as [Hf _]. inversion Hf as [|? ? _ Hf']; subst.
      rewrite Forall_forall in Hf'. now apply Hf'. }
    destruct Hd as [i Hi]. unfold id_of in *. rewrite Hi in *.
    assert (Hm : matches (Fields [("_id", CEq (VId i))]) x = false).
    { destruct (matches (Fields [("_id", CEq (VId i))]) x) eqn:Em; [|reflexivity].
      apply matches_byId_iff in Em; [|exact Hx].
      destruct Hwf as [_ Hn]. inversion Hn as [|? ? Hnotin _]; subst.
      exfalso. apply Hnotin. rewrite Em, <- Hi. now apply in_map. }
    rewrite Hm.
    destruct (IH (wf_coll_tail _ _ Hwf) Hfind) as [Hr Hf].
    split; [now rewrite Hr | exact Hf].
Qed.

Lemma wf_coll_remove_first (p : document -> bool) ds :
  wf_coll ds -> wf_coll (remove_first p ds).
Proof.
  induction ds as [|x ds IH]; simpl; [tauto|].
  intros Hwf. destruct (p x); [now apply wf_coll_tail in Hwf|].
  pose proof (IH (wf_coll_tail _ _ Hwf)) as [Hf' Hn'].
  destruct Hwf as [Hf Hn]. inversion Hf; inversion Hn; subst.
  split; [now constructor|]. simpl. constructor; [|exact Hn'].
  intros Hin. apply H5. clear - Hin.
  induction ds as [|y ds IH]; simpl in *; [tauto|].
  destruct (p y); simpl in *; tauto.
Qed.

Lemma fresh_id_above ds d i :
  In d ds -> field "_id" d = Some (VId i) -> i < fresh_id ds.
Proof.
  intros Hin Hi. unfold fresh_id.
  assert (H : i <= list_max (map (fun d => match oid d with
                                            | Some i => i
                                            | None => 0
                                            end) ds)).
  { induction ds as [|x ds IH]; simpl in *; [tauto|].
    destruct Hin as [->|Hin].
    - unfold oid. rewrite Hi. lia.
    - specialize (IH Hin). lia. }
  lia.
Qed.

Lemma wf_coll_create ds fields ts :
  wf_coll ds ->
  wf_coll (ds ++ [("_id", VId (fresh_id ds)) :: fields ++ [("createdAt", ts)]]).
Proof.
  intros [Hf Hn]. split.
  - apply Forall_app. split; [exact Hf|]. constructor; [|constructor].
    now exists (fresh_id ds).
  - rewrite map_app. simpl.
    apply NoDup_app; [exact Hn | constructor; [simpl; tauto | constructor] |].
    intros v Hin [<-|[]].
    apply in_map_iff in Hin. destruct Hin as (d & Hd & Hin).
    pose proof (fresh_id_above ds d (fresh_id ds) Hin Hd). lia.
Qed.

Lemma coll_with_coll_same m ds db : coll m (with_coll m ds db) = ds.
Proof. now destruct m. Qed.

Lemma coll_with_coll_other m m' ds db :
  m' <> m -> coll m' (with_coll m ds db) = coll m' db.
Proof. destruct m, m'; simpl; congruence. Qed.

Lemma coll_tick m db : coll m (tick db) = coll m db.
Proof. now destruct m. Qed.

Lemma Model_eq_dec (m m' : Model) : {m = m'} + {m <> m'}.
Proof. decide equality. Defined.

(** Past its guards every handler is the shared core. *)
Lemma run_toggle_valid t caller target db :
  valid_triple t caller target db = true ->
  run_toggle t caller (GoodId target) db
  = toggle_core (edge_model t) (edge_query t caller target)
      (edge_fields t caller target) (response_off t) (response_on t) db.
Proof.
  unfold valid_triple. intros H. apply andb_prop in H. destruct H as [Hf Hs].
  destruct t; cbn [run_toggle target_model coll] in *;
    unfold toggleSubscription, toggleVideoLike, toggleCommentLike, toggleTweetLike,
      toggle_core, bind, throw_if, findById, findOne, ret, throw, is_caller;
    cbn [isValidObjectId negb cast coll];
    destruct (find _ _); try discriminate;
    try (destruct (target =? caller); [discriminate|]);
    cbn [edge_model edge_query edge_fields response_off response_on coll];
    destruct (find _ _); reflexivity.
Qed.

(** Short of its guards a handler throws and writes nothing. *)
Lemma run_toggle_cases t caller target db :
  (exists e, run_toggle t caller target db = (inl e, db))
  \/ (exists i,
        isValidObjectId target = true /\ cast target = VId i
        /\ run_toggle t caller target db
           = toggle_core (edge_model t) (edge_query t caller i)
               (edge_fields t caller i) (response_off t) (response_on t) db).
Proof.
  destruct target as [raw|i|i].
  - left. destruct t; eexists; reflexivity.
  - destruct (valid_triple t caller i db) eqn:E.
    { right. exists i. repeat split. now apply run_toggle_valid. }
    left. unfold valid_triple in E.
    destruct t; cbn [run_toggle target_model coll] in *;
      unfold toggleSubscription, toggleVideoLike, toggleCommentLike, toggleTweetLike,
        bind, throw_if, findById, findOne, ret, throw, is_caller;
      cbn [isValidObjectId negb cast coll];
      destruct (find _ _); cbn in E |- *;
      try (destruct (i =? caller); cbn in E |- *);
      try discriminate; eexists; reflexivity.
  - destruct (find (matches (Fields [("_id", CEq (VId i))]))
                   (coll (target_model t) db)) eqn:E.
    + right. exists i. repeat split.
      destruct t; cbn [run_toggle target_model coll] in *;
        unfold toggleSubscription, toggleVideoLike, toggleCommentLike,
          toggleTweetLike, toggle_core, bind, throw_if, findById, findOne, ret,
          throw, is_caller;
        cbn [isValidObjectId negb cast coll]; rewrite E;
        cbn [edge_model edge_query edge_fields response_off response_on coll];
        destruct (find _ _); reflexivity.
    + left.
      destruct t; cbn [run_toggle target_model coll] in *;
        unfold toggleSubscription, toggleVideoLike, toggleCommentLike,
          toggleTweetLike, bind, throw_if, findById, findOne, ret, throw;
        cbn [isValidObjectId negb cast coll]; rewrite E;
        eexists; reflexivity.
Qed.

Lemma toggle_core_absent m q fields off on db :
  find (matches q) (coll m db) = None ->
  toggle_core m q fields off on db
  = (inr on, tick (with_coll m (coll m db ++ [new_doc m fields db]) db)).
Proof.
  intros H. unfold toggle_core, bind, findOne, create, new_doc, ret.
  rewrite H. reflexivity.
Qed.

Lemma toggle_core_present m q fields off on db e :
  find (matches q) (coll m db) = Some e ->
  toggle_core m q fields off on db
  = (inr off, snd (findByIdAndDelete m (id_of e) db)).
Proof.
  intros H. unfold toggle_core, bind, findOne. rewrite H.
  unfold findByIdAndDelete.
  now destruct (find (matches (Fields [("_id", CEq (id_of e))])) (coll m db)).
Qed.

Lemma delete_coll m id db :
  coll m (snd (findByIdAndDelete m id db))
  = remove_first (matches (Fields [("_id", CEq id)])) (coll m db).
Proof.
  unfold findByIdAndDelete.
  destruct (find _ _) eqn:E; cbn [snd].
  - now rewrite coll_with_coll_same.
  - now rewrite remove_first_none.
Qed.

Lemma delete_coll_other m m' id db :
  m' <> m -> coll m' (snd (findByIdAndDelete m id db)) = coll m' db.
Proof.
  intros H. unfold findByIdAndDelete.
  destruct (find _ _); cbn [snd]; [now apply coll_with_coll_other | reflexivity].
Qed.

(** The edge a toggle creates answers to its own triple and to no other. *)
Lemma new_edge_matches t t' s tg s' tg' f ts :
  edge_model t' = edge_model t ->
  matches (edge_query t' s' tg')
          (("_id", VId f) :: edge_fields t s tg ++ [("createdAt", ts)]) = true ->
  t' = t /\ s' = s /\ tg' = tg.
Proof.
  destruct t, t'; cbn; try discriminate; intros _ H;
    unfold value_matches in H; cbn in H;
    rewrite ?orb_false_r, ?andb_true_r in H;
    apply andb_prop in H; destruct H as [H1 H2];
    apply Nat.eqb_eq in H1, H2; subst; auto.
Qed.

Lemma new_edge_matches_self t s tg f ts :
  matches (edge_query t s tg)
          (("_id", VId f) :: edge_fields t s tg ++ [("createdAt", ts)]) = true.
Proof.
  destruct t; cbn; unfold value_matches; cbn; now rewrite !Nat.eqb_refl.
Qed.

Lemma target_not_edge t : target_model t <> edge_model t.
Proof. destruct t; discriminate. Qed.

(** C2. In a store with at most one edge per (source, target, kind), each
    of the four toggles (subscription, video like, comment like, tweet
    like), whatever its caller and parameter, leaves a store with at most
    one edge per triple; the collection of its edges is left as it was, or
    with one document appended, or with one document taken out, so that no
    stored edge is ever rewritten; and no other collection is written. *)
Theorem toggles_preserve_unique_edges t caller target db :
  unique_edges db ->
  let db' := snd (run_toggle t caller target db) in
  unique_edges db'
  /\ edges_step (coll (edge_model t) db) (coll (edge_model t) db')
  /\ (forall m, m <> edge_model t -> coll m db' = coll m db).
Proof.
  intros Huniq db'. subst db'.
  destruct (run_toggle_cases t caller target db) as [[e He]|(i & _ & _ & Hrun)].
  { rewrite He. cbn [snd]. repeat split; auto. now left. }
  rewrite Hrun.
  destruct (find (matches (edge_query t caller i)) (coll (edge_model t) db))
    as [e|] eqn:Hfind.
  - rewrite (toggle_core_present _ _ _ _ _ _ _ Hfind). cbn [snd].
    split; [|split].
    + intros t' s' tg'. unfold edge_count.
      destruct (Model_eq_dec (edge_model t') (edge_model t)) as [Em|Em].
      * rewrite Em, delete_coll.
        eapply Nat.le_trans; [apply count_remove_first_le|].
        rewrite <- Em. apply Huniq.
      * rewrite delete_coll_other by exact Em. apply Huniq.
    + rewrite delete_coll.
      destruct (find (matches (Fields [("_id", CEq (id_of e))]))
                     (coll (edge_model t) db)) as [d|] eqn:Hd.
      * right; right. destruct (remove_first_split _ _ _ Hd) as (l1 & l2 & H1 & H2).
        now exists l1, d, l2.
      * left. now apply remove_first_none.
    + intros m Hm. now apply delete_coll_other.
  - rewrite (toggle_core_absent _ _ _ _ _ _ Hfind). cbn [snd].
    split; [|split].
    + intros t' s' tg'. unfold edge_count. rewrite coll_tick.
      destruct (Model_eq_dec (edge_model t') (edge_model t)) as [Em|Em].
      * rewrite Em, coll_with_coll_same, count_app.
        destruct (matches (edge_query t' s' tg')
                          (new_doc (edge_model t) (edge_fields t caller i) db)) eqn:Hm.
        -- apply new_edge_matches in Hm; [|exact Em].
           destruct Hm as (-> & -> & ->).
           apply find_none_count in Hfind. rewrite Hfind.
           unfold count. cbn [filter]. destruct (matches _ _); simpl; lia.
        -- unfold count at 2. cbn [filter]. rewrite Hm. cbn [List.length].
           rewrite Nat.add_0_r, <- Em. apply Huniq.
      * rewrite coll_with_coll_other by exact Em. apply Huniq.
    + rewrite coll_tick, coll_with_coll_same. right; left. eauto.
    + intros m Hm. rewrite coll_tick. now apply coll_with_coll_other.
Qed.

Lemma valid_triple_ext t s tg db db' :
  coll (target_model t) db' = coll (target_model t) db ->
  valid_triple t s tg db' = valid_triple t s tg db.
Proof. unfold valid_triple. now intros ->. Qed.

Lemma present_count t s tg db :
  present t s tg db = negb (edge_count t s tg db =? 0).
Proof. apply existsb_count. Qed.

(** One toggle of a valid triple, in a store whose edge collection has
    unique identifiers and at most one edge for the triple. *)
Lemma toggle_step t caller target db :
  valid_triple t caller target db = true ->
  wf_coll (coll (edge_model t) db) ->
  edge_count t caller target db <= 1 ->
  let r := run_toggle t caller (GoodId target) db in
  let q := edge_query t caller target in
  let before := coll (edge_model t) db in
  let after := coll (edge_model t) (snd r) in
  valid_triple t caller target (snd r) = true
  /\ wf_coll after
  /\ edge_count t caller target (snd r) <= 1
  /\ present t caller target (snd r) = negb (present t caller target db)
  /\ (present t caller target db = true ->
      fst r = inr (response_off t)
      /\ exists l1 e l2,
          before = l1 ++ e :: l2 /\ matches q e = true /\ after = l1 ++ l2)
  /\ (present t caller target db = false ->
      fst r = inr (response_on t)
      /\ exists e, matches q e = true /\ after = before ++ [e]).
Proof.
  intros Hv Hwf Hone r q before after. subst r q before after.
  rewrite (run_toggle_valid _ _ _ _ Hv).
  rewrite !present_count. unfold edge_count in *.
  destruct (find (matches (edge_query t caller target)) (coll (edge_model t) db))
    as [e|] eqn:Hfind.
  - rewrite (toggle_core_present _ _ _ _ _ _ _ Hfind). cbn [fst snd].
    pose proof (find_some_count _ _ _ Hfind) as Hge.
    destruct (delete_found _ _ _ Hwf Hfind) as [Hdel _].
    rewrite delete_coll, Hdel, count_remove_first_same.
    assert (Hc : count (matches (edge_query t caller target))
                       (coll (edge_model t) db) = 1) by lia.
    rewrite Hc. cbn [pred Nat.eqb negb].
    repeat split.
    + rewrite <- Hv. apply valid_triple_ext.
      apply delete_coll_other, target_not_edge.
    + now apply wf_coll_remove_first.
    + now apply wf_coll_remove_first.
    + lia.
    + destruct (remove_first_split _ _ _ Hfind) as (l1 & l2 & H1 & H2).
      exists l1, e, l2. repeat split; auto.
      now apply find_some in Hfind.
    + discriminate.
    + discriminate.
  - rewrite (toggle_core_absent _ _ _ _ _ _ Hfind). cbn [fst snd].
    rewrite coll_tick, coll_with_coll_same, count_app.
    pose proof (proj1 (find_none_count _ _) Hfind) as Hc. rewrite Hc.
    unfold count at 1 2. unfold new_doc. cbn [filter].
    rewrite new_edge_matches_self. cbn [List.length Nat.add Nat.eqb negb].
    repeat split.
    + rewrite <- Hv. apply valid_triple_ext.
      rewrite coll_tick. apply coll_with_coll_other, target_not_edge.
    + now apply wf_coll_create.
    + now apply wf_coll_create.
    + lia.
    + discriminate.
    + discriminate.
    + eexists. split; [apply new_edge_matches_self | reflexivity].
Qed.

Lemma toggle_times_parity n : forall t caller target db,
  valid_triple t caller target db = true ->
  wf_coll (coll (edge_model t) db) ->
  edge_count t caller target db <= 1 ->
  present t caller target (toggle_times n t caller target db)
  = if Nat.even n then present t caller target db
    else negb (present t caller target db).
Proof.
  induction n as [|n IH]; intros t caller target db Hv Hwf Hone; [reflexivity|].
  cbn [toggle_times].
  destruct (toggle_step t caller target db Hv Hwf Hone)
    as (Hv' & Hwf' & Hone' & Hflip & _).
  rewrite (IH _ _ _ _ Hv' Hwf' Hone'), Hflip.
  rewrite Nat.even_succ, <- Nat.negb_even.
  destruct (Nat.even n); [reflexivity | apply negb_involutive].
Qed.

(** C1. For a valid triple (the target exists and a subscription is not
    to oneself), in a store that keeps identifiers unique and holds at most
    one edge for the triple: after [n] toggles the edge is present as it was
    at the start when [n] is even and the other way round when [n] is odd;
    one toggle answers 200 with the flag set to the new presence; when the
    edge was present it is taken out of the collection and the flag is
    false, when it was absent an edge for the triple is appended and the
    flag is true.  This holds for the subscription toggle and for the three
    like toggles. *)
Theorem toggle_flips_presence t caller target db :
  valid_triple t caller target db = true ->
  wf_coll (coll (edge_model t) db) ->
  edge_count t caller target db <= 1 ->
  (forall n,
      present t caller target (toggle_times n t caller target db)
      = if Nat.even n then present t caller target db
        else negb (present t caller target db))
  /\ let r := run_toggle t caller (GoodId target) db in
     let before := coll (edge_model t) db in
     let after := coll (edge_model t) (snd r) in
     (present t caller target db = true ->
      (exists resp, fst r = inr resp /\ status resp = 200
                    /\ reported t resp = Some (VBool false))
      /\ present t caller target (snd r) = false
      /\ exists l1 e l2,
          before = l1 ++ e :: l2
          /\ matches (edge_query t caller target) e = true
          /\ after = l1 ++ l2)
     /\ (present t caller target db = false ->
         (exists resp, fst r = inr resp /\ status resp = 200
                       /\ reported t resp = Some (VBool true))
         /\ present t caller target (snd r) = true
         /\ exists e,
             matches (edge_query t caller target) e = true
             /\ after = before ++ [e]).
Proof.
  intros Hv Hwf Hone. split.
  - intros n. now apply toggle_times_parity.
  - destruct (toggle_step t caller target db Hv Hwf Hone)
      as (_ & _ & _ & Hflip & Hon & Hoff).
    cbv zeta in *. split; intros Hp.
    + destruct (Hon Hp) as [Hr Hsplit]. split; [|split].
      * exists (response_off t). repeat split; [exact Hr | | ]; now destruct t.
      * now rewrite Hflip, Hp.
      * exact Hsplit.
    + destruct (Hoff Hp) as [Hr Hnew]. split; [|split].
      * exists (response_on t). repeat split; [exact Hr | | ]; now destruct t.
      * now rewrite Hflip, Hp.
      * exact Hnew.
Qed.

Lemma mem_id_In i l : mem_id i l = true <-> In i l.
Proof.
  induction l as [|j l IH]; simpl; [split; [discriminate | tauto]|].
  rewrite orb_true_iff, Nat.eqb_eq, IH. split; intros [H|H]; auto.
Qed.

Lemma wf_ids_sound ds : forall seen,
  wf_ids ds seen = true ->
  Forall has_id ds
  /\ NoDup (map (field "_id") ds)
  /\ (forall i, In i seen -> ~ In (Some (VId i)) (map (field "_id") ds)).
Proof.
  induction ds as [|d ds IH]; intros seen H; simpl in *.
  - repeat split; [constructor | constructor | tauto].
  - unfold oid in H. destruct (field "_id" d) as [[| | | |i| |]|] eqn:Hd;
      try discriminate.
    apply andb_prop in H. destruct H as [Hs Hrest].
    destruct (IH _ Hrest) as (Hf & Hn & Hseen).
    repeat split.
    + constructor; [now exists i | exact Hf].
    + constructor; [|exact Hn]. apply Hseen. now left.
    + intros j Hj [Heq|Hin].
      * injection Heq as <-. apply negb_true_iff in Hs.
        apply mem_id_In in Hj. congruence.
      * apply (Hseen j); [now right | exact Hin].
Qed.

Lemma wf_collb_sound ds : wf_collb ds = true -> wf_coll ds.
Proof.
  intros H. destruct (wf_ids_sound ds [] H) as (Hf & Hn & _). now split.
Qed.

(** A video like toggled on the sample store, where [bob] has liked
    video 10: present after two toggles, absent after three. *)
Lemma toggle_flips_presence_witness :
  present VideoLikeToggle bob 10 (toggle_times 2 VideoLikeToggle bob 10 sampleDb) = true
  /\ present VideoLikeToggle bob 10 (toggle_times 3 VideoLikeToggle bob 10 sampleDb) = false.
Proof.
  assert (Hv : valid_triple VideoLikeToggle bob 10 sampleDb = true) by reflexivity.
  assert (Hwf : wf_coll (coll (edge_model VideoLikeToggle) sampleDb))
    by (apply wf_collb_sound; reflexivity).
  assert (Hone : edge_count VideoLikeToggle bob 10 sampleDb <= 1)
    by (vm_compute; lia).
  destruct (toggle_flips_presence VideoLikeToggle bob 10 sampleDb Hv Hwf Hone)
    as [Hparity _].
  split; [exact (Hparity 2) | exact (Hparity 3)].
Defined.

(** The sample store holds one edge per triple at most, and stays so when
    [alice] toggles her subscription to [bob]. *)
Lemma sampleDb_unique_edges : unique_edges sampleDb.
Proof.
  intros t s tg. unfold edge_count, count.
  destruct t; cbn [edge_model coll sampleDb subscriptions likes filter];
    match goal with
    | |- context [if ?c then _ else _] => destruct c
    end; simpl; lia.
Qed.

Lemma toggles_preserve_unique_edges_witness :
  edge_count SubscriptionToggle alice bob
    (snd (run_toggle SubscriptionToggle alice (GoodId bob) sampleDb)) <= 1
  /\ edge_count SubscriptionToggle bob alice
       (snd (run_toggle SubscriptionToggle alice (GoodId bob) sampleDb)) <= 1.
Proof.
  destruct (toggles_preserve_unique_edges SubscriptionToggle alice (GoodId bob)
              sampleDb sampleDb_unique_edges) as [Huniq _].
  split; apply Huniq.
Defined.

Example toggle_twice_on_sample :
  fst (run_toggle VideoLikeToggle bob (GoodId 10) sampleDb)
  = inr (mkApiResponse 200 [("isLiked", VBool false)] "Video unliked successfully")
  /\ likes (toggle_times 1 VideoLikeToggle bob 10 sampleDb) = []
  /\ likes (toggle_times 2 VideoLikeToggle bob 10 sampleDb)
     = [[("_id", VId 1); ("video", VId 10); ("likedBy", VId bob);
         ("createdAt", VNum 7)]].
Proof. repeat split. Qed.

(* ------------------------------------------------------------------ *)
(** ** Deleting a video *)

Lemma count_byId_absent ds i :
  Forall has_id ds ->
  ~ In (Some (VId i)) (map (field "_id") ds) ->
  count (matches (byId i)) ds = 0.
Proof.
  unfold count, byId. induction ds as [|d ds IH]; intros Hf Hn; [reflexivity|].
  inversion Hf as [|? ? Hd Hf']; subst. cbn [filter].
  destruct (matches (Fields [("_id", CEq (VId i))]) d) eqn:E.
  - apply matches_byId_iff in E; [|exact Hd].
    exfalso. apply Hn. left. exact E.
  - apply IH; [exact Hf'|]. intros Hin. apply Hn. now right.
Qed.

Lemma count_byId_le_one ds i : wf_coll ds -> count (matches (byId i)) ds <= 1.
Proof.
  induction ds as [|d ds IH]; intros Hwf; [unfold count; simpl; lia|].
  pose proof (IH (wf_coll_tail _ _ Hwf)) as IH'.
  destruct Hwf as [Hf Hn]. inversion Hf as [|? ? Hd Hf']; subst.
  inversion Hn as [|? ? Hnotin Hn']; subst.
  unfold count in *. cbn [filter]. unfold byId in *.
  destruct (matches (Fields [("_id", CEq (VId i))]) d) eqn:E; [|exact IH'].
  apply matches_byId_iff in E; [|exact Hd]. rewrite E in Hnotin.
  pose proof (count_byId_absent ds i Hf' Hnotin) as H0.
  unfold count, byId in H0. cbn [List.length]. rewrite H0. lia.
Qed.

(** What a successful [deleteVideo] does to the store. *)
Lemma deleteVideo_effect caller v db :
  succeeds (deleteVideo caller (GoodId v) db) ->
  snd (deleteVideo caller (GoodId v) db)
  = snd (findByIdAndDelete Video (VId v) db).
Proof.
  unfold succeeds, deleteVideo, bind, throw_if, findById, findOne, owner_differs,
    ret, throw.
  cbn [isValidObjectId negb cast coll].
  destruct (find _ _) as [d|]; [|intros [a Ha]; discriminate].
  destruct (field "owner" d) as [[| | | |o| |]|];
    try (intros [a Ha]; discriminate).
  destruct (o =? caller); cbn [negb]; [|intros [a Ha]; discriminate].
  intros _. now destruct (findByIdAndDelete Video (VId v) db) as [[e|r] db'].
Qed.

(** C3, as the code has it.  A successful delete of a video takes the video
    document out of the video collection (with unique identifiers no video
    with that id is left) and writes to no other collection: the likes on
    the video and the playlists that list it are left exactly as they were. *)
Theorem deleteVideo_removes_only_the_video caller v db :
  wf_coll (videos db) ->
  succeeds (deleteVideo caller (GoodId v) db) ->
  let db' := snd (deleteVideo caller (GoodId v) db) in
  videos db' = remove_first (matches (byId v)) (videos db)
  /\ find (matches (byId v)) (videos db') = None
  /\ likes db' = likes db
  /\ playlists db' = playlists db
  /\ (forall m, m <> Video -> coll m db' = coll m db).
Proof.
  intros Hwf Hok db'. subst db'. rewrite (deleteVideo_effect _ _ _ Hok).
  pose proof (delete_coll Video (VId v) db) as Hv. cbn [coll] in Hv.
  split; [exact Hv|]. split; [|repeat split].
  - rewrite Hv. apply find_none_count. rewrite count_remove_first_same.
    pose proof (count_byId_le_one (videos db) v Hwf). unfold byId in *. lia.
  - apply (delete_coll_other Video Like). discriminate.
  - apply (delete_coll_other Video Playlist). discriminate.
  - intros m Hm. now apply delete_coll_other.
Qed.

Lemma deleteVideo_removes_only_the_video_witness :
  likes (snd (deleteVideo alice (GoodId 10) sampleDb)) = likes sampleDb
  /\ playlists (snd (deleteVideo alice (GoodId 10) sampleDb)) = playlists sampleDb.
Proof.
  pose proof (deleteVideo_removes_only_the_video alice 10 sampleDb) as H.
  cbv zeta in H.
  assert (Hwf : wf_coll (videos sampleDb)) by (apply wf_collb_sound; reflexivity).
  assert (Hok : succeeds (deleteVideo alice (GoodId 10) sampleDb))
    by (eexists; reflexivity).
  destruct (H Hwf Hok) as (_ & _ & Hl & Hp & _). split; assumption.
Defined.

(** C3 fails on the sample store: [alice] deletes her video 10, the delete
    succeeds, and afterwards the like of [bob] on video 10 is still stored
    and playlist 20 still lists video 10. *)
Lemma deleteVideo_leaves_likes_and_memberships :
  succeeds (deleteVideo alice (GoodId 10) sampleDb)
  /\ videos (snd (deleteVideo alice (GoodId 10) sampleDb)) = []
  /\ existsb (matches (Fields [("video", CEq (VId 10))]))
             (likes (snd (deleteVideo alice (GoodId 10) sampleDb))) = true
  /\ existsb (fun p => includes p "videos" (VId 10))
             (playlists (snd (deleteVideo alice (GoodId 10) sampleDb))) = true.
Proof.
  split; [eexists; reflexivity | repeat split].
Qed.

(* ------------------------------------------------------------------ *)
(** ** Pagination *)

(** The feed on a request the engine accepts, and on one it refuses. *)
Lemma getAllVideos_accepted q db :
  refused_by_engine q = false ->
  getAllVideos q db
  = (inr (mkApiResponse 200
            (paginate (run_pipeline (from_collection db) (getAllVideos_pipeline q)
                                    (videos db))
                      (getAllVideos_options q))
            "Videos fetched successfully"), db).
Proof.
  intros H. unfold getAllVideos, bind, throw_if, aggregatePaginate, ret.
  rewrite H. reflexivity.
Qed.

Lemma getAllVideos_refused q db :
  refused_by_engine q = true ->
  getAllVideos q db = (inl (mkApiError 500 "The pipeline is refused"), db).
Proof.
  intros H. unfold getAllVideos, bind, throw_if, throw. rewrite H. reflexivity.
Qed.

Lemma ceil_div_bounds (total lim : Z) :
  (1 <= lim)%Z -> (0 <= total)%Z ->
  (total <= ceil_div total lim * lim
   /\ ceil_div total lim * lim < total + lim)%Z.
Proof.
  intros Hl Ht. unfold ceil_div.
  pose proof (Z.div_mod (total + lim - 1) lim ltac:(lia)) as Hdm.
  pose proof (Z.mod_pos_bound (total + lim - 1) lim ltac:(lia)) as Hm.
  nia.
Qed.


Lemma paginate_beyond results pg lim :
  (1 <= lim)%Z -> (1 <= pg)%Z ->
  (totalPages (paginate results (mkPageRequest pg lim)) < pg)%Z ->
  items (paginate results (mkPageRequest pg lim)) = [].
Proof.
  intros Hl Hp Hlt. unfold paginate in *. cbn [items totalPages page limit] in *.
  destruct (ceil_div_bounds (Z.of_nat (List.length results)) lim Hl ltac:(lia))
    as [Hup _].
  rewrite skipn_all2; [now destruct (Z.to_nat lim)|].
  apply Nat2Z.inj_le. rewrite Z2Nat.id by nia. nia.
Qed.

Lemma aggregatePaginate_beyond m p pg lim db :
  (1 <= lim)%Z -> (1 <= pg)%Z ->
  (ceil_div (Z.of_nat (List.length (run_pipeline (from_collection db) p (coll m db))))
            lim < pg)%Z ->
  aggregatePaginate m p (mkPageRequest pg lim) db
  = (inr {| items := [];
            totalItems :=
              Z.of_nat (List.length (run_pipeline (from_collection db) p (coll m db)));
            totalPages :=
              ceil_div
                (Z.of_nat (List.length (run_pipeline (from_collection db) p (coll m db))))
                lim;
            resultPage := pg; resultLimit := lim |}, db).
Proof.
  intros Hl Hp Hlt.
  set (results := run_pipeline (from_collection db) p (coll m db)) in *.
  unfold aggregatePaginate. fold results.
  pose proof (paginate_beyond results pg lim Hl Hp Hlt) as Hitems.
  f_equal. unfold paginate in *. cbn [items page limit] in *.
  now rewrite Hitems.
Qed.



(** The feed and the tweet list hand their pipeline to the pagination as
    it is, so a page beyond the last one is an empty 200 answer there too. *)
Lemma getAllVideos_page_beyond_last q db :
  refused_by_engine q = false ->
  (1 <= limit (getAllVideos_options q))%Z ->
  (1 <= page (getAllVideos_options q))%Z ->
  (ceil_div (Z.of_nat (List.length
               (run_pipeline (from_collection db) (getAllVideos_pipeline q) (videos db))))
            (limit (getAllVideos_options q)) < page (getAllVideos_options q))%Z ->
  exists r, getAllVideos q db = (inr r, db)
            /\ status r = 200
            /\ items (data r) = []
            /\ totalItems (data r)
               = Z.of_nat (List.length
                   (run_pipeline (from_collection db) (getAllVideos_pipeline q) (videos db)))
            /\ totalPages (data r)
               = ceil_div (totalItems (data r)) (limit (getAllVideos_options q))
            /\ resultPage (data r) = page (getAllVideos_options q)
            /\ resultLimit (data r) = limit (getAllVideos_options q).
Proof.
  intros Hok Hl Hp Hlt. rewrite (getAllVideos_accepted q db Hok).
  destruct (getAllVideos_options q) as [pg lim]. cbn [page limit] in *.
  eexists. split; [reflexivity|]. cbn [status data].
  split; [reflexivity|]. split; [now apply paginate_beyond|].
  repeat split.
Qed.

Lemma getUserTweets_page_beyond_last u pg lim db :
  find (matches (byId u)) (users db) <> None ->
  (1 <= lim)%Z -> (1 <= pg)%Z ->
  (ceil_div (Z.of_nat (List.length
               (run_pipeline (from_collection db) (userTweets_pipeline (GoodId u))
                             (tweets db)))) lim < pg)%Z ->
  exists r, getUserTweets (GoodId u) (Some pg) (Some lim) db = (inr r, db)
            /\ status r = 200
            /\ items (data r) = []
            /\ totalItems (data r)
               = Z.of_nat (List.length
                   (run_pipeline (from_collection db) (userTweets_pipeline (GoodId u))
                                 (tweets db)))
            /\ totalPages (data r) = ceil_div (totalItems (data r)) lim
            /\ resultPage (data r) = pg
            /\ resultLimit (data r) = lim.
Proof.
  intros Hu Hl Hp Hlt.
  pose proof (aggregatePaginate_beyond Tweet (userTweets_pipeline (GoodId u)) pg lim db
                Hl Hp Hlt) as Heq.
  unfold getUserTweets, bind, throw_if, findById, findOne, ret, throw.
  cbn [isValidObjectId negb cast coll parseInt]. unfold byId in Hu.
  destruct (find _ (users db)); [|congruence].
  rewrite Heq. eexists. split; [reflexivity|]. cbn. repeat split.
Qed.

(** Three pages of ten over 25 videos: page 3 holds the last five, page 4
    none. *)
Example feed_of_25 :
  (exists r, getAllVideos (feedQuery (Some 3%Z) (Some 10%Z)) (feedDb 25) = (inr r, feedDb 25)
             /\ List.length (items (data r)) = 5
             /\ totalPages (data r) = 3%Z)
  /\ (exists r, getAllVideos (feedQuery (Some 4%Z) (Some 10%Z)) (feedDb 25) = (inr r, feedDb 25)
                /\ items (data r) = []
                /\ totalPages (data r) = 3%Z).
Proof.
  split; eexists; (split; [vm_compute; reflexivity | split; reflexivity]).
Qed.

(* ------------------------------------------------------------------ *)
(** ** The limit of a page *)

Lemma insert_by_length le d ds :
  List.length (insert_by le d ds) = S (List.length ds).
Proof.
  induction ds as [|x ds IH]; simpl; [reflexivity|].
  destruct (le d x); simpl; [reflexivity | now rewrite IH].
Qed.

Lemma sort_by_length key dir ds : List.length (sort_by key dir ds) = List.length ds.
Proof.
  unfold sort_by. induction ds as [|d ds IH]; simpl; [reflexivity|].
  now rewrite insert_by_length, IH.
Qed.







(* ------------------------------------------------------------------ *)
(** ** The order of the stages *)

Lemma sortStage_is_sort sortBy sortType :
  exists key dir, sortStage sortBy sortType = Sort key dir.
Proof.
  unfold sortStage. destruct sortBy, sortType; try (now eexists; eexists).
  destruct (truthy _ && truthy _); now eexists; eexists.
Qed.



Example feed_stage_order :
  map phase (view_pipeline (Feed (mkVideoQuery None None (Some (literal "cat"))
                                    (Some (FieldKey "title")) (Some "asc")
                                    (Some (GoodId alice)))))
  = [0; 0; 1; 2; 3; 3]
  /\ map phase (view_pipeline (UserTweets (GoodId alice))) = [0; 3; 3; 2].
Proof. split; reflexivity. Qed.

(* ------------------------------------------------------------------ *)
(** ** The ownership check *)

Ltac run_handler :=
  unfold updateVideo, deleteVideo, togglePublishStatus, updateTweet, deleteTweet,
    addVideoToPlaylist, removeVideoFromPlaylist, deletePlaylist, updatePlaylist,
    bind, throw_if, findById, findOne, owner_differs, ret, throw;
  cbn [isValidObjectId negb cast coll orb fst snd].

(** C7, as the code has it.  For each handler that changes or deletes a
    video, a tweet or a playlist: when the entity is stored with an owner
    other than the caller, the handler fails and leaves the store as it was,
    and it fails with 403 whenever the rest of the request passes the checks
    the handler makes before the comparison (for a tweet update, a content
    that is not blank; for a playlist membership, a valid video id and, to
    add, a stored video).  A handler that succeeds was called by the
    recorded owner of the stored entity. *)
Theorem ownership_guard caller mu db :
  (forall d o,
      stored mu db d -> field "owner" d = Some (VId o) -> o <> caller ->
      exists e, run_mutation caller mu db = (Some e, db)
                /\ (checks_before_guard mu db = true -> statusCode e = 403))
  /\ (fst (run_mutation caller mu db) = None ->
      exists d, stored mu db d /\ field "owner" d = Some (VId caller)).
Proof.
  split.
  - intros d o (i & Hi & Hfind) Ho Hneq. unfold byId in Hfind.
    apply Nat.eqb_neq in Hneq.
    assert (Hj : forall j, cast j = VId i -> isValidObjectId j = true)
      by (intros [raw|j|j]; [discriminate | reflexivity | reflexivity]).
    destruct mu as [j title description file|j|j|j content|j|j v|j v|j|j name description];
      cbn [mutated fst snd coll] in Hi, Hfind;
      cbn [run_mutation checks_before_guard]; run_handler;
      rewrite (Hj _ Hi), ?Hi; cbn [negb orb].
    all: try rewrite Hfind; try rewrite Ho; try rewrite Hneq; cbn [negb outcome].
    all: try (eexists; split; [reflexivity | reflexivity]).
    + destruct (blank content); cbn [outcome].
      * eexists; split; [reflexivity | discriminate].
      * rewrite Hfind, Ho, Hneq. cbn. eexists; split; reflexivity.
    + destruct (isValidObjectId v); cbn [negb outcome andb].
      * rewrite Hfind. destruct (find _ (videos db)); cbn [outcome].
        -- rewrite Ho, Hneq. cbn. eexists; split; reflexivity.
        -- eexists; split; [reflexivity | discriminate].
      * eexists; split; [reflexivity | discriminate].
    + destruct (isValidObjectId v); cbn [negb outcome andb].
      * rewrite Hfind, Ho, Hneq. cbn. eexists; split; reflexivity.
      * eexists; split; [reflexivity | discriminate].
  - intros Hok. unfold stored, byId.
    destruct mu as [j title description file|j|j|j content|j|j v|j v|j|j name description];
      cbn [mutated fst snd run_mutation coll] in *; revert Hok; run_handler.
    all: destruct j as [raw|i|i]; cbn [isValidObjectId negb cast outcome fst orb];
      try discriminate.
    all: try (destruct (blank content); cbn [outcome fst]; [discriminate|]).
    all: try (destruct (isValidObjectId v); cbn [negb outcome fst];
              [|discriminate]).
    all: match goal with
         | |- context [find ?p (?c ?x)] =>
             destruct (find p (c x)) as [d|] eqn:Hfind; cbn [outcome fst];
             [|discriminate]
         end.
    all: try match goal with
             | |- context [find ?p (videos ?x)] =>
                 destruct (find p (videos x)); cbn [outcome fst]; [|discriminate]
             end.
    all: destruct (field "owner" d) as [[| | | |o| |]|] eqn:Ho; cbn [outcome fst];
      try discriminate.
    all: destruct (o =? caller) eqn:Hoc; cbn [negb outcome fst]; try discriminate.
    all: apply Nat.eqb_eq in Hoc; subst o; intros _; exists d;
      (split; [exists i; split; [reflexivity | assumption] | assumption]).
Qed.

Lemma ownership_guard_witness :
  exists e, run_mutation bob (DeleteVideo (GoodId 10)) sampleDb = (Some e, sampleDb)
            /\ statusCode e = 403.
Proof.
  assert (Hs : stored (DeleteVideo (GoodId 10)) sampleDb (sampleVideo 10 alice "First" 5 1))
    by (exists 10; split; reflexivity).
  assert (Ho : field "owner" (sampleVideo 10 alice "First" 5 1) = Some (VId alice))
    by reflexivity.
  assert (Hn : alice <> bob) by discriminate.
  destruct (proj1 (ownership_guard bob (DeleteVideo (GoodId 10)) sampleDb)
              _ _ Hs Ho Hn) as (e & He & H403).
  exists e. split; [exact He | apply H403; reflexivity].
Defined.

(** C7 fails where a handler checks the rest of the request first: [bob]
    updates tweet 30 of [alice] with no content and is answered 400, and
    adds a video that is not stored to playlist 20 of [alice] and is
    answered 404; neither answer is 403. *)
Lemma guard_is_not_the_first_check :
  (stored (UpdateTweet (GoodId 30) None) sampleDb
          [("_id", VId 30); ("content", VStr "hello"); ("owner", VId alice);
           ("createdAt", VNum 2)]
   /\ alice <> bob
   /\ run_mutation bob (UpdateTweet (GoodId 30) None) sampleDb
      = (Some (mkApiError 400 "Tweet content is required"), sampleDb))
  /\ (stored (AddVideoToPlaylist (GoodId 20) (GoodId 99)) sampleDb
             [("_id", VId 20); ("name", VStr "Mine"); ("description", VStr "my list");
              ("videos", VArr [VId 10]); ("owner", VId alice); ("createdAt", VNum 3)]
      /\ run_mutation bob (AddVideoToPlaylist (GoodId 20) (GoodId 99)) sampleDb
         = (Some (mkApiError 404 "Video not found"), sampleDb)).
Proof.
  split; [split; [|split] | split];
    try (exists 30; split; reflexivity); try (exists 20; split; reflexivity);
    try discriminate; reflexivity.
Qed.

(** White space is that of [String.prototype.trim], Unicode included; a
    content of such white space only is blank, and is refused before the
    owner is looked at. *)
Example trim_strips_unicode_white_space :
  trim (nbsp ++ " hi" ++ em_space ++ "there " ++ em_space ++ nbsp)%string
  = ("hi" ++ em_space ++ "there")%string
  /\ blank (Some (nbsp ++ em_space)%string) = true
  /\ blank (Some (nbsp ++ "x")%string) = false
  /\ run_mutation bob (UpdateTweet (GoodId 30) (Some nbsp)) sampleDb
     = (Some (mkApiError 400 "Tweet content is required"), sampleDb).
Proof. repeat split. Qed.

(* ------------------------------------------------------------------ *)
(** ** Updates without fields *)

Lemma update_first_id (p : document -> bool) (u : document -> document) ds :
  (forall d, u d = d) -> update_first p u ds = ds.
Proof.
  intros Hu. induction ds as [|d ds IH]; simpl; [reflexivity|].
  destruct (p d); [now rewrite Hu | now rewrite IH].
Qed.

Lemma with_coll_same m db : with_coll m (coll m db) db = db.
Proof. now destruct m, db. Qed.

(** A video update by the owner with no title, no description and no file
    is answered 200 with the stored video, and the store is left as it was. *)
Lemma updateVideo_without_fields caller i d db :
  find (matches (byId i)) (videos db) = Some d ->
  field "owner" d = Some (VId caller) ->
  updateVideo caller (GoodId i) None None None db
  = (inr (mkApiResponse 200 (Some d) "Video updated successfully"), db).
Proof.
  intros Hfind Ho. unfold byId in Hfind. run_handler.
  rewrite Hfind, Ho, Nat.eqb_refl. cbn [negb app].
  unfold findByIdAndUpdate. cbn [coll]. rewrite Hfind.
  cbn [apply_update fold_left].
  rewrite update_first_id by reflexivity.
  pose proof (with_coll_same Video db) as Hsame. cbn [coll] in Hsame.
  now rewrite Hsame.
Qed.

(** A playlist update by the owner with no name and no description (or
    blank ones) is refused with 400, and the store is left as it was. *)
Lemma updatePlaylist_without_fields caller i d name description db :
  find (matches (byId i)) (playlists db) = Some d ->
  field "owner" d = Some (VId caller) ->
  blank name = true -> blank description = true ->
  updatePlaylist caller (GoodId i) name description db
  = (inl (mkApiError 400 "At least one field (name or description) is required"), db).
Proof.
  intros Hfind Ho Hn Hd. unfold byId in Hfind. run_handler.
  rewrite Hfind, Ho, Nat.eqb_refl, Hn, Hd. cbn [negb].
  now destruct name, description.
Qed.

(** C8 fails for videos.  On the sample store [alice] updates her video 10
    with no title, no description and no file: the handler answers 200 with
    the video as it is stored and leaves the store as it was.  The same
    request on her playlist 20 is refused with 400. *)
Theorem updateVideo_accepts_empty_update :
  updateVideo alice (GoodId 10) None None None sampleDb
  = (inr (mkApiResponse 200 (Some (sampleVideo 10 alice "First" 5 1))
                        "Video updated successfully"), sampleDb)
  /\ updatePlaylist alice (GoodId 20) None None sampleDb
     = (inl (mkApiError 400 "At least one field (name or description) is required"),
        sampleDb).
Proof. split; reflexivity. Qed.

(* ------------------------------------------------------------------ *)
(** ** Channel statistics *)

Lemma value_eqb_eq : forall a b, value_eqb a b = true -> a = b.
Proof.
  fix IH 1. intros a b.
  destruct a as [|x|x|x|x|xs|xs]; destruct b as [|y|y|y|y|ys|ys];
    cbn; try discriminate; intros H.
  - reflexivity.
  - f_equal. now apply Bool.eqb_prop.
  - f_equal. now apply Z.eqb_eq.
  - f_equal. now apply String.eqb_eq.
  - f_equal. now apply Nat.eqb_eq.
  - f_equal. revert ys H.
    induction xs as [|x xs IHxs]; intros [|y ys] H; try discriminate; auto.
    apply andb_prop in H. destruct H as [H1 H2].
    f_equal; [now apply IH | now apply IHxs].
  - f_equal. revert ys H.
    induction xs as [|[k x] xs IHxs]; intros [|[k' y] ys] H; try discriminate; auto.
    apply andb_prop in H. destruct H as [H12 H3].
    apply andb_prop in H12. destruct H12 as [H1 H2].
    apply String.eqb_eq in H1. subst k'.
    f_equal; [f_equal; now apply IH | now apply IHxs].
Qed.

Lemma existsb_without (f : value -> bool) v l :
  f v || existsb f (filter (fun y => negb (value_eqb y v)) l) = f v || existsb f l.
Proof.
  induction l as [|y l IH]; [reflexivity|]. cbn [filter existsb].
  destruct (value_eqb y v) eqn:E; cbn [negb existsb].
  - apply value_eqb_eq in E. subst y. rewrite IH. now destruct (f v).
  - rewrite !orb_assoc, (orb_comm (f v) (f y)), <- !orb_assoc. now rewrite IH.
Qed.

Lemma existsb_nodup_values (f : value -> bool) l :
  existsb f (nodup_values l) = existsb f l.
Proof.
  induction l as [|v l IH]; [reflexivity|].
  cbn [nodup_values existsb]. now rewrite existsb_without, IH.
Qed.

Lemma existsb_ids (f : value -> bool) (p : document -> bool) ds :
  existsb f (flat_map (fun d => match field "_id" d with
                                | Some v => [v]
                                | None => []
                                end) (filter p ds))
  = existsb (fun d => p d && match field "_id" d with
                             | Some i => f i
                             | None => false
                             end) ds.
Proof.
  induction ds as [|d ds IH]; [reflexivity|]. cbn [filter existsb].
  destruct (p d); cbn [flat_map andb]; [|exact IH].
  rewrite existsb_app, IH. destruct (field "_id" d); cbn [existsb];
    now rewrite ?orb_false_r.
Qed.

(** The query [{ video: { $in: ids of the videos of u } }] selects the
    documents whose [video] is a video owned by [u]. *)
Lemma in_owned_videos u db l :
  matches (Fields [("video",
             CIn (nodup_values
                    (flat_map (fun d => match field "_id" d with
                                        | Some v => [v]
                                        | None => []
                                        end)
                              (filter (matches (Fields [("owner", CEq (VId u))]))
                                      (videos db)))))]) l
  = on_video_of u db l.
Proof.
  unfold on_video_of, owned_by.
  cbn [matches fields_hold forallb fst snd]. rewrite andb_true_r.
  destruct (field "video" l) as [x|]; cbn [cond_holds].
  - now rewrite existsb_nodup_values, existsb_ids.
  - symmetry. induction (videos db) as [|v vs IH]; [reflexivity|].
    cbn [existsb]. now rewrite andb_false_r, IH.
Qed.

Lemma count_ext (p q : document -> bool) ds :
  (forall d, p d = q d) -> count p ds = count q ds.
Proof. intros H. unfold count. now rewrite (filter_ext _ _ H). Qed.

(** C9. The statistics of a channel are computed without error and without
    a write: the number of videos the user owns, the sum of their view
    counters (0 when there is none), the number of subscriptions to the
    user, and the numbers of likes and of comments whose video is one of
    the videos the user owns.  For a user with no video and no subscriber
    all five are 0. *)
Theorem channel_stats userId db :
  exists r,
    getChannelStats userId db = (inr r, db)
    /\ status r = 200
    /\ totalVideos (data r) = Z.of_nat (count (owned_by userId) (videos db))
    /\ totalViews (data r) = sum_field "views" (filter (owned_by userId) (videos db))
    /\ totalSubscribers (data r)
       = Z.of_nat (count (matches (Fields [("channel", CEq (VId userId))]))
                         (subscriptions db))
    /\ totalLikes (data r) = Z.of_nat (count (on_video_of userId db) (likes db))
    /\ totalComments (data r) = Z.of_nat (count (on_video_of userId db) (comments db))
    /\ (count (owned_by userId) (videos db) = 0 ->
        count (matches (Fields [("channel", CEq (VId userId))])) (subscriptions db) = 0 ->
        data r = mkChannelStats 0 0 0 0 0).
Proof.
  eexists. split; [reflexivity|]. cbn [status data totalVideos totalViews
    totalSubscribers totalLikes totalComments coll].
  assert (Hviews :
    match hd_error (run_pipeline (from_collection db)
                      [Match (Fields [("owner", CEq (VId userId))]);
                       GroupSum "totalViews" "views"] (videos db)) with
    | Some g => match field "totalViews" g with
                | Some (VNum n) => n
                | _ => 0%Z
                end
    | None => 0%Z
    end = sum_field "views" (filter (owned_by userId) (videos db))).
  { unfold run_pipeline. cbn [fold_left run_stage].
    change (owned_by userId)
      with (matches (Fields [("owner", CEq (VId userId))])).
    now destruct (filter _ (videos db)). }
  assert (Hlikes : forall ds,
    List.length (filter (matches (Fields [("video",
             CIn (nodup_values
                    (flat_map (fun d => match field "_id" d with
                                        | Some v => [v]
                                        | None => []
                                        end)
                              (filter (matches (Fields [("owner", CEq (VId userId))]))
                                      (videos db)))))])) ds)
    = count (on_video_of userId db) ds).
  { intros ds. apply (count_ext _ _ ds). intros d. apply in_owned_videos. }
  repeat split.
  - exact Hviews.
  - now rewrite Hlikes.
  - now rewrite Hlikes.
  - intros Hv Hs. rewrite Hviews, !Hlikes. unfold count in Hs. rewrite Hs.
    assert (Hnone : filter (owned_by userId) (videos db) = [])
      by (unfold count in Hv; now apply length_zero_iff_nil).
    rewrite Hnone.
    change (owned_by userId)
      with (matches (Fields [("owner", CEq (VId userId))])) in Hnone.
    rewrite Hnone.
    assert (Hoff : forall l, on_video_of userId db l = false).
    { intros l. unfold on_video_of.
      destruct (existsb _ (videos db)) eqn:E; [|reflexivity].
      apply existsb_exists in E. destruct E as (v & Hin & Hv').
      apply andb_prop in Hv'. destruct Hv' as [Hown _].
      assert (In v (filter (matches (Fields [("owner", CEq (VId userId))])) (videos db)))
        by (apply filter_In; split; assumption).
      rewrite Hnone in H. destruct H. }
    assert (Hzero : forall ds, count (on_video_of userId db) ds = 0).
    { intros ds. unfold count. induction ds as [|d ds IH]; [reflexivity|].
      cbn [filter]. now rewrite Hoff. }
    rewrite !Hzero. reflexivity.
Qed.

Example stats_of_alice_and_bob :
  fst (getChannelStats alice sampleDb)
  = inr (mkApiResponse 200 (mkChannelStats 1 5 1 1 1) "Channel stats fetched successfully")
  /\ fst (getChannelStats bob sampleDb)
     = inr (mkApiResponse 200 (mkChannelStats 0 0 0 0 0) "Channel stats fetched successfully").
Proof. split; reflexivity. Qed.

Lemma channel_stats_witness :
  exists r, getChannelStats bob sampleDb = (inr r, sampleDb)
            /\ data r = mkChannelStats 0 0 0 0 0.
Proof.
  destruct (channel_stats bob sampleDb) as (r & Hr & _ & _ & _ & _ & _ & _ & Hzero).
  exists r. split; [exact Hr | apply Hzero; reflexivity].
Defined.

(* ------------------------------------------------------------------ *)
(** ** Fetching a video *)

Lemma field_set_field_same k v d : field k (set_field k v d) = Some v.
Proof.
  induction d as [|[k' v'] d IH]; simpl.
  - now rewrite String.eqb_refl.
  - destruct (String.eqb k k') eqn:E; simpl; [now rewrite String.eqb_refl|].
    now rewrite E.
Qed.

Lemma field_set_field_other k k' v d :
  k' <> k -> field k' (set_field k v d) = field k' d.
Proof.
  intros Hne. induction d as [|[k'' v''] d IH]; simpl.
  - apply String.eqb_neq in Hne. now rewrite Hne.
  - destruct (String.eqb k k'') eqn:E; simpl.
    + apply String.eqb_eq in E. subst k''.
      apply String.eqb_neq in Hne. now rewrite Hne.
    + now rewrite IH.
Qed.

Lemma update_first_split (p : document -> bool) (u : document -> document) ds d :
  find p ds = Some d ->
  exists l1 l2, ds = l1 ++ d :: l2 /\ update_first p u ds = l1 ++ u d :: l2.
Proof.
  induction ds as [|x ds IH]; simpl; [discriminate|].
  destruct (p x) eqn:E; intros H.
  - injection H as ->. now exists [], ds.
  - destruct (IH H) as (l1 & l2 & -> & Hu).
    exists (x :: l1), l2. simpl. now rewrite Hu.
Qed.

(** C10.  Fetching a stored video by its id answers 200 and leaves the
    store as it was but for that one video, whose [views] has gone up by
    exactly one and whose other fields are as before: the documents before
    and after it in the video collection, every other collection and the
    clock are untouched.  For a valid id that no video carries the fetch
    fails with 404 and writes nothing. *)
Theorem getVideoById_counts_one_view i db :
  (forall d n,
      find (matches (byId i)) (videos db) = Some d ->
      field "views" d = Some (VNum n) ->
      exists r l1 l2 d',
        getVideoById (GoodId i) db = (inr r, with_coll Video (l1 ++ d' :: l2) db)
        /\ status r = 200
        /\ videos db = l1 ++ d :: l2
        /\ field "views" d' = Some (VNum (n + 1))
        /\ (forall k, k <> "views" -> field k d' = field k d)
        /\ (forall m, m <> Video ->
            coll m (with_coll Video (l1 ++ d' :: l2) db) = coll m db)
        /\ now (with_coll Video (l1 ++ d' :: l2) db) = now db)
  /\ (find (matches (byId i)) (videos db) = None ->
      getVideoById (GoodId i) db = (inl (mkApiError 404 "Video not found"), db)).
Proof.
  unfold byId. split.
  - intros d n Hfind Hviews.
    destruct (update_first_split _ (apply_update (UInc "views" 1)) _ _ Hfind)
      as (l1 & l2 & Hsplit & Hupd).
    eexists. exists l1, l2, (apply_update (UInc "views" 1) d).
    split; [|split; [|split; [exact Hsplit|]]].
    + unfold getVideoById, bind, throw_if, findById, findOne, findByIdAndUpdate,
        aggregate, ret, throw.
      cbn [isValidObjectId negb cast coll].
      rewrite Hfind. cbv beta iota zeta. rewrite Hfind, Hupd. reflexivity.
    + reflexivity.
    + cbn [apply_update]. rewrite Hviews. repeat split.
      * apply field_set_field_same.
      * intros k Hk. now apply field_set_field_other.
      * intros m Hm. now apply coll_with_coll_other.
  - intros Hfind.
    unfold getVideoById, bind, throw_if, findById, findOne, ret, throw.
    cbn [isValidObjectId negb cast coll]. now rewrite Hfind.
Qed.

Lemma getVideoById_counts_one_view_witness :
  exists r l1 l2 d',
    getVideoById (GoodId 10) sampleDb
    = (inr r, with_coll Video (l1 ++ d' :: l2) sampleDb)
    /\ field "views" d' = Some (VNum 6)
    /\ getVideoById (GoodId 11) sampleDb
       = (inl (mkApiError 404 "Video not found"), sampleDb).
Proof.
  destruct (getVideoById_counts_one_view 10 sampleDb) as [Hhit _].
  destruct (getVideoById_counts_one_view 11 sampleDb) as [_ Hmiss].
  destruct (Hhit (sampleVideo 10 alice "First" 5 1) 5%Z eq_refl eq_refl)
    as (r & l1 & l2 & d' & Hr & _ & _ & Hv & _).
  exists r, l1, l2, d'. split; [exact Hr | split; [exact Hv | apply Hmiss; reflexivity]].
Defined.

Example fetch_video_10 :
  fst (getVideoById (GoodId 10) sampleDb)
  = inr (mkApiResponse 200
           (Some [("_id", VId 10); ("videoFile", VStr "video.mp4");
                  ("thumbnail", VStr "thumb.png"); ("title", VStr "First");
                  ("description", VStr "a video"); ("duration", VNum 60);
                  ("views", VNum 6); ("isPublished", VBool true);
                  ("owner", VDoc [("_id", VId alice); ("fullName", VStr "Alice");
                                  ("username", VStr "alice");
                                  ("avatar", VStr "avatar.png")]);
                  ("createdAt", VNum 1)])
           "Video fetched successfully").
Proof. reflexivity. Qed.

(* ================================================================== *)
(** * Further properties of the controllers *)

(** ** Finding and updating one document *)

Lemma find_split (p : document -> bool) ds d :
  find p ds = Some d ->
  exists l1 l2, ds = l1 ++ d :: l2 /\ find p l1 = None /\ p d = true.
Proof.
  induction ds as [|x ds IH]; simpl; [discriminate|].
  destruct (p x) eqn:E; intros H.
  - injection H as ->. now exists [], ds.
  - destruct (IH H) as (l1 & l2 & -> & Hn & Hd).
    exists (x :: l1), l2. simpl. now rewrite E.
Qed.

Lemma find_at (p : document -> bool) l1 d l2 :
  find p l1 = None -> p d = true -> find p (l1 ++ d :: l2) = Some d.
Proof.
  intros Hn Hd. induction l1 as [|x l1 IH]; simpl in *; [now rewrite Hd|].
  destruct (p x); [discriminate | now apply IH].
Qed.

Lemma find_skip (p : document -> bool) l1 d l2 :
  find p l1 = None -> p d = false -> find p (l1 ++ d :: l2) = find p l2.
Proof.
  intros Hn Hd. induction l1 as [|x l1 IH]; simpl in *; [now rewrite Hd|].
  destruct (p x); [discriminate | now apply IH].
Qed.

Lemma update_first_at (p : document -> bool) u l1 d l2 :
  find p l1 = None -> p d = true ->
  update_first p u (l1 ++ d :: l2) = l1 ++ u d :: l2.
Proof.
  intros Hn Hd. induction l1 as [|x l1 IH]; simpl in *; [now rewrite Hd|].
  destruct (p x); [discriminate | now rewrite IH].
Qed.

Lemma remove_first_at (p : document -> bool) l1 d l2 :
  find p l1 = None -> p d = true ->
  remove_first p (l1 ++ d :: l2) = l1 ++ l2.
Proof.
  intros Hn Hd. induction l1 as [|x l1 IH]; simpl in *; [now rewrite Hd|].
  destruct (p x); [discriminate | now rewrite IH].
Qed.

Lemma find_app_none (p : document -> bool) l1 l2 :
  find p l1 = None -> find p (l1 ++ l2) = find p l2.
Proof.
  intros Hn. induction l1 as [|x l1 IH]; simpl in *; [reflexivity|].
  destruct (p x); [discriminate | now apply IH].
Qed.

(** A look-up by [_id] reads nothing but the [_id] of a document. *)
Lemma matches_id_ext v d d' :
  field "_id" d' = field "_id" d ->
  matches (Fields [("_id", CEq v)]) d' = matches (Fields [("_id", CEq v)]) d.
Proof. intros H. cbn. now rewrite H. Qed.

Lemma set_field_same_value k v d : field k d = Some v -> set_field k v d = d.
Proof.
  induction d as [|[k' v'] d IH]; simpl; [discriminate|].
  destruct (String.eqb k k') eqn:E.
  - intros H. injection H as ->. apply String.eqb_eq in E. now subst.
  - intros H. now rewrite IH.
Qed.

Lemma set_field_twice k v v' d :
  set_field k v (set_field k v' d) = set_field k v d.
Proof.
  induction d as [|[k' w] d IH]; simpl.
  - now rewrite String.eqb_refl.
  - destruct (String.eqb k k') eqn:E; simpl.
    + now rewrite String.eqb_refl.
    + now rewrite E, IH.
Qed.

Lemma value_eqb_refl : forall a, value_eqb a a = true.
Proof.
  fix IH 1. intros [|x|x|x|x|xs|xs]; cbn.
  - reflexivity.
  - now destruct x.
  - apply Z.eqb_refl.
  - apply String.eqb_refl.
  - apply Nat.eqb_refl.
  - induction xs as [|x xs IHxs]; [reflexivity|]. now rewrite IH, IHxs.
  - induction xs as [|[k x] xs IHxs]; [reflexivity|].
    now rewrite String.eqb_refl, IH, IHxs.
Qed.

Lemma existsb_value_eqb_In v ids :
  existsb (fun x => value_eqb x v) ids = true <-> In v ids.
Proof.
  rewrite existsb_exists. split.
  - intros (x & Hin & Hx). apply value_eqb_eq in Hx. now subst.
  - intros Hin. exists v. split; [exact Hin | apply value_eqb_refl].
Qed.

Lemma with_coll_twice m ds ds' db :
  with_coll m ds (with_coll m ds' db) = with_coll m ds db.
Proof. now destruct m. Qed.

Lemma find_byId_has_id i ds d :
  Forall has_id ds ->
  find (matches (byId i)) ds = Some d -> field "_id" d = Some (VId i).
Proof.
  intros Hf Hfind. apply find_some in Hfind. destruct Hfind as [Hin Hm].
  rewrite Forall_forall in Hf. unfold byId in Hm.
  now apply matches_byId_iff in Hm; [|apply Hf].
Qed.

(* ------------------------------------------------------------------ *)
(** ** When a toggle fails *)

Lemma run_toggle_invalid t caller i db :
  valid_triple t caller i db = false ->
  exists e, run_toggle t caller (GoodId i) db = (inl e, db).
Proof.
  intros E. unfold valid_triple in E.
  destruct t; cbn [run_toggle target_model coll] in *;
    unfold toggleSubscription, toggleVideoLike, toggleCommentLike, toggleTweetLike,
      bind, throw_if, findById, findOne, ret, throw, is_caller;
    cbn [isValidObjectId negb cast coll];
    destruct (find _ _); cbn in E |- *;
    try (destruct (i =? caller); cbn in E |- *);
    try discriminate; eexists; reflexivity.
Qed.

Lemma run_toggle_missing t caller target i db :
  cast target = VId i ->
  find (matches (byId i)) (coll (target_model t) db) = None ->
  exists msg, run_toggle t caller target db = (inl (mkApiError 404 msg), db).
Proof.
  unfold byId. intros Hc Hfind.
  destruct target as [raw|j|j]; cbn [cast] in Hc; [discriminate | |];
    injection Hc as ->;
    destruct t; cbn [run_toggle target_model coll] in *;
    unfold toggleSubscription, toggleVideoLike, toggleCommentLike, toggleTweetLike,
      bind, throw_if, findById, findOne, ret, throw;
    cbn [isValidObjectId negb cast coll]; rewrite Hfind; eexists; reflexivity.
Qed.

(** A valid id in another spelling than that of [toString()] passes the
    comparison with the caller, whoever it denotes. *)
Lemma run_toggle_alt t caller i db d :
  find (matches (byId i)) (coll (target_model t) db) = Some d ->
  run_toggle t caller (AltId i) db
  = toggle_core (edge_model t) (edge_query t caller i)
      (edge_fields t caller i) (response_off t) (response_on t) db.
Proof.
  unfold byId. intros E.
  destruct t; cbn [run_toggle target_model coll] in *;
    unfold toggleSubscription, toggleVideoLike, toggleCommentLike,
      toggleTweetLike, toggle_core, bind, throw_if, findById, findOne, ret,
      throw, is_caller;
    cbn [isValidObjectId negb cast coll]; rewrite E;
    cbn [edge_model edge_query edge_fields response_off response_on coll];
    destruct (find _ _); reflexivity.
Qed.

Lemma toggle_core_succeeds m q fields off on db :
  succeeds (toggle_core m q fields off on db).
Proof.
  unfold succeeds, toggle_core, bind, findOne, findByIdAndDelete, create, ret.
  destruct (find _ _) as [e|]; [|eexists; reflexivity].
  destruct (find _ _); eexists; reflexivity.
Qed.

(** The failures of a toggle, in the order the handler checks: a
    malformed id is answered 400; a valid id of a target that is not stored
    is answered 404, also when a user subscribes to their own id; one's own
    stored channel, named as [toString()] spells it, is answered 400; nothing
    is written in any of these cases, and every other request succeeds.  The
    comparison with the caller is one of strings: one's own id in another
    spelling passes it, and the subscription to oneself is toggled. *)
Theorem toggle_failures t caller target db :
  (forall raw, target = BadId raw ->
     exists msg, run_toggle t caller target db = (inl (mkApiError 400 msg), db))
  /\ (forall i, cast target = VId i ->
        find (matches (byId i)) (coll (target_model t) db) = None ->
        exists msg, run_toggle t caller target db = (inl (mkApiError 404 msg), db))
  /\ (forall d, target = GoodId caller ->
        find (matches (byId caller)) (users db) = Some d ->
        run_toggle SubscriptionToggle caller target db
        = (inl (mkApiError 400 "You cannot subscribe to your own channel"), db))
  /\ (forall d, target = AltId caller ->
        find (matches (byId caller)) (users db) = Some d ->
        run_toggle SubscriptionToggle caller target db
        = toggle_core Subscription
            (Fields [("subscriber", CEq (VId caller)); ("channel", CEq (VId caller))])
            [("subscriber", VId caller); ("channel", VId caller)]
            (response_off SubscriptionToggle) (response_on SubscriptionToggle) db)
  /\ (succeeds (run_toggle t caller target db)
      <-> exists i, cast target = VId i
                    /\ find (matches (byId i)) (coll (target_model t) db) <> None
                    /\ ~ (t = SubscriptionToggle /\ target = GoodId caller)).
Proof.
  split; [|split; [|split; [|split]]].
  - intros raw ->. destruct t; eexists; reflexivity.
  - intros i. apply run_toggle_missing.
  - unfold byId. intros d -> Hfind. cbn [run_toggle].
    unfold toggleSubscription, bind, throw_if, findById, findOne, ret, throw, is_caller.
    cbn [isValidObjectId negb cast coll]. rewrite Hfind, Nat.eqb_refl. reflexivity.
  - intros d -> Hfind.
    exact (run_toggle_alt SubscriptionToggle caller caller db d Hfind).
  - destruct target as [raw|i|i].
    + split.
      * intros [r Hr]. destruct t; discriminate Hr.
      * intros (i & Hc & _). discriminate Hc.
    + destruct (valid_triple t caller i db) eqn:Hv.
      * split; intros _.
        -- exists i. split; [reflexivity|].
           unfold valid_triple, byId in *. apply andb_prop in Hv.
           destruct Hv as [Hf Hs]. split.
           ++ destruct (find _ _); [discriminate | discriminate Hf].
           ++ intros [-> [= ->]]. rewrite Nat.eqb_refl in Hs. discriminate Hs.
        -- rewrite (run_toggle_valid _ _ _ _ Hv). apply toggle_core_succeeds.
      * split.
        -- intros [r Hr]. destruct (run_toggle_invalid _ _ _ _ Hv) as [e He].
           rewrite He in Hr. discriminate Hr.
        -- intros (j & [= <-] & Hf & Hs). exfalso.
           unfold valid_triple, byId in *.
           destruct (find _ _); [|now apply Hf].
           destruct t; cbn in Hv; try discriminate Hv.
           apply negb_false_iff, Nat.eqb_eq in Hv. subst i.
           apply Hs. now split.
    + destruct (find (matches (byId i)) (coll (target_model t) db)) as [d|] eqn:Hf.
      * split; intros _.
        -- exists i. split; [reflexivity|]. split; [now rewrite Hf|].
           intros [_ [=]].
        -- rewrite (run_toggle_alt _ _ _ _ _ Hf). apply toggle_core_succeeds.
      * split.
        -- intros [r Hr].
           destruct (run_toggle_missing t caller (AltId i) i db eq_refl Hf) as [msg He].
           rewrite He in Hr. discriminate Hr.
        -- intros (j & [= <-] & Hn & _). now rewrite Hf in Hn.
Qed.

(** [alice] subscribes to her own channel with her id in another spelling. *)
Example self_subscription_in_another_spelling :
  fst (toggleSubscription alice (GoodId alice) sampleDb)
  = inl (mkApiError 400 "You cannot subscribe to your own channel")
  /\ fst (toggleSubscription alice (AltId alice) sampleDb)
     = inr (mkApiResponse 200 [("isSubscribed", VBool true)] "Subscribed successfully")
  /\ subscriptions (snd (toggleSubscription alice (AltId alice) sampleDb))
     = subscriptions sampleDb
       ++ [[("_id", VId 51); ("subscriber", VId alice); ("channel", VId alice);
            ("createdAt", VNum 7)]].
Proof. repeat split. Qed.

(* ------------------------------------------------------------------ *)
(** ** Publishing and unpublishing *)

Lemma togglePublishStatus_run caller i db l1 d l2 b :
  videos db = l1 ++ d :: l2 ->
  find (matches (byId i)) l1 = None ->
  matches (byId i) d = true ->
  field "owner" d = Some (VId caller) ->
  field "isPublished" d = Some (VBool b) ->
  togglePublishStatus caller (GoodId i) db
  = (inr (mkApiResponse 200
            (Some (set_field "isPublished" (VBool (negb b)) d))
            (if b then "Video unpublished successfully"
             else "Video published successfully")),
     with_coll Video (l1 ++ set_field "isPublished" (VBool (negb b)) d :: l2) db).
Proof.
  unfold byId. intros Hsplit Hl1 Hd Ho Hp.
  pose proof (find_at _ l1 d l2 Hl1 Hd) as Hfind. rewrite <- Hsplit in Hfind.
  pose proof (update_first_at _
                (apply_update (USet [("isPublished", VBool (negb b))]))
                l1 d l2 Hl1 Hd) as Hupd. rewrite <- Hsplit in Hupd.
  run_handler. rewrite Hfind, Ho, Nat.eqb_refl. cbn [negb].
  unfold findByIdAndUpdate. cbn [coll]. rewrite Hfind, Hp. cbn [js_not].
  rewrite Hupd. cbn [apply_update fold_left fst snd].
  rewrite field_set_field_same. cbn [js_not]. rewrite negb_involutive.
  reflexivity.
Qed.

(** The owner's publish toggle on a stored video with a boolean
    [isPublished] answers 200 with the video, whose flag is the opposite
    and whose other fields, like every other document, are as before; the
    message names the new state; and a second toggle brings the store back
    to exactly what it was. *)
Theorem togglePublishStatus_flips_and_returns caller i d b db :
  find (matches (byId i)) (videos db) = Some d ->
  field "owner" d = Some (VId caller) ->
  field "isPublished" d = Some (VBool b) ->
  (exists l1 l2,
      videos db = l1 ++ d :: l2
      /\ togglePublishStatus caller (GoodId i) db
         = (inr (mkApiResponse 200
                   (Some (set_field "isPublished" (VBool (negb b)) d))
                   (if b then "Video unpublished successfully"
                    else "Video published successfully")),
            with_coll Video
              (l1 ++ set_field "isPublished" (VBool (negb b)) d :: l2) db))
  /\ (forall k, k <> "isPublished" ->
        field k (set_field "isPublished" (VBool (negb b)) d) = field k d)
  /\ snd (togglePublishStatus caller (GoodId i)
            (snd (togglePublishStatus caller (GoodId i) db))) = db.
Proof.
  intros Hfind Ho Hp.
  destruct (find_split _ _ _ Hfind) as (l1 & l2 & Hsplit & Hl1 & Hd).
  pose proof (togglePublishStatus_run caller i db l1 d l2 b Hsplit Hl1 Hd Ho Hp) as H1.
  split; [now exists l1, l2|]. split.
  - intros k Hk. now apply field_set_field_other.
  - rewrite H1. cbn [snd].
    set (d' := set_field "isPublished" (VBool (negb b)) d).
    assert (Hd' : matches (byId i) d' = true).
    { unfold byId. rewrite (matches_id_ext _ d d'); [exact Hd|].
      apply field_set_field_other. discriminate. }
    assert (Ho' : field "owner" d' = Some (VId caller)).
    { unfold d'. rewrite field_set_field_other; [exact Ho | discriminate]. }
    assert (Hp' : field "isPublished" d' = Some (VBool (negb b)))
      by apply field_set_field_same.
    rewrite (togglePublishStatus_run caller i _ l1 d' l2 (negb b)
               (coll_with_coll_same Video _ db) Hl1 Hd' Ho' Hp').
    cbn [snd]. unfold d'.
    rewrite set_field_twice, negb_involutive, (set_field_same_value _ _ _ Hp).
    rewrite with_coll_twice, <- Hsplit.
    exact (with_coll_same Video db).
Qed.

Lemma togglePublishStatus_flips_and_returns_witness :
  snd (togglePublishStatus alice (GoodId 10)
         (snd (togglePublishStatus alice (GoodId 10) sampleDb))) = sampleDb.
Proof.
  destruct (togglePublishStatus_flips_and_returns alice 10
              (sampleVideo 10 alice "First" 5 1) true sampleDb
              eq_refl eq_refl eq_refl) as (_ & _ & H).
  exact H.
Defined.

(* ------------------------------------------------------------------ *)
(** ** Playlist membership *)

Lemma addVideoToPlaylist_run caller p v db l1 d l2 ids vd :
  playlists db = l1 ++ d :: l2 ->
  find (matches (byId p)) l1 = None ->
  matches (byId p) d = true ->
  field "owner" d = Some (VId caller) ->
  field "videos" d = Some (VArr ids) ->
  find (matches (byId v)) (videos db) = Some vd ->
  (In (VId v) ids ->
   addVideoToPlaylist caller (GoodId p) (GoodId v) db
   = (inl (mkApiError 400 "Video is already in the playlist"), db))
  /\ (~ In (VId v) ids ->
      exists r,
        addVideoToPlaylist caller (GoodId p) (GoodId v) db
        = (inr r, with_coll Playlist
                    (l1 ++ set_field "videos" (VArr (ids ++ [VId v])) d :: l2) db)
        /\ status r = 200).
Proof.
  unfold byId. intros Hsplit Hl1 Hd Ho Hids Hv.
  pose proof (find_at _ l1 d l2 Hl1 Hd) as Hfind. rewrite <- Hsplit in Hfind.
  pose proof (update_first_at _ (apply_update (UAddToSet "videos" (VId v)))
                l1 d l2 Hl1 Hd) as Hupd. rewrite <- Hsplit in Hupd.
  split; intros Hin.
  - apply existsb_value_eqb_In in Hin.
    run_handler. rewrite Hfind, Hv, Ho, Nat.eqb_refl. cbn [negb].
    unfold includes_param, includes. now rewrite Hids, Hin.
  - assert (Hex : existsb (fun x => value_eqb x (VId v)) ids = false).
    { destruct (existsb _ ids) eqn:E; [|reflexivity].
      apply existsb_value_eqb_In in E. contradiction. }
    run_handler. rewrite Hfind, Hv, Ho, Nat.eqb_refl. cbn [negb].
    unfold includes_param, includes. rewrite Hids, Hex.
    unfold findByIdAndUpdate, populate_owner. cbn [coll]. rewrite Hfind, Hupd.
    cbn [apply_update]. rewrite Hids, Hex.
    eexists. split; reflexivity.
Qed.

(** The same request with the video id in another spelling than that of
    [toString()]: [includes] does not find it, and [$addToSet], which
    compares the ids, adds it only when the list does not hold it. *)
Lemma addVideoToPlaylist_alt_run caller p v db l1 d l2 ids vd :
  playlists db = l1 ++ d :: l2 ->
  find (matches (byId p)) l1 = None ->
  matches (byId p) d = true ->
  field "owner" d = Some (VId caller) ->
  field "videos" d = Some (VArr ids) ->
  find (matches (byId v)) (videos db) = Some vd ->
  (In (VId v) ids ->
   exists r, addVideoToPlaylist caller (GoodId p) (AltId v) db = (inr r, db)
             /\ status r = 200)
  /\ (~ In (VId v) ids ->
      exists r,
        addVideoToPlaylist caller (GoodId p) (AltId v) db
        = (inr r, with_coll Playlist
                    (l1 ++ set_field "videos" (VArr (ids ++ [VId v])) d :: l2) db)
        /\ status r = 200).
Proof.
  unfold byId. intros Hsplit Hl1 Hd Ho Hids Hv.
  pose proof (find_at _ l1 d l2 Hl1 Hd) as Hfind. rewrite <- Hsplit in Hfind.
  pose proof (update_first_at _ (apply_update (UAddToSet "videos" (VId v)))
                l1 d l2 Hl1 Hd) as Hupd. rewrite <- Hsplit in Hupd.
  split; intros Hin.
  - apply existsb_value_eqb_In in Hin.
    run_handler. rewrite Hfind, Hv, Ho, Nat.eqb_refl. cbn [negb includes_param].
    unfold findByIdAndUpdate, populate_owner. cbn [coll]. rewrite Hfind, Hupd.
    cbn [apply_update]. rewrite Hids, Hin, <- Hsplit.
    pose proof (with_coll_same Playlist db) as Hsame. cbn [coll] in Hsame.
    rewrite Hsame. eexists. split; reflexivity.
  - assert (Hex : existsb (fun x => value_eqb x (VId v)) ids = false).
    { destruct (existsb _ ids) eqn:E; [|reflexivity].
      apply existsb_value_eqb_In in E. contradiction. }
    run_handler. rewrite Hfind, Hv, Ho, Nat.eqb_refl. cbn [negb includes_param].
    unfold findByIdAndUpdate, populate_owner. cbn [coll]. rewrite Hfind, Hupd.
    cbn [apply_update]. rewrite Hids, Hex.
    eexists. split; reflexivity.
Qed.

Lemma removeVideoFromPlaylist_run caller p v db l1 d l2 ids :
  playlists db = l1 ++ d :: l2 ->
  find (matches (byId p)) l1 = None ->
  matches (byId p) d = true ->
  field "owner" d = Some (VId caller) ->
  field "videos" d = Some (VArr ids) ->
  exists r,
    removeVideoFromPlaylist caller (GoodId p) (GoodId v) db
    = (inr r, with_coll Playlist
                (l1 ++ set_field "videos"
                         (VArr (filter (fun x => negb (value_eqb x (VId v))) ids)) d
                    :: l2) db)
    /\ status r = 200.
Proof.
  unfold byId. intros Hsplit Hl1 Hd Ho Hids.
  pose proof (find_at _ l1 d l2 Hl1 Hd) as Hfind. rewrite <- Hsplit in Hfind.
  pose proof (update_first_at _ (apply_update (UPull "videos" (VId v)))
                l1 d l2 Hl1 Hd) as Hupd. rewrite <- Hsplit in Hupd.
  run_handler. rewrite Hfind, Ho, Nat.eqb_refl. cbn [negb].
  unfold findByIdAndUpdate, populate_owner. cbn [coll]. rewrite Hfind, Hupd.
  cbn [apply_update]. rewrite Hids.
  eexists. split; reflexivity.
Qed.

Lemma filter_without_absent v ids :
  ~ In v ids -> filter (fun x => negb (value_eqb x v)) ids = ids.
Proof.
  intros Hn. induction ids as [|x ids IH]; [reflexivity|]. cbn [filter].
  destruct (value_eqb x v) eqn:E.
  - apply value_eqb_eq in E. subst. exfalso. apply Hn. now left.
  - cbn [negb]. rewrite IH; [reflexivity|]. intros H. apply Hn. now right.
Qed.

Lemma filter_without_not_in v ids :
  ~ In v (filter (fun x => negb (value_eqb x v)) ids).
Proof.
  intros H. apply filter_In in H. destruct H as [_ H].
  now rewrite value_eqb_refl in H.
Qed.

Lemma videos_of_at p db l1 d l2 ids :
  find (matches (byId p)) l1 = None ->
  matches (byId p) d = true ->
  videos_of p (with_coll Playlist (l1 ++ set_field "videos" (VArr ids) d :: l2) db)
  = Some ids.
Proof.
  intros Hl1 Hd. unfold videos_of.
  pose proof (coll_with_coll_same Playlist
                (l1 ++ set_field "videos" (VArr ids) d :: l2) db) as Hc.
  cbn [coll] in Hc. rewrite Hc.
  rewrite (find_at _ l1 _ l2 Hl1).
  - now rewrite field_set_field_same.
  - unfold byId in *. rewrite (matches_id_ext _ d); [exact Hd|].
    apply field_set_field_other. discriminate.
Qed.

(** The owner adds a stored video to a stored playlist.  If the list of
    the playlist does not hold the video, the answer is 200, the video id is
    appended at the end of the list and nothing else in the store changes,
    in whichever spelling the request gives the id.  If the list holds the
    video, and after it has been added, the request that spells the id as
    [toString()] does is refused with 400 and nothing is written; one that
    spells it otherwise is answered 200, and the store is left as it is. *)
Theorem addVideoToPlaylist_appends_once caller p v vp db d ids vd :
  find (matches (byId p)) (playlists db) = Some d ->
  field "owner" d = Some (VId caller) ->
  field "videos" d = Some (VArr ids) ->
  find (matches (byId v)) (videos db) = Some vd ->
  vp = GoodId v \/ vp = AltId v ->
  (In (VId v) ids ->
   (vp = GoodId v ->
    addVideoToPlaylist caller (GoodId p) vp db
    = (inl (mkApiError 400 "Video is already in the playlist"), db))
   /\ (vp = AltId v ->
       exists r, addVideoToPlaylist caller (GoodId p) vp db = (inr r, db)
                 /\ status r = 200))
  /\ (~ In (VId v) ids ->
      exists r l1 l2,
        playlists db = l1 ++ d :: l2
        /\ addVideoToPlaylist caller (GoodId p) vp db
           = (inr r, with_coll Playlist
                       (l1 ++ set_field "videos" (VArr (ids ++ [VId v])) d :: l2) db)
        /\ status r = 200
        /\ videos_of p (snd (addVideoToPlaylist caller (GoodId p) vp db))
           = Some (ids ++ [VId v])
        /\ (vp = GoodId v ->
            addVideoToPlaylist caller (GoodId p) vp
              (snd (addVideoToPlaylist caller (GoodId p) vp db))
            = (inl (mkApiError 400 "Video is already in the playlist"),
               snd (addVideoToPlaylist caller (GoodId p) vp db)))
        /\ (vp = AltId v ->
            exists r',
              addVideoToPlaylist caller (GoodId p) vp
                (snd (addVideoToPlaylist caller (GoodId p) vp db))
              = (inr r', snd (addVideoToPlaylist caller (GoodId p) vp db))
              /\ status r' = 200)).
Proof.
  intros Hfind Ho Hids Hv Hvp.
  destruct (find_split _ _ _ Hfind) as (l1 & l2 & Hsplit & Hl1 & Hd).
  destruct (addVideoToPlaylist_run caller p v db l1 d l2 ids vd
              Hsplit Hl1 Hd Ho Hids Hv) as [Hdup Hadd].
  destruct (addVideoToPlaylist_alt_run caller p v db l1 d l2 ids vd
              Hsplit Hl1 Hd Ho Hids Hv) as [Hdup_alt Hadd_alt].
  split.
  { intros Hin. split; intros ->; [now apply Hdup | now apply Hdup_alt]. }
  intros Hnin.
  set (d' := set_field "videos" (VArr (ids ++ [VId v])) d).
  assert (Hd' : matches (byId p) d' = true).
  { unfold byId in *. rewrite (matches_id_ext _ d); [exact Hd|].
    apply field_set_field_other. discriminate. }
  assert (Ho' : field "owner" d' = Some (VId caller)).
  { unfold d'. rewrite field_set_field_other; [exact Ho | discriminate]. }
  assert (Hids' : field "videos" d' = Some (VArr (ids ++ [VId v])))
    by apply field_set_field_same.
  assert (Hin' : In (VId v) (ids ++ [VId v]))
    by (apply in_or_app; right; now left).
  assert (Hrun : exists r,
             addVideoToPlaylist caller (GoodId p) vp db
             = (inr r, with_coll Playlist (l1 ++ d' :: l2) db) /\ status r = 200)
    by (destruct Hvp as [-> | ->]; [now apply Hadd | now apply Hadd_alt]).
  destruct Hrun as (r & Hr & Hst).
  exists r, l1, l2. rewrite Hr. cbn [snd].
  split; [exact Hsplit|]. split; [reflexivity|]. split; [exact Hst|].
  split; [now apply videos_of_at|]. split; intros ->.
  - destruct (addVideoToPlaylist_run caller p v
                (with_coll Playlist (l1 ++ d' :: l2) db) l1 d' l2 (ids ++ [VId v]) vd
                (coll_with_coll_same Playlist _ db) Hl1 Hd' Ho' Hids' Hv) as [Hdup' _].
    now apply Hdup'.
  - destruct (addVideoToPlaylist_alt_run caller p v
                (with_coll Playlist (l1 ++ d' :: l2) db) l1 d' l2 (ids ++ [VId v]) vd
                (coll_with_coll_same Playlist _ db) Hl1 Hd' Ho' Hids' Hv) as [Hdup' _].
    now apply Hdup'.
Qed.

Lemma addVideoToPlaylist_appends_once_witness :
  addVideoToPlaylist alice (GoodId 20) (GoodId 10) sampleDb
  = (inl (mkApiError 400 "Video is already in the playlist"), sampleDb)
  /\ exists r, addVideoToPlaylist alice (GoodId 20) (AltId 10) sampleDb
               = (inr r, sampleDb) /\ status r = 200.
Proof.
  split.
  - destruct (addVideoToPlaylist_appends_once alice 20 10 (GoodId 10) sampleDb
                [("_id", VId 20); ("name", VStr "Mine"); ("description", VStr "my list");
                 ("videos", VArr [VId 10]); ("owner", VId alice); ("createdAt", VNum 3)]
                [VId 10] (sampleVideo 10 alice "First" 5 1)
                eq_refl eq_refl eq_refl eq_refl (or_introl eq_refl)) as [Hdup _].
    apply Hdup; [now left | reflexivity].
  - destruct (addVideoToPlaylist_appends_once alice 20 10 (AltId 10) sampleDb
                [("_id", VId 20); ("name", VStr "Mine"); ("description", VStr "my list");
                 ("videos", VArr [VId 10]); ("owner", VId alice); ("createdAt", VNum 3)]
                [VId 10] (sampleVideo 10 alice "First" 5 1)
                eq_refl eq_refl eq_refl eq_refl (or_intror eq_refl)) as [Hdup _].
    apply Hdup; [now left | reflexivity].
Defined.

(** The owner removes a video id from a stored playlist.  The answer is
    200 whether or not the id denotes a stored video; afterwards the list
    holds the other ids in their order and the removed id nowhere; when the
    id was not in the list the store is left exactly as it was. *)
Theorem removeVideoFromPlaylist_removes_all caller p v db d ids :
  find (matches (byId p)) (playlists db) = Some d ->
  field "owner" d = Some (VId caller) ->
  field "videos" d = Some (VArr ids) ->
  (exists r, fst (removeVideoFromPlaylist caller (GoodId p) (GoodId v) db) = inr r
             /\ status r = 200)
  /\ videos_of p (snd (removeVideoFromPlaylist caller (GoodId p) (GoodId v) db))
     = Some (filter (fun x => negb (value_eqb x (VId v))) ids)
  /\ ~ In (VId v) (filter (fun x => negb (value_eqb x (VId v))) ids)
  /\ (forall m, m <> Playlist ->
        coll m (snd (removeVideoFromPlaylist caller (GoodId p) (GoodId v) db))
        = coll m db)
  /\ (~ In (VId v) ids ->
      snd (removeVideoFromPlaylist caller (GoodId p) (GoodId v) db) = db).
Proof.
  intros Hfind Ho Hids.
  destruct (find_split _ _ _ Hfind) as (l1 & l2 & Hsplit & Hl1 & Hd).
  destruct (removeVideoFromPlaylist_run caller p v db l1 d l2 ids
              Hsplit Hl1 Hd Ho Hids) as (r & Hr & Hst).
  rewrite Hr. cbn [fst snd]. split; [now exists r|].
  split; [now apply videos_of_at|].
  split; [apply filter_without_not_in|]. split.
  - intros m Hm. now apply coll_with_coll_other.
  - intros Hnin. rewrite (filter_without_absent _ _ Hnin).
    rewrite (set_field_same_value _ _ _ Hids), <- Hsplit.
    exact (with_coll_same Playlist db).
Qed.

Lemma removeVideoFromPlaylist_removes_all_witness :
  videos_of 20 (snd (removeVideoFromPlaylist alice (GoodId 20) (GoodId 10) sampleDb))
  = Some []
  /\ snd (removeVideoFromPlaylist alice (GoodId 20) (GoodId 99) sampleDb) = sampleDb.
Proof.
  destruct (removeVideoFromPlaylist_removes_all alice 20 10 sampleDb _ [VId 10]
              eq_refl eq_refl eq_refl) as (_ & H1 & _).
  destruct (removeVideoFromPlaylist_removes_all alice 20 99 sampleDb _ [VId 10]
              eq_refl eq_refl eq_refl) as (_ & _ & _ & _ & H2).
  split; [exact H1 | apply H2].
  intros [H|[]]. discriminate.
Defined.

Lemma filter_without_appended v ids :
  ~ In v ids -> filter (fun x => negb (value_eqb x v)) (ids ++ [v]) = ids.
Proof.
  intros Hn. rewrite filter_app, (filter_without_absent _ _ Hn).
  cbn [filter]. rewrite value_eqb_refl. apply app_nil_r.
Qed.

(** Adding a video that the playlist does not hold and then removing it
    brings the store back to exactly what it was. *)
Theorem add_then_remove_restores caller p v db d ids vd :
  find (matches (byId p)) (playlists db) = Some d ->
  field "owner" d = Some (VId caller) ->
  field "videos" d = Some (VArr ids) ->
  find (matches (byId v)) (videos db) = Some vd ->
  ~ In (VId v) ids ->
  snd (removeVideoFromPlaylist caller (GoodId p) (GoodId v)
         (snd (addVideoToPlaylist caller (GoodId p) (GoodId v) db))) = db.
Proof.
  intros Hfind Ho Hids Hv Hnin.
  destruct (find_split _ _ _ Hfind) as (l1 & l2 & Hsplit & Hl1 & Hd).
  destruct (addVideoToPlaylist_run caller p v db l1 d l2 ids vd
              Hsplit Hl1 Hd Ho Hids Hv) as [_ Hadd].
  destruct (Hadd Hnin) as (r & Hr & _). rewrite Hr. cbn [snd].
  set (d' := set_field "videos" (VArr (ids ++ [VId v])) d).
  assert (Hd' : matches (byId p) d' = true).
  { unfold byId in *. rewrite (matches_id_ext _ d); [exact Hd|].
    apply field_set_field_other. discriminate. }
  assert (Ho' : field "owner" d' = Some (VId caller)).
  { unfold d'. rewrite field_set_field_other; [exact Ho | discriminate]. }
  assert (Hids' : field "videos" d' = Some (VArr (ids ++ [VId v])))
    by apply field_set_field_same.
  destruct (removeVideoFromPlaylist_run caller p v
              (with_coll Playlist (l1 ++ d' :: l2) db) l1 d' l2 (ids ++ [VId v])
              (coll_with_coll_same Playlist _ db) Hl1 Hd' Ho' Hids')
    as (r' & Hr' & _).
  rewrite Hr'. cbn [snd]. unfold d'.
  rewrite (filter_without_appended _ _ Hnin), set_field_twice.
  rewrite (set_field_same_value _ _ _ Hids), with_coll_twice, <- Hsplit.
  exact (with_coll_same Playlist db).
Qed.

Lemma add_then_remove_restores_witness :
  snd (removeVideoFromPlaylist alice (GoodId 20) (GoodId 11)
         (snd (addVideoToPlaylist alice (GoodId 20) (GoodId 11)
                 (with_coll Video [sampleVideo 10 alice "First" 5 1;
                                   sampleVideo 11 bob "Second" 0 8] sampleDb))))
  = with_coll Video [sampleVideo 10 alice "First" 5 1;
                     sampleVideo 11 bob "Second" 0 8] sampleDb.
Proof.
  apply (add_then_remove_restores alice 20 11 _
           [("_id", VId 20); ("name", VStr "Mine"); ("description", VStr "my list");
            ("videos", VArr [VId 10]); ("owner", VId alice); ("createdAt", VNum 3)]
           [VId 10] (sampleVideo 11 bob "Second" 0 8)); try reflexivity.
  intros [H|[]]. discriminate.
Defined.

Lemma In_dec_value (v : value) ids : {In v ids} + {~ In v ids}.
Proof.
  destruct (existsb (fun x => value_eqb x v) ids) eqn:E.
  - left. now apply existsb_value_eqb_In.
  - right. intros H. apply existsb_value_eqb_In in H. congruence.
Defined.

Lemma videos_of_inv p db ids :
  videos_of p db = Some ids ->
  exists d, find (matches (byId p)) (playlists db) = Some d
            /\ field "videos" d = Some (VArr ids).
Proof.
  unfold videos_of. destruct (find _ _) as [d|]; [|discriminate].
  destruct (field "videos" d) as [[| | | | |l|]|] eqn:E; try discriminate.
  intros H. injection H as ->. now exists d.
Qed.

(** Whoever calls and whatever video id is given, adding to or removing
    from a stored playlist whose list has no duplicate leaves a list with
    no duplicate. *)
Theorem playlist_stays_duplicate_free caller p v db ids :
  videos_of p db = Some ids ->
  NoDup ids ->
  (exists ids',
      videos_of p (snd (addVideoToPlaylist caller (GoodId p) v db)) = Some ids'
      /\ NoDup ids')
  /\ (exists ids',
      videos_of p (snd (removeVideoFromPlaylist caller (GoodId p) v db)) = Some ids'
      /\ NoDup ids').
Proof.
  intros Hvid Hnd.
  destruct (videos_of_inv _ _ _ Hvid) as (d & Hfind & Hids).
  destruct (find_split _ _ _ Hfind) as (l1 & l2 & Hsplit & Hl1 & Hd).
  assert (Hsame : forall (A : Type) (r : (ApiError + A) * Db),
             snd r = db ->
             exists ids', videos_of p (snd r) = Some ids' /\ NoDup ids').
  { intros A r ->. now exists ids. }
  unfold byId in Hfind. split.
  - assert (Hadded : forall vi, ~ In (VId vi) ids ->
               exists ids',
                 videos_of p (with_coll Playlist
                                (l1 ++ set_field "videos" (VArr (ids ++ [VId vi])) d
                                 :: l2) db) = Some ids'
                 /\ NoDup ids').
    { intros vi Hnin. exists (ids ++ [VId vi]). split; [now apply videos_of_at|].
      apply NoDup_app; [exact Hnd | constructor; [simpl; tauto | constructor] |].
      intros x Hx [<-|[]]. contradiction. }
    destruct v as [raw|vi|vi]; [apply Hsame; reflexivity| |];
      (destruct (find (matches (byId vi)) (videos db)) as [vd|] eqn:Hv;
       [|apply Hsame; run_handler; unfold byId in Hv; rewrite Hfind, Hv; reflexivity]);
      (destruct (field "owner" d) as [[| | | |o| |]|] eqn:Ho;
       try (apply Hsame; run_handler; unfold byId in Hv;
            rewrite Hfind, Hv, Ho; reflexivity));
      (destruct (o =? caller) eqn:Hoc;
       [apply Nat.eqb_eq in Hoc; subst o
       |apply Hsame; run_handler; unfold byId in Hv;
        rewrite Hfind, Hv, Ho, Hoc; reflexivity]).
    + destruct (addVideoToPlaylist_run caller p vi db l1 d l2 ids vd
                  Hsplit Hl1 Hd Ho Hids Hv) as [Hdup Hadd].
      destruct (In_dec_value (VId vi) ids) as [Hin|Hnin].
      * apply Hsame. now rewrite (Hdup Hin).
      * destruct (Hadd Hnin) as (r & Hr & _). rewrite Hr. cbn [snd].
        now apply Hadded.
    + destruct (addVideoToPlaylist_alt_run caller p vi db l1 d l2 ids vd
                  Hsplit Hl1 Hd Ho Hids Hv) as [Hdup Hadd].
      destruct (In_dec_value (VId vi) ids) as [Hin|Hnin].
      * apply Hsame. destruct (Hdup Hin) as (r & Hr & _). now rewrite Hr.
      * destruct (Hadd Hnin) as (r & Hr & _). rewrite Hr. cbn [snd].
        now apply Hadded.
  - assert (Hrun : forall vp vi, cast vp = VId vi ->
               removeVideoFromPlaylist caller (GoodId p) vp db
               = removeVideoFromPlaylist caller (GoodId p) (GoodId vi) db).
    { intros [raw|j|j] vi Hc; cbn [cast] in Hc; [discriminate | |];
        injection Hc as ->; reflexivity. }
    destruct v as [raw|vi|vi]; [apply Hsame; reflexivity| |];
      try rewrite (Hrun (AltId vi) vi eq_refl);
      (destruct (field "owner" d) as [[| | | |o| |]|] eqn:Ho;
       try (apply Hsame; run_handler; rewrite Hfind, Ho; reflexivity));
      (destruct (o =? caller) eqn:Hoc;
       [apply Nat.eqb_eq in Hoc; subst o
       |apply Hsame; run_handler; rewrite Hfind, Ho, Hoc; reflexivity]);
      destruct (removeVideoFromPlaylist_run caller p vi db l1 d l2 ids
                  Hsplit Hl1 Hd Ho Hids) as (r & Hr & _);
      rewrite Hr; cbn [snd]; (eexists; split; [now apply videos_of_at|]);
      now apply NoDup_filter.
Qed.

Lemma playlist_stays_duplicate_free_witness :
  exists ids',
    videos_of 20 (snd (addVideoToPlaylist alice (GoodId 20) (GoodId 10) sampleDb))
    = Some ids' /\ NoDup ids'.
Proof.
  assert (Hnd : NoDup [VId 10]) by (constructor; [simpl; tauto | constructor]).
  destruct (playlist_stays_duplicate_free alice 20 (GoodId 10) sampleDb [VId 10]
              eq_refl Hnd) as [H _].
  exact H.
Defined.

(* ------------------------------------------------------------------ *)
(** ** Counting views *)

Lemma getVideoById_store i db l1 d l2 n :
  videos db = l1 ++ d :: l2 ->
  find (matches (byId i)) l1 = None ->
  matches (byId i) d = true ->
  field "views" d = Some (VNum n) ->
  snd (getVideoById (GoodId i) db)
  = with_coll Video (l1 ++ set_field "views" (VNum (n + 1)) d :: l2) db.
Proof.
  unfold byId. intros Hsplit Hl1 Hd Hn.
  pose proof (find_at _ l1 d l2 Hl1 Hd) as Hfind. rewrite <- Hsplit in Hfind.
  pose proof (update_first_at _ (apply_update (UInc "views" 1)) l1 d l2 Hl1 Hd)
    as Hupd. rewrite <- Hsplit in Hupd.
  unfold getVideoById, bind, throw_if, findById, findOne, findByIdAndUpdate,
    aggregate, ret, throw.
  cbn [isValidObjectId negb cast coll].
  rewrite Hfind. cbv beta iota zeta. rewrite Hfind, Hupd.
  cbn [apply_update snd]. now rewrite Hn.
Qed.

Lemma fetch_times_at k : forall i db l1 d l2 n,
  videos db = l1 ++ d :: l2 ->
  find (matches (byId i)) l1 = None ->
  matches (byId i) d = true ->
  field "views" d = Some (VNum n) ->
  fetch_times k i db
  = with_coll Video (l1 ++ set_field "views" (VNum (n + Z.of_nat k)) d :: l2) db.
Proof.
  induction k as [|k IH]; intros i db l1 d l2 n Hsplit Hl1 Hd Hn.
  - cbn [fetch_times]. rewrite Z.add_0_r, (set_field_same_value _ _ _ Hn), <- Hsplit.
    symmetry. exact (with_coll_same Video db).
  - cbn [fetch_times].
    rewrite (getVideoById_store i db l1 d l2 n Hsplit Hl1 Hd Hn).
    rewrite (IH i _ l1 (set_field "views" (VNum (n + 1)) d) l2 (n + 1)%Z).
    + rewrite set_field_twice, with_coll_twice.
      replace (n + 1 + Z.of_nat k)%Z with (n + Z.of_nat (S k))%Z by lia.
      reflexivity.
    + apply (coll_with_coll_same Video).
    + exact Hl1.
    + unfold byId in *. rewrite (matches_id_ext _ d); [exact Hd|].
      apply field_set_field_other. discriminate.
    + apply field_set_field_same.
Qed.

(** [k] fetches of a stored video with a numeric view counter add exactly
    [k] to the counter; the other fields of the video, the other videos and
    the other collections are as they were at the start. *)
Theorem views_count_the_fetches k i db d n :
  find (matches (byId i)) (videos db) = Some d ->
  field "views" d = Some (VNum n) ->
  exists l1 l2 d',
    videos db = l1 ++ d :: l2
    /\ fetch_times k i db = with_coll Video (l1 ++ d' :: l2) db
    /\ find (matches (byId i)) (videos (fetch_times k i db)) = Some d'
    /\ field "views" d' = Some (VNum (n + Z.of_nat k))
    /\ (forall key, key <> "views" -> field key d' = field key d).
Proof.
  intros Hfind Hn.
  destruct (find_split _ _ _ Hfind) as (l1 & l2 & Hsplit & Hl1 & Hd).
  exists l1, l2, (set_field "views" (VNum (n + Z.of_nat k)) d).
  rewrite (fetch_times_at k i db l1 d l2 n Hsplit Hl1 Hd Hn).
  split; [exact Hsplit|]. split; [reflexivity|]. split; [|split].
  - pose proof (coll_with_coll_same Video
                  (l1 ++ set_field "views" (VNum (n + Z.of_nat k)) d :: l2) db) as Hc.
    cbn [coll] in Hc. rewrite Hc. apply find_at; [exact Hl1|].
    unfold byId in *. rewrite (matches_id_ext _ d); [exact Hd|].
    apply field_set_field_other. discriminate.
  - apply field_set_field_same.
  - intros key Hk. now apply field_set_field_other.
Qed.

Lemma views_count_the_fetches_witness :
  exists l1 l2 d',
    fetch_times 3 10 sampleDb = with_coll Video (l1 ++ d' :: l2) sampleDb
    /\ field "views" d' = Some (VNum 8).
Proof.
  destruct (views_count_the_fetches 3 10 sampleDb (sampleVideo 10 alice "First" 5 1) 5
              eq_refl eq_refl) as (l1 & l2 & d' & _ & H1 & _ & H2 & _).
  exists l1, l2, d'. split; [exact H1 | exact H2].
Defined.

(* ------------------------------------------------------------------ *)
(** ** Likes and the statistics of a channel *)

Lemma getChannelStats_value u db :
  getChannelStats u db
  = (inr (mkApiResponse 200
            (mkChannelStats
               (Z.of_nat (count (owned_by u) (videos db)))
               (sum_field "views" (filter (owned_by u) (videos db)))
               (Z.of_nat (count (matches (Fields [("channel", CEq (VId u))]))
                                (subscriptions db)))
               (Z.of_nat (count (on_video_of u db) (likes db)))
               (Z.of_nat (count (on_video_of u db) (comments db))))
            "Channel stats fetched successfully"), db).
Proof.
  assert (Hon : forall ds,
    count (on_video_of u db) ds
    = List.length (filter (matches (Fields [("video",
             CIn (nodup_values
                    (flat_map (fun d => match field "_id" d with
                                        | Some v => [v]
                                        | None => []
                                        end)
                              (filter (matches (Fields [("owner", CEq (VId u))]))
                                      (videos db)))))])) ds)).
  { intros ds. symmetry. apply (count_ext _ _ ds). intros d. apply in_owned_videos. }
  rewrite !Hon.
  unfold getChannelStats, bind, countDocuments, aggregate, distinct_ids, ret,
    run_pipeline, count.
  cbn [coll fold_left run_stage].
  change (owned_by u) with (matches (Fields [("owner", CEq (VId u))])).
  now destruct (filter (matches (Fields [("owner", CEq (VId u))])) (videos db)).
Qed.

Lemma count_cons (p : document -> bool) d ds :
  count p (d :: ds) = (if p d then 1 else 0) + count p ds.
Proof. unfold count. cbn [filter]. now destruct (p d). Qed.

Lemma toggle_frame t caller target db m :
  valid_triple t caller target db = true ->
  m <> edge_model t ->
  coll m (snd (run_toggle t caller (GoodId target) db)) = coll m db.
Proof.
  intros Hv Hm. rewrite (run_toggle_valid _ _ _ _ Hv).
  destruct (find (matches (edge_query t caller target)) (coll (edge_model t) db))
    as [e|] eqn:Hfind.
  - rewrite (toggle_core_present _ _ _ _ _ _ _ Hfind). cbn [snd].
    now apply delete_coll_other.
  - rewrite (toggle_core_absent _ _ _ _ _ _ Hfind). cbn [snd].
    rewrite coll_tick. now apply coll_with_coll_other.
Qed.

Lemma video_like_on_video_of owner liker v db vd e :
  In vd (videos db) ->
  field "_id" vd = Some (VId v) ->
  field "owner" vd = Some (VId owner) ->
  matches (edge_query VideoLikeToggle liker v) e = true ->
  on_video_of owner db e = true.
Proof.
  intros Hin Hid Ho Hm. unfold on_video_of. apply existsb_exists.
  exists vd. split; [exact Hin|].
  cbn in Hm. destruct (field "video" e) as [x|]; [|discriminate].
  apply andb_prop in Hm. destruct Hm as [Hx _].
  unfold owned_by. cbn. rewrite Ho, Hid. unfold value_matches at 1.
  cbn. now rewrite Nat.eqb_refl.
Qed.

(** A like toggled on a stored video moves the like count of the channel
    of its owner by exactly one: down when the like was there, up when it
    was not; the other four statistics of the owner stay as they were. *)
Theorem like_toggle_moves_totalLikes owner liker v db vd :
  find (matches (byId v)) (videos db) = Some vd ->
  field "_id" vd = Some (VId v) ->
  field "owner" vd = Some (VId owner) ->
  wf_coll (likes db) ->
  edge_count VideoLikeToggle liker v db <= 1 ->
  exists r r',
    getChannelStats owner db = (inr r, db)
    /\ getChannelStats owner (snd (toggleVideoLike liker (GoodId v) db))
       = (inr r', snd (toggleVideoLike liker (GoodId v) db))
    /\ totalLikes (data r')
       = (totalLikes (data r)
          + (if present VideoLikeToggle liker v db then -1 else 1))%Z
    /\ totalVideos (data r') = totalVideos (data r)
    /\ totalViews (data r') = totalViews (data r)
    /\ totalSubscribers (data r') = totalSubscribers (data r)
    /\ totalComments (data r') = totalComments (data r).
Proof.
  intros Hfind Hid Ho Hwf Hone.
  assert (Hv : valid_triple VideoLikeToggle liker v db = true).
  { unfold valid_triple, byId in *. cbn [target_model coll]. now rewrite Hfind. }
  assert (Hin : In vd (videos db)) by (apply find_some in Hfind; tauto).
  change (toggleVideoLike liker (GoodId v) db)
    with (run_toggle VideoLikeToggle liker (GoodId v) db).
  set (db' := snd (run_toggle VideoLikeToggle liker (GoodId v) db)).
  assert (Hvid : videos db' = videos db)
    by (apply (toggle_frame VideoLikeToggle liker v db Video Hv); discriminate).
  assert (Hsub : subscriptions db' = subscriptions db)
    by (apply (toggle_frame VideoLikeToggle liker v db Subscription Hv); discriminate).
  assert (Hcom : comments db' = comments db)
    by (apply (toggle_frame VideoLikeToggle liker v db Comment Hv); discriminate).
  assert (Hon : forall l, on_video_of owner db' l = on_video_of owner db l)
    by (intros l; unfold on_video_of; now rewrite Hvid).
  do 2 eexists. rewrite !getChannelStats_value.
  split; [reflexivity|]. split; [reflexivity|].
  cbn [data totalLikes totalVideos totalViews totalSubscribers totalComments].
  rewrite Hvid, Hsub, Hcom.
  rewrite (count_ext _ _ (comments db) Hon), (count_ext _ _ (likes db') Hon).
  split; [|repeat split].
  destruct (toggle_step VideoLikeToggle liker v db Hv Hwf Hone)
    as (_ & _ & _ & _ & Hpresent & Habsent).
  cbv zeta in Hpresent, Habsent. cbn [edge_model coll] in Hpresent, Habsent.
  fold db' in Hpresent, Habsent.
  destruct (present VideoLikeToggle liker v db).
  - destruct (Hpresent eq_refl) as (_ & l1 & e & l2 & Hb & Hm & Ha).
    rewrite Ha, Hb, !count_app, count_cons.
    rewrite (video_like_on_video_of owner liker v db vd e Hin Hid Ho Hm). lia.
  - destruct (Habsent eq_refl) as (_ & e & Hm & Ha).
    rewrite Ha, count_app, count_cons.
    rewrite (video_like_on_video_of owner liker v db vd e Hin Hid Ho Hm).
    unfold count at 2. cbn [filter List.length]. lia.
Qed.

Lemma like_toggle_moves_totalLikes_witness :
  exists r r',
    getChannelStats alice sampleDb = (inr r, sampleDb)
    /\ getChannelStats alice (snd (toggleVideoLike bob (GoodId 10) sampleDb))
       = (inr r', snd (toggleVideoLike bob (GoodId 10) sampleDb))
    /\ totalLikes (data r') = (totalLikes (data r) + -1)%Z.
Proof.
  assert (Hwf : wf_coll (likes sampleDb)) by (apply wf_collb_sound; reflexivity).
  assert (Hone : edge_count VideoLikeToggle bob 10 sampleDb <= 1)
    by (vm_compute; lia).
  destruct (like_toggle_moves_totalLikes alice bob 10 sampleDb
              (sampleVideo 10 alice "First" 5 1) eq_refl eq_refl eq_refl Hwf Hone)
    as (r & r' & H1 & H2 & H3 & _).
  exists r, r'. split; [exact H1 | split; [exact H2 | exact H3]].
Defined.

(* ------------------------------------------------------------------ *)
(** ** Creating *)

Lemma find_fresh_none ds :
  Forall has_id ds -> find (matches (byId (fresh_id ds))) ds = None.
Proof.
  intros Hf. destruct (find _ ds) as [d|] eqn:E; [|reflexivity].
  pose proof (find_byId_has_id _ _ _ Hf E) as Hid.
  apply find_some in E. destruct E as [Hin _].
  pose proof (fresh_id_above ds d _ Hin Hid). lia.
Qed.

Lemma new_doc_matches_fresh m fields db :
  matches (byId (fresh_id (coll m db))) (new_doc m fields db) = true.
Proof. unfold byId, new_doc. cbn. unfold value_matches. cbn. now rewrite Nat.eqb_refl. Qed.

Lemma find_last_some (p : document -> bool) ds d :
  p d = true -> exists d', find p (ds ++ [d]) = Some d'.
Proof.
  intros Hd. induction ds as [|x ds IH]; simpl.
  - rewrite Hd. now exists d.
  - destruct (p x); [now exists x | exact IH].
Qed.

Lemma create_then_find m fields db :
  Forall has_id (coll m db) ->
  find (matches (byId (fresh_id (coll m db)))) (coll m db ++ [new_doc m fields db])
  = Some (new_doc m fields db).
Proof.
  intros Hf. rewrite (find_app_none _ _ _ (find_fresh_none _ Hf)).
  cbn [find]. now rewrite new_doc_matches_fresh.
Qed.

Lemma publishAVideo_created caller t d videoUrl duration thumbnailUrl db :
  t <> "" -> d <> "" ->
  exists r,
    publishAVideo caller (Some t) (Some d)
      (Some (Some (videoUrl, duration))) (Some (Some thumbnailUrl)) db
    = (inr r,
       tick (with_coll Video
               (videos db
                ++ [new_doc Video
                      (published_fields caller t d videoUrl thumbnailUrl duration) db])
               db))
    /\ status r = 201
    /\ message r = "Video published successfully"
    /\ (Forall has_id (videos db) ->
        data r = Some (new_doc Video
                         (published_fields caller t d videoUrl thumbnailUrl duration)
                         db)).
Proof.
  intros Et Ed. apply String.eqb_neq in Et, Ed.
  unfold publishAVideo, bind, throw_if, ret, throw. cbn [truthy].
  rewrite Et, Ed. cbn [negb andb].
  unfold create, findById, findOne.
  fold (published_fields caller t d videoUrl thumbnailUrl duration).
  fold (new_doc Video (published_fields caller t d videoUrl thumbnailUrl duration) db).
  set (new := new_doc Video
                (published_fields caller t d videoUrl thumbnailUrl duration) db).
  rewrite !coll_tick, !coll_with_coll_same. cbn [coll].
  assert (Hid : id_of new = VId (fresh_id (videos db))) by reflexivity.
  rewrite Hid.
  pose proof (new_doc_matches_fresh Video
                (published_fields caller t d videoUrl thumbnailUrl duration) db)
    as Hm. cbn [coll] in Hm. fold new in Hm. unfold byId in Hm.
  destruct (find_last_some _ (videos db) new Hm) as [d' Hd'].
  rewrite Hd'. eexists.
  split; [reflexivity|]. split; [reflexivity|]. split; [reflexivity|].
  intros Hf. cbn [data].
  pose proof (create_then_find Video
                (published_fields caller t d videoUrl thumbnailUrl duration) db Hf)
    as Hfind.
  cbn [coll] in Hfind. fold new in Hfind. unfold byId in Hfind.
  rewrite Hd' in Hfind. exact Hfind.
Qed.

(** [publishAVideo], check by check.  Without a title and a description
    that are not empty the answer is 400; with them, a missing video file,
    then a missing thumbnail, then a failed upload of the video, then a
    failed upload of the thumbnail are each answered 400 with their message;
    nothing is written in any of these cases.  Every other request is
    answered 201 and appends one video to the collection, owned by the
    caller and published, with the two urls, the title, the description and
    the duration (0 when the upload gives none); nothing else is written but
    the clock, and in a collection whose documents carry ids the answer
    holds that new video. *)
Theorem publishAVideo_outcome caller title description videoFile thumbnail db :
  (truthy title && truthy description = false ->
   publishAVideo caller title description videoFile thumbnail db
   = (inl (mkApiError 400 "Title and description are required"), db))
  /\ (truthy title && truthy description = true ->
      (videoFile = None ->
       publishAVideo caller title description videoFile thumbnail db
       = (inl (mkApiError 400 "Video file is required"), db))
      /\ (videoFile <> None -> thumbnail = None ->
          publishAVideo caller title description videoFile thumbnail db
          = (inl (mkApiError 400 "Thumbnail is required"), db))
      /\ (videoFile = Some None -> thumbnail <> None ->
          publishAVideo caller title description videoFile thumbnail db
          = (inl (mkApiError 400 "Video file upload failed"), db))
      /\ (forall uploaded, videoFile = Some (Some uploaded) ->
          thumbnail = Some None ->
          publishAVideo caller title description videoFile thumbnail db
          = (inl (mkApiError 400 "Thumbnail upload failed"), db))
      /\ (forall videoUrl duration thumbnailUrl,
          videoFile = Some (Some (videoUrl, duration)) ->
          thumbnail = Some (Some thumbnailUrl) ->
          exists r,
            publishAVideo caller title description videoFile thumbnail db
            = (inr r,
               tick (with_coll Video
                       (videos db
                        ++ [new_doc Video
                              (published_fields caller (given title)
                                 (given description) videoUrl thumbnailUrl duration)
                              db]) db))
            /\ status r = 201
            /\ (Forall has_id (videos db) ->
                data r = Some (new_doc Video
                                 (published_fields caller (given title)
                                    (given description) videoUrl thumbnailUrl
                                    duration) db)))).
Proof.
  split.
  - intros H. unfold publishAVideo, bind, throw_if, throw. now rewrite H.
  - intros H. split; [|split; [|split; [|split]]].
    + intros ->. unfold publishAVideo, bind, throw_if, throw, ret. now rewrite H.
    + intros Hv ->. unfold publishAVideo, bind, throw_if, throw, ret. rewrite H.
      now destruct videoFile as [[?|]|].
    + intros -> Ht. unfold publishAVideo, bind, throw_if, throw, ret. rewrite H.
      now destruct thumbnail as [[?|]|].
    + intros [videoUrl duration] -> ->.
      unfold publishAVideo, bind, throw_if, throw, ret. now rewrite H.
    + intros videoUrl duration thumbnailUrl -> ->.
      apply andb_prop in H. destruct H as [Ht Hd].
      destruct title as [t|]; [|discriminate Ht].
      destruct description as [d|]; [|discriminate Hd].
      cbn [truthy] in Ht, Hd. apply negb_true_iff, String.eqb_neq in Ht, Hd.
      cbn [given].
      destruct (publishAVideo_created caller t d videoUrl duration thumbnailUrl db
                  Ht Hd) as (r & Hr & Hst & _ & Hdata).
      now exists r.
Qed.

Lemma publishAVideo_run caller t d videoUrl duration thumbnailUrl db :
  t <> "" -> d <> "" ->
  snd (publishAVideo caller (Some t) (Some d)
         (Some (Some (videoUrl, duration))) (Some (Some thumbnailUrl)) db)
  = tick (with_coll Video
            (videos db
             ++ [new_doc Video
                   (published_fields caller t d videoUrl thumbnailUrl duration) db])
            db).
Proof.
  intros Ht Hd. apply String.eqb_neq in Ht, Hd.
  unfold publishAVideo, bind, throw_if, ret, throw, create, findById, findOne.
  cbn [truthy]. rewrite Ht, Hd. cbn [negb andb].
  now destruct (find _ _).
Qed.

Ltac run_delete l2 Hsplit Hl1 Hd Ho :=
  unfold byId in *;
  let Hfind := fresh "Hfind" in
  let Hrem := fresh "Hrem" in
  pose proof (find_at _ _ _ l2 Hl1 Hd) as Hfind; rewrite <- Hsplit in Hfind;
  pose proof (remove_first_at _ _ _ l2 Hl1 Hd) as Hrem; rewrite <- Hsplit in Hrem;
  run_handler; rewrite Hfind, Ho, Nat.eqb_refl; cbn [negb];
  unfold findByIdAndDelete; cbn [coll]; rewrite Hfind, Hrem; reflexivity.

Lemma deleteVideo_run caller i db l1 d l2 :
  videos db = l1 ++ d :: l2 ->
  find (matches (byId i)) l1 = None ->
  matches (byId i) d = true ->
  field "owner" d = Some (VId caller) ->
  deleteVideo caller (GoodId i) db
  = (inr (mkApiResponse 200 [] "Video deleted successfully"),
     with_coll Video (l1 ++ l2) db).
Proof. intros Hsplit Hl1 Hd Ho. run_delete l2 Hsplit Hl1 Hd Ho. Qed.

Lemma deleteTweet_run caller i db l1 d l2 :
  tweets db = l1 ++ d :: l2 ->
  find (matches (byId i)) l1 = None ->
  matches (byId i) d = true ->
  field "owner" d = Some (VId caller) ->
  deleteTweet caller (GoodId i) db
  = (inr (mkApiResponse 200 [] "Tweet deleted successfully"),
     with_coll Tweet (l1 ++ l2) db).
Proof. intros Hsplit Hl1 Hd Ho. run_delete l2 Hsplit Hl1 Hd Ho. Qed.

Lemma deletePlaylist_run caller i db l1 d l2 :
  playlists db = l1 ++ d :: l2 ->
  find (matches (byId i)) l1 = None ->
  matches (byId i) d = true ->
  field "owner" d = Some (VId caller) ->
  deletePlaylist caller (GoodId i) db
  = (inr (mkApiResponse 200 [] "Playlist deleted successfully"),
     with_coll Playlist (l1 ++ l2) db).
Proof. intros Hsplit Hl1 Hd Ho. run_delete l2 Hsplit Hl1 Hd Ho. Qed.

Lemma forbidden_run m i db d o caller :
  find (matches (byId i)) (coll m db) = Some d ->
  field "owner" d = Some (VId o) -> o <> caller ->
  (m = Video ->
   exists msg, deleteVideo caller (GoodId i) db = (inl (mkApiError 403 msg), db))
  /\ (m = Tweet ->
      exists msg, deleteTweet caller (GoodId i) db = (inl (mkApiError 403 msg), db))
  /\ (m = Playlist ->
      exists msg, deletePlaylist caller (GoodId i) db = (inl (mkApiError 403 msg), db)).
Proof.
  unfold byId. intros Hfind Ho Hne. apply Nat.eqb_neq in Hne.
  repeat split; intros ->; cbn [coll] in Hfind; run_handler;
    rewrite Hfind, Ho, Hne; eexists; reflexivity.
Qed.

(** A video just published can be deleted by the caller who published it,
    which brings the video collection back to what it was before the
    publication; any other caller is refused with 403. *)
Theorem publish_then_delete caller t d videoUrl duration thumbnailUrl db :
  t <> "" -> d <> "" ->
  Forall has_id (videos db) ->
  let db1 := snd (publishAVideo caller (Some t) (Some d)
                    (Some (Some (videoUrl, duration))) (Some (Some thumbnailUrl)) db) in
  let i := fresh_id (videos db) in
  (exists r, deleteVideo caller (GoodId i) db1 = (inr r, with_coll Video (videos db) db1)
             /\ status r = 200)
  /\ (forall other, other <> caller ->
        exists msg, deleteVideo other (GoodId i) db1 = (inl (mkApiError 403 msg), db1)).
Proof.
  intros Ht Hd Hf db1 i. subst db1 i.
  rewrite (publishAVideo_run caller t d videoUrl duration thumbnailUrl db Ht Hd).
  set (new := new_doc Video
                (published_fields caller t d videoUrl thumbnailUrl duration) db).
  set (db1 := tick (with_coll Video (videos db ++ [new]) db)).
  assert (Hvid : videos db1 = videos db ++ [new]).
  { unfold db1. pose proof (coll_tick Video (with_coll Video (videos db ++ [new]) db)) as H.
    rewrite coll_with_coll_same in H. exact H. }
  pose proof (find_fresh_none _ Hf) as Hl1.
  pose proof (new_doc_matches_fresh Video
                (published_fields caller t d videoUrl thumbnailUrl duration) db) as Hm.
  cbn [coll] in Hm. fold new in Hm.
  split.
  - rewrite (deleteVideo_run caller _ db1 (videos db) new [] Hvid Hl1 Hm eq_refl).
    rewrite app_nil_r. eexists. split; reflexivity.
  - intros other Hne.
    assert (Hfind : find (matches (byId (fresh_id (videos db)))) (coll Video db1)
                    = Some new).
    { cbn [coll]. rewrite Hvid. now apply find_at. }
    destruct (forbidden_run Video _ db1 new caller other Hfind eq_refl
                ltac:(congruence)) as [H _].
    now apply H.
Qed.

Lemma publish_then_delete_witness :
  exists r,
    deleteVideo bob (GoodId 11)
      (snd (publishAVideo bob (Some "Second") (Some "another")
              (Some (Some ("v.mp4", Some 12%Z))) (Some (Some "t.png")) sampleDb))
    = (inr r, with_coll Video (videos sampleDb)
                (snd (publishAVideo bob (Some "Second") (Some "another")
                        (Some (Some ("v.mp4", Some 12%Z))) (Some (Some "t.png"))
                        sampleDb)))
    /\ status r = 200.
Proof.
  assert (Hf : Forall has_id (videos sampleDb))
    by (apply (wf_collb_sound (videos sampleDb)); reflexivity).
  assert (Ht : "Second" <> "") by discriminate.
  assert (Hd : "another" <> "") by discriminate.
  destruct (publish_then_delete bob "Second" "another" "v.mp4" (Some 12%Z) "t.png"
              sampleDb Ht Hd Hf) as [H _].
  exact H.
Defined.

(** [createTweet] refuses a content that is missing, empty or blank with
    400 and writes nothing.  Otherwise it answers 201 and appends one tweet
    with the trimmed content, owned by the caller; the author can then
    delete it, which brings the tweet collection back to what it was. *)
Theorem createTweet_outcome caller content db :
  (blank content = true ->
   createTweet caller content db
   = (inl (mkApiError 400 "Tweet content is required"), db))
  /\ (blank content = false ->
      Forall has_id (tweets db) ->
      exists c r r',
        content = Some c
        /\ createTweet caller content db
           = (inr r,
              tick (with_coll Tweet
                      (tweets db
                       ++ [new_doc Tweet [("content", VStr (trim c));
                                          ("owner", VId caller)] db]) db))
        /\ status r = 201
        /\ deleteTweet caller (GoodId (fresh_id (tweets db)))
             (snd (createTweet caller content db))
           = (inr r', with_coll Tweet (tweets db) (snd (createTweet caller content db)))
        /\ status r' = 200).
Proof.
  split.
  - intros Hb. unfold createTweet, bind, throw_if, throw. now rewrite Hb.
  - intros Hb Hf. destruct content as [c|]; [|discriminate].
    set (new := new_doc Tweet [("content", VStr (trim c)); ("owner", VId caller)] db).
    set (db1 := tick (with_coll Tweet (tweets db ++ [new]) db)).
    assert (Hrun : exists r, createTweet caller (Some c) db = (inr r, db1)
                             /\ status r = 201).
    { unfold createTweet, bind, throw_if, ret, throw, create, findById, findOne,
        populate_owner.
      rewrite Hb. eexists. split; reflexivity. }
    destruct Hrun as (r & Hr & Hst).
    assert (Htw : tweets db1 = tweets db ++ [new]).
    { unfold db1.
      pose proof (coll_tick Tweet (with_coll Tweet (tweets db ++ [new]) db)) as H.
      rewrite coll_with_coll_same in H. exact H. }
    pose proof (find_fresh_none _ Hf) as Hl1.
    pose proof (new_doc_matches_fresh Tweet
                  [("content", VStr (trim c)); ("owner", VId caller)] db) as Hm.
    cbn [coll] in Hm. fold new in Hm.
    exists c. exists r. eexists.
    split; [reflexivity|]. split; [exact Hr|]. split; [exact Hst|].
    rewrite Hr. cbn [snd].
    rewrite (deleteTweet_run caller _ db1 (tweets db) new [] Htw Hl1 Hm eq_refl).
    rewrite app_nil_r. split; reflexivity.
Qed.

Lemma createTweet_outcome_witness :
  createTweet bob (Some (" " ++ nbsp ++ em_space)%string) sampleDb
  = (inl (mkApiError 400 "Tweet content is required"), sampleDb).
Proof.
  destruct (createTweet_outcome bob (Some (" " ++ nbsp ++ em_space)%string) sampleDb)
    as [H _].
  apply H. reflexivity.
Defined.

(** [createPlaylist] refuses a blank name, then a blank description, with
    400 and writes nothing.  Otherwise it answers 201 and appends one
    playlist with the trimmed name and description, owned by the caller;
    the owner can then add a stored video to it, after which its list holds
    exactly that video. *)
Theorem createPlaylist_outcome caller name description db :
  (blank name = true ->
   createPlaylist caller name description db
   = (inl (mkApiError 400 "Playlist name is required"), db))
  /\ (blank name = false -> blank description = true ->
      createPlaylist caller name description db
      = (inl (mkApiError 400 "Playlist description is required"), db))
  /\ (blank name = false -> blank description = false ->
      exists n d r,
        name = Some n /\ description = Some d
        /\ createPlaylist caller name description db
           = (inr r,
              tick (with_coll Playlist
                      (playlists db
                       ++ [new_doc Playlist [("name", VStr (trim n));
                                             ("description", VStr (trim d));
                                             ("owner", VId caller)] db]) db))
        /\ status r = 201
        /\ (Forall has_id (playlists db) ->
            forall v vd,
              find (matches (byId v)) (videos db) = Some vd ->
              (exists r', fst (addVideoToPlaylist caller
                                 (GoodId (fresh_id (playlists db))) (GoodId v)
                                 (snd (createPlaylist caller name description db)))
                          = inr r' /\ status r' = 200)
              /\ videos_of (fresh_id (playlists db))
                   (snd (addVideoToPlaylist caller
                           (GoodId (fresh_id (playlists db))) (GoodId v)
                           (snd (createPlaylist caller name description db))))
                 = Some [VId v])).
Proof.
  split; [|split].
  - intros Hb. unfold createPlaylist, bind, throw_if, throw. now rewrite Hb.
  - intros Hn Hb. unfold createPlaylist, bind, throw_if, throw, ret.
    now rewrite Hn, Hb.
  - intros Hn Hd. destruct name as [n|]; [|discriminate].
    destruct description as [d|]; [|discriminate].
    set (new := new_doc Playlist [("name", VStr (trim n));
                                  ("description", VStr (trim d));
                                  ("owner", VId caller)] db).
    set (db1 := tick (with_coll Playlist (playlists db ++ [new]) db)).
    assert (Hrun : exists r, createPlaylist caller (Some n) (Some d) db = (inr r, db1)
                             /\ status r = 201).
    { unfold createPlaylist, bind, throw_if, ret, throw, create, findById, findOne,
        populate_owner.
      rewrite Hn, Hd. eexists. split; reflexivity. }
    destruct Hrun as (r & Hr & Hst).
    exists n, d, r.
    split; [reflexivity|]. split; [reflexivity|]. split; [exact Hr|].
    split; [exact Hst|].
    intros Hf v vd Hv. rewrite Hr. cbn [snd].
    assert (Hpl : playlists db1 = playlists db ++ [new]).
    { unfold db1.
      pose proof (coll_tick Playlist (with_coll Playlist (playlists db ++ [new]) db))
        as H.
      rewrite coll_with_coll_same in H. exact H. }
    assert (Hvid : videos db1 = videos db) by reflexivity.
    pose proof (find_fresh_none _ Hf) as Hl1.
    pose proof (new_doc_matches_fresh Playlist
                  [("name", VStr (trim n)); ("description", VStr (trim d));
                   ("owner", VId caller)] db) as Hm.
    cbn [coll] in Hm. fold new in Hm.
    pose proof (find_at _ _ new [] Hl1 Hm) as Hfind. rewrite <- Hpl in Hfind.
    pose proof (update_first_at _
                  (apply_update (UAddToSet "videos" (VId v))) _ new [] Hl1 Hm) as Hupd.
    rewrite <- Hpl in Hupd.
    assert (Hadd : exists r',
               addVideoToPlaylist caller (GoodId (fresh_id (playlists db))) (GoodId v) db1
               = (inr r', with_coll Playlist
                            (playlists db ++ [set_field "videos" (VArr [VId v]) new]) db1)
               /\ status r' = 200).
    { assert (Ho : field "owner" new = Some (VId caller)) by reflexivity.
      assert (Hnone : field "videos" new = None) by reflexivity.
      unfold byId in *. run_handler. rewrite Hfind, Hvid, Hv, Ho, Nat.eqb_refl.
      cbn [negb]. unfold includes_param, includes. rewrite Hnone.
      unfold findByIdAndUpdate, populate_owner. cbn [coll].
      rewrite Hfind, Hupd. cbn [apply_update]. rewrite Hnone.
      eexists. split; reflexivity. }
    destruct Hadd as (r' & Hr' & Hst'). rewrite Hr'. cbn [fst snd].
    split; [now exists r'|].
    apply (videos_of_at _ db1 (playlists db) new [] [VId v] Hl1 Hm).
Qed.

Lemma createPlaylist_outcome_witness :
  createPlaylist bob (Some "Mix") (Some nbsp) sampleDb
  = (inl (mkApiError 400 "Playlist description is required"), sampleDb).
Proof.
  destruct (createPlaylist_outcome bob (Some "Mix") (Some nbsp) sampleDb)
    as (_ & H & _).
  apply H; reflexivity.
Defined.

(* ------------------------------------------------------------------ *)
(** ** Failures and deletions *)

Ltac guard_cases caller :=
  match goal with
  | |- context [find ?p ?l] =>
      let d := fresh "d" in
      let o := fresh "o" in
      let Hfind := fresh "Hfind" in
      destruct (find p l) as [d|] eqn:Hfind; cbn [outcome fst snd];
      [|intros; reflexivity];
      destruct (field "owner" d) as [[| | | |o| |]|]; cbn [outcome fst snd];
      try (intros; reflexivity);
      destruct (Nat.eqb o caller); cbn [negb outcome fst snd];
      try (intros; reflexivity);
      rewrite ?Hfind; cbn [outcome fst snd]
  end.

(** A handler that changes or deletes a video, a tweet or a playlist and
    ends in an error has written nothing: the store is exactly as before. *)
Theorem failed_mutation_writes_nothing caller mu db e :
  fst (run_mutation caller mu db) = Some e ->
  snd (run_mutation caller mu db) = db.
Proof.
  destruct mu as [j title description file|j|j|j content|j|j v|j v|j|j name description];
    cbn [run_mutation]; run_handler;
    unfold findByIdAndUpdate, findByIdAndDelete, populate_owner;
    cbn [coll];
    (destruct (isValidObjectId j); cbn [negb outcome fst snd orb];
     [|intros; reflexivity]).
  - guard_cases caller.
    destruct file as [[url|]|]; cbn [outcome fst snd];
      rewrite ?Hfind; cbn [outcome fst snd];
      try (intros; reflexivity); discriminate.
  - guard_cases caller. discriminate.
  - guard_cases caller. discriminate.
  - destruct (blank content); cbn [outcome fst snd]; [intros; reflexivity|].
    guard_cases caller. discriminate.
  - guard_cases caller. discriminate.
  - destruct (isValidObjectId v); cbn [negb outcome fst snd];
      [|intros; reflexivity].
    destruct (find _ (playlists db)) as [d|] eqn:Hfind; cbn [outcome fst snd];
      [|intros; reflexivity].
    destruct (find _ (videos db)); cbn [outcome fst snd]; [|intros; reflexivity].
    destruct (field "owner" d) as [[| | | |o| |]|]; cbn [outcome fst snd];
      try (intros; reflexivity).
    destruct (o =? caller); cbn [negb outcome fst snd]; try (intros; reflexivity).
    destruct (includes_param d "videos" v); cbn [outcome fst snd];
      [intros; reflexivity|].
    rewrite Hfind. discriminate.
  - destruct (isValidObjectId v); cbn [negb outcome fst snd];
      [|intros; reflexivity].
    guard_cases caller. discriminate.
  - guard_cases caller. discriminate.
  - guard_cases caller.
    destruct name as [n|], description as [ds|]; cbn [blank];
      repeat match goal with
             | |- context [String.eqb ?a "" || String.eqb ?b ""] =>
                 destruct (String.eqb a "" || String.eqb b "")
             end; cbn [negb app outcome fst snd]; rewrite ?Hfind;
      cbn [outcome fst snd]; try (intros; reflexivity); discriminate.
Qed.

Lemma failed_mutation_writes_nothing_witness :
  snd (run_mutation bob (UpdateVideo (GoodId 10) (Some "Mine now") None None) sampleDb)
  = sampleDb.
Proof.
  apply (failed_mutation_writes_nothing bob
           (UpdateVideo (GoodId 10) (Some "Mine now") None None) sampleDb
           (mkApiError 403 "You can only update your own videos")).
  reflexivity.
Defined.

Lemma find_removed_none i l1 d l2 :
  wf_coll (l1 ++ d :: l2) ->
  matches (byId i) d = true ->
  find (matches (byId i)) l1 = None ->
  find (matches (byId i)) (l1 ++ l2) = None.
Proof.
  intros Hwf Hd Hl1.
  pose proof (count_byId_le_one _ i Hwf) as Hle.
  rewrite count_app, count_cons, Hd in Hle.
  rewrite (find_app_none _ _ _ Hl1). apply find_none_count. lia.
Qed.

Ltac delete_inv caller :=
  run_handler;
  match goal with
  | |- context [isValidObjectId ?j] =>
      let raw := fresh "raw" in
      let i := fresh "i" in
      destruct j as [raw|i|i]; cbn [isValidObjectId negb cast outcome fst];
      [discriminate| |];
      match goal with
      | |- context [find ?p ?l] =>
          let d := fresh "d" in
          let o := fresh "o" in
          let Hfind := fresh "Hfind" in
          let Ho := fresh "Ho" in
          let Hoc := fresh "Hoc" in
          destruct (find p l) as [d|] eqn:Hfind; cbn [outcome fst];
          [|discriminate];
          destruct (field "owner" d) as [[| | | |o| |]|] eqn:Ho; cbn [outcome fst];
          try discriminate;
          destruct (Nat.eqb o caller) eqn:Hoc; cbn [negb outcome fst];
          try discriminate;
          apply Nat.eqb_eq in Hoc; subst o; intros _;
          exists i, d; repeat split; assumption
      end
  end.

Lemma delete_success_inv caller mu db :
  is_delete mu = true ->
  fst (run_mutation caller mu db) = None ->
  exists i d,
    cast (snd (mutated mu)) = VId i
    /\ find (matches (byId i)) (coll (fst (mutated mu)) db) = Some d
    /\ field "owner" d = Some (VId caller).
Proof.
  unfold byId.
  destruct mu as [j title description file|j|j|j content|j|j v|j v|j|j name description];
    try discriminate; intros _; cbn [run_mutation mutated fst snd coll];
    delete_inv caller.
Qed.

Lemma cast_spelling j i : cast j = VId i -> j = GoodId i \/ j = AltId i.
Proof.
  destruct j as [raw|k|k]; cbn [cast]; intros H;
    [discriminate | injection H as ->; now left | injection H as ->; now right].
Qed.

(** After a successful delete of a video, a tweet or a playlist in a
    collection with unique ids, the same delete asked again, by anyone, is
    answered 404 and writes nothing. *)
Theorem delete_is_final caller caller' mu db :
  is_delete mu = true ->
  wf_coll (coll (fst (mutated mu)) db) ->
  fst (run_mutation caller mu db) = None ->
  exists msg,
    run_mutation caller' mu (snd (run_mutation caller mu db))
    = (Some (mkApiError 404 msg), snd (run_mutation caller mu db)).
Proof.
  intros Hdel Hwf Hok.
  destruct (delete_success_inv caller mu db Hdel Hok) as (i & d & Hi & Hfind & Ho).
  destruct (find_split _ _ _ Hfind) as (l1 & l2 & Hsplit & Hl1 & Hd).
  rewrite Hsplit in Hwf.
  pose proof (find_removed_none i l1 d l2 Hwf Hd Hl1) as Hgone. unfold byId in Hgone.
  destruct mu as [j title description file|j|j|j content|j|j v|j v|j|j name description];
    try discriminate; cbn [mutated fst snd coll run_mutation] in *;
    (destruct (cast_spelling _ _ Hi) as [-> | ->]).
  1, 2: try change (deleteVideo caller (AltId i) db)
          with (deleteVideo caller (GoodId i) db);
    rewrite (deleteVideo_run caller i db l1 d l2 Hsplit Hl1 Hd Ho); cbn [outcome snd];
    run_handler; pose proof (coll_with_coll_same Video (l1 ++ l2) db) as Hc;
    cbn [coll] in Hc; rewrite Hc, Hgone; eexists; reflexivity.
  1, 2: try change (deleteTweet caller (AltId i) db)
          with (deleteTweet caller (GoodId i) db);
    rewrite (deleteTweet_run caller i db l1 d l2 Hsplit Hl1 Hd Ho); cbn [outcome snd];
    run_handler; pose proof (coll_with_coll_same Tweet (l1 ++ l2) db) as Hc;
    cbn [coll] in Hc; rewrite Hc, Hgone; eexists; reflexivity.
  1, 2: try change (deletePlaylist caller (AltId i) db)
          with (deletePlaylist caller (GoodId i) db);
    rewrite (deletePlaylist_run caller i db l1 d l2 Hsplit Hl1 Hd Ho); cbn [outcome snd];
    run_handler; pose proof (coll_with_coll_same Playlist (l1 ++ l2) db) as Hc;
    cbn [coll] in Hc; rewrite Hc, Hgone; eexists; reflexivity.
Qed.

Lemma delete_is_final_witness :
  exists msg,
    run_mutation bob (DeleteTweet (GoodId 30))
      (snd (run_mutation alice (DeleteTweet (GoodId 30)) sampleDb))
    = (Some (mkApiError 404 msg),
       snd (run_mutation alice (DeleteTweet (GoodId 30)) sampleDb)).
Proof.
  assert (Hwf : wf_coll (coll (fst (mutated (DeleteTweet (GoodId 30)))) sampleDb))
    by (apply wf_collb_sound; reflexivity).
  exact (delete_is_final alice bob (DeleteTweet (GoodId 30)) sampleDb
           eq_refl Hwf eq_refl).
Defined.

(* ------------------------------------------------------------------ *)
(** ** What an update writes *)

Lemma field_app k d d' :
  field k (d ++ d') = match field k d with Some v => Some v | None => field k d' end.
Proof.
  induction d as [|[k' v] d IH]; [reflexivity|]. cbn [app field].
  now destruct (String.eqb k k').
Qed.

(** After [$set], a field holds the last value the update gives it, or its
    old value when the update does not name it. *)
Lemma field_USet k fields : forall d,
  field k (apply_update (USet fields) d)
  = match field k (rev fields) with
    | Some v => Some v
    | None => field k d
    end.
Proof.
  cbn [apply_update]. induction fields as [|[kx vx] fields IH]; intros d.
  - reflexivity.
  - cbn [fold_left fst snd rev]. rewrite IH, field_app.
    destruct (field k (rev fields)); [reflexivity|].
    cbn [field]. destruct (String.eqb k kx) eqn:E.
    + apply String.eqb_eq in E. subst. apply field_set_field_same.
    + apply String.eqb_neq in E. now apply field_set_field_other.
Qed.

Lemma update_run m i u db l1 d l2 :
  coll m db = l1 ++ d :: l2 ->
  find (matches (byId i)) l1 = None ->
  matches (byId i) d = true ->
  findByIdAndUpdate m (VId i) u db
  = (inr (Some (apply_update u d)), with_coll m (l1 ++ apply_update u d :: l2) db).
Proof.
  unfold byId. intros Hsplit Hl1 Hd. unfold findByIdAndUpdate.
  rewrite Hsplit, (find_at _ l1 d l2 Hl1 Hd), (update_first_at _ _ l1 d l2 Hl1 Hd).
  reflexivity.
Qed.

(** The owner's update of a stored video writes the title and the
    description that are given and not empty, as they are given, and the
    url of the new thumbnail when a file is uploaded; a field that is absent
    or empty in the request, and every other field of the video, keeps its
    value; the answer is 200 with the updated video.  When the upload of the
    file fails, the answer is 400 and nothing is written. *)
Theorem updateVideo_writes_given_fields caller i db d title description file :
  find (matches (byId i)) (videos db) = Some d ->
  field "owner" d = Some (VId caller) ->
  (file = Some None ->
   updateVideo caller (GoodId i) title description file db
   = (inl (mkApiError 400 "Thumbnail upload failed"), db))
  /\ (file <> Some None ->
      exists l1 l2 d',
        videos db = l1 ++ d :: l2
        /\ updateVideo caller (GoodId i) title description file db
           = (inr (mkApiResponse 200 (Some d') "Video updated successfully"),
              with_coll Video (l1 ++ d' :: l2) db)
        /\ field "title" d'
           = (if truthy title then Some (VStr (given title)) else field "title" d)
        /\ field "description" d'
           = (if truthy description then Some (VStr (given description))
              else field "description" d)
        /\ field "thumbnail" d'
           = match file with
             | Some (Some url) => Some (VStr url)
             | _ => field "thumbnail" d
             end
        /\ (forall k, k <> "title" -> k <> "description" -> k <> "thumbnail" ->
              field k d' = field k d)).
Proof.
  intros Hfind Ho.
  destruct (find_split _ _ _ Hfind) as (l1 & l2 & Hsplit & Hl1 & Hd).
  unfold byId in Hfind. split.
  - intros ->. run_handler. now rewrite Hfind, Ho, Nat.eqb_refl.
  - intros Hfile.
    set (fields := ((match title with
                     | Some t => if truthy title then [("title", VStr t)] else []
                     | None => []
                     end
                     ++ match description with
                        | Some ds =>
                            if truthy description then [("description", VStr ds)] else []
                        | None => []
                        end)
                    ++ match file with
                       | Some (Some url) => [("thumbnail", VStr url)]
                       | _ => []
                       end)%list).
    exists l1, l2, (apply_update (USet fields) d).
    split; [exact Hsplit|]. split.
    + run_handler. rewrite Hfind, Ho, Nat.eqb_refl. cbn [negb].
      destruct file as [[url|]|]; [| congruence |]; cbv beta iota zeta;
        rewrite (update_run Video i _ db l1 d l2 Hsplit Hl1 Hd);
        unfold fields; rewrite ?app_nil_r; reflexivity.
    + rewrite !field_USet. unfold fields.
      repeat split.
      * destruct title as [t|], description as [ds|], file as [[url|]|];
          cbn [truthy given]; repeat (destruct (negb (String.eqb _ ""))); reflexivity.
      * destruct title as [t|], description as [ds|], file as [[url|]|];
          cbn [truthy given]; repeat (destruct (negb (String.eqb _ ""))); reflexivity.
      * destruct title as [t|], description as [ds|], file as [[url|]|];
          cbn [truthy given]; repeat (destruct (negb (String.eqb _ ""))); reflexivity.
      * intros k Hk1 Hk2 Hk3. rewrite field_USet.
        apply String.eqb_neq in Hk1, Hk2, Hk3.
        destruct title as [t|], description as [ds|], file as [[url|]|];
          cbn [truthy given]; repeat (destruct (negb (String.eqb _ "")));
          cbn [app rev field]; rewrite ?Hk1, ?Hk2, ?Hk3; reflexivity.
Qed.

Lemma updateVideo_writes_given_fields_witness :
  updateVideo alice (GoodId 10) (Some "New") None (Some None) sampleDb
  = (inl (mkApiError 400 "Thumbnail upload failed"), sampleDb).
Proof.
  destruct (updateVideo_writes_given_fields alice 10 sampleDb
              (sampleVideo 10 alice "First" 5 1) (Some "New") None (Some None)
              eq_refl eq_refl) as [H _].
  now apply H.
Defined.

(** The owner's update of a stored playlist with a name or a description
    that is not blank answers 200 and writes the trimmed name and the
    trimmed description that are given and not blank; a field that is absent
    or blank in the request, and every other field of the playlist, keeps
    its value. *)
Theorem updatePlaylist_writes_given_fields caller i db d name description :
  find (matches (byId i)) (playlists db) = Some d ->
  field "owner" d = Some (VId caller) ->
  blank name && blank description = false ->
  exists r l1 l2 d',
    playlists db = l1 ++ d :: l2
    /\ updatePlaylist caller (GoodId i) name description db
       = (inr r, with_coll Playlist (l1 ++ d' :: l2) db)
    /\ status r = 200
    /\ field "name" d'
       = (if blank name then field "name" d else Some (VStr (trim (given name))))
    /\ field "description" d'
       = (if blank description then field "description" d
          else Some (VStr (trim (given description))))
    /\ (forall k, k <> "name" -> k <> "description" -> field k d' = field k d).
Proof.
  intros Hfind Ho Hsome.
  destruct (find_split _ _ _ Hfind) as (l1 & l2 & Hsplit & Hl1 & Hd).
  unfold byId in Hfind.
  set (fields := (match name with
                  | Some n => if negb (blank name) then [("name", VStr (trim n))] else []
                  | None => []
                  end
                  ++ match description with
                     | Some ds =>
                         if negb (blank description)
                         then [("description", VStr (trim ds))] else []
                     | None => []
                     end)%list).
  assert (Hne : match fields with [] => true | _ => false end = false).
  { unfold fields. destruct name as [n|], description as [ds|].
    - destruct (blank (Some n)) eqn:En; [|reflexivity].
      destruct (blank (Some ds)) eqn:Eds; [discriminate | reflexivity].
    - destruct (blank (Some n)) eqn:En; [discriminate | reflexivity].
    - destruct (blank (Some ds)) eqn:Eds; [discriminate | reflexivity].
    - discriminate. }
  eexists. exists l1, l2, (apply_update (USet fields) d).
  split; [exact Hsplit|]. split.
  { run_handler. rewrite Hfind, Ho, Nat.eqb_refl. cbn [negb].
    fold fields. rewrite Hne.
    unfold populate_owner.
    rewrite (update_run Playlist i _ db l1 d l2 Hsplit Hl1 Hd).
    reflexivity. }
  split; [reflexivity|].
  - rewrite !field_USet. unfold fields. repeat split.
    + destruct name as [n|], description as [ds|]; cbn [given];
        try destruct (blank (Some n)); try destruct (blank (Some ds)); reflexivity.
    + destruct name as [n|], description as [ds|]; cbn [given];
        try destruct (blank (Some n)); try destruct (blank (Some ds)); reflexivity.
    + intros k Hk1 Hk2. rewrite field_USet.
      apply String.eqb_neq in Hk1, Hk2.
      destruct name as [n|], description as [ds|];
        try destruct (blank (Some n)); try destruct (blank (Some ds));
        cbn [negb app rev field]; rewrite ?Hk1, ?Hk2; reflexivity.
Qed.

Lemma updatePlaylist_writes_given_fields_witness :
  exists r l1 l2 d',
    updatePlaylist alice (GoodId 20) (Some "  Best  ") (Some nbsp) sampleDb
    = (inr r, with_coll Playlist (l1 ++ d' :: l2) sampleDb)
    /\ field "name" d' = Some (VStr "Best")
    /\ field "description" d' = Some (VStr "my list").
Proof.
  destruct (updatePlaylist_writes_given_fields alice 20 sampleDb
              [("_id", VId 20); ("name", VStr "Mine"); ("description", VStr "my list");
               ("videos", VArr [VId 10]); ("owner", VId alice); ("createdAt", VNum 3)]
              (Some "  Best  ") (Some nbsp) eq_refl eq_refl eq_refl)
    as (r & l1 & l2 & d' & _ & H1 & _ & H2 & H3 & _).
  exists r, l1, l2, d'. split; [exact H1 | split; [exact H2 | exact H3]].
Defined.

(** The owner's update of a stored tweet with a content that is not blank
    answers 200 and leaves the tweet with the trimmed content, its other
    fields as they were, and every other document untouched. *)
Theorem updateTweet_writes_trimmed_content caller i db d c :
  find (matches (byId i)) (tweets db) = Some d ->
  field "owner" d = Some (VId caller) ->
  blank (Some c) = false ->
  exists r l1 l2,
    tweets db = l1 ++ d :: l2
    /\ updateTweet caller (GoodId i) (Some c) db
       = (inr r, with_coll Tweet
                   (l1 ++ set_field "content" (VStr (trim c)) d :: l2) db)
    /\ status r = 200
    /\ (forall k, k <> "content" ->
          field k (set_field "content" (VStr (trim c)) d) = field k d).
Proof.
  intros Hfind Ho Hb.
  destruct (find_split _ _ _ Hfind) as (l1 & l2 & Hsplit & Hl1 & Hd).
  unfold byId in Hfind.
  eexists. exists l1, l2. split; [exact Hsplit|]. split.
  { run_handler. rewrite Hb, Hfind, Ho, Nat.eqb_refl. cbn [negb].
    unfold populate_owner.
    rewrite (update_run Tweet i _ db l1 d l2 Hsplit Hl1 Hd).
    reflexivity. }
  split; [reflexivity|].
  intros k Hk. now apply field_set_field_other.
Qed.

Lemma updateTweet_writes_trimmed_content_witness :
  exists r l1 l2,
    updateTweet alice (GoodId 30) (Some (nbsp ++ " hi there " ++ em_space)%string)
      sampleDb
    = (inr r, with_coll Tweet
                (l1 ++ set_field "content" (VStr "hi there")
                         [("_id", VId 30); ("content", VStr "hello");
                          ("owner", VId alice); ("createdAt", VNum 2)] :: l2)
                sampleDb).
Proof.
  destruct (updateTweet_writes_trimmed_content alice 30 sampleDb
              [("_id", VId 30); ("content", VStr "hello"); ("owner", VId alice);
               ("createdAt", VNum 2)] (nbsp ++ " hi there " ++ em_space)%string
              eq_refl eq_refl eq_refl)
    as (r & l1 & l2 & _ & H & _).
  exists r, l1, l2. exact H.
Defined.

(* ------------------------------------------------------------------ *)
(** ** What the feed lists *)

Lemma filter_filter (p q : document -> bool) ds :
  filter q (filter p ds) = filter (fun d => p d && q d) ds.
Proof.
  induction ds as [|d ds IH]; [reflexivity|]. cbn [filter].
  destruct (p d); cbn [filter andb]; [destruct (q d)|]; now rewrite IH.
Qed.

Lemma filter_true (ds : list document) : filter (fun _ => true) ds = ds.
Proof. induction ds as [|d ds IH]; [reflexivity|]. cbn [filter]. now rewrite IH. Qed.

Lemma field_remove_field_other k k' d :
  k' <> k -> field k' (remove_field k d) = field k' d.
Proof.
  intros Hne. unfold remove_field.
  induction d as [|[k'' v] d IH]; [reflexivity|]. cbn [filter fst field].
  destruct (String.eqb k k'') eqn:E; cbn [negb field].
  - apply String.eqb_eq in E. subst k''.
    apply String.eqb_neq in Hne. now rewrite Hne.
  - now rewrite IH.
Qed.

Lemma matches_field_ext k c d d' :
  field k d' = field k d ->
  matches (Fields [(k, c)]) d' = matches (Fields [(k, c)]) d.
Proof. intros H. cbn. now rewrite H. Qed.

Lemma insert_by_Forall (Q : document -> Prop) le d ds :
  Q d -> Forall Q ds -> Forall Q (insert_by le d ds).
Proof.
  intros Hd Hf. induction Hf as [|x ds Hx Hf IH]; simpl.
  - now repeat constructor.
  - destruct (le d x); repeat constructor; assumption.
Qed.

Lemma sort_by_Forall (Q : document -> Prop) key dir ds :
  Forall Q ds -> Forall Q (sort_by key dir ds).
Proof.
  unfold sort_by. intros Hf. induction Hf as [|x ds Hx Hf IH]; simpl.
  - constructor.
  - now apply insert_by_Forall.
Qed.

Lemma Forall_take (Q : document -> Prop) n : forall ds,
  Forall Q ds -> Forall Q (firstn n ds).
Proof.
  induction n as [|n IH]; intros ds Hf; [constructor|].
  destruct Hf as [|x ds Hx Hf]; [constructor|]. cbn [firstn].
  constructor; [exact Hx | now apply IH].
Qed.

Lemma Forall_drop (Q : document -> Prop) k : forall ds,
  Forall Q ds -> Forall Q (skipn k ds).
Proof.
  induction k as [|k IH]; intros ds Hf; [exact Hf|].
  destruct Hf as [|x ds Hx Hf]; [constructor|]. cbn [skipn]. now apply IH.
Qed.

Lemma Forall_window (Q : document -> Prop) n k ds :
  Forall Q ds -> Forall Q (firstn n (skipn k ds)).
Proof. intros Hf. now apply Forall_take, Forall_drop. Qed.

(** The owner join keeps every field but [owner]. *)
Lemma owner_join_keeps k d v :
  k <> "owner" ->
  field k (add_fields [("owner", EFirst "owner")] (set_field "owner" v d)) = field k d.
Proof.
  intros Hk. unfold add_fields. cbn [fold_left fst snd].
  destruct (eval_expr _ _).
  - now rewrite !field_set_field_other.
  - rewrite field_remove_field_other by exact Hk. now apply field_set_field_other.
Qed.

Lemma feed_pipeline_result q db :
  run_pipeline (from_collection db) (getAllVideos_pipeline q) (videos db)
  = map (add_fields [("owner", EFirst "owner")])
      (run_stage (from_collection db)
         (Lookup "users" "owner" "_id" "owner" ownerProfile)
         (run_stage (from_collection db)
            (sortStage (option_map key_text (q_sortBy q)) (q_sortType q))
            (filter (in_feed q) (videos db)))).
Proof.
  unfold getAllVideos_pipeline, run_pipeline, in_feed.
  destruct (q_userId q) as [[raw|u|u]|]; destruct (q_query q) as [text|];
    cbn [truthy isValidObjectId cast];
    try destruct (negb (String.eqb (raw_text text) ""));
    cbn [app fold_left run_stage]; rewrite ?filter_filter;
    do 3 f_equal; apply filter_ext; intros d;
    cbn [matches existsb fields_hold forallb fst snd];
    rewrite ?andb_true_r, ?orb_false_r, ?andb_assoc; reflexivity.
Qed.

Lemma sortStage_run src sortBy sortType ds :
  exists key dir, run_stage src (sortStage sortBy sortType) ds = sort_by key dir ds.
Proof.
  destruct (sortStage_is_sort sortBy sortType) as (key & dir & ->).
  now exists key, dir.
Qed.

(** The feed on a request whose search text is a pattern and whose sort
    key, when the request sorts, is one the engine sorts on: the answer is
    200 and nothing is written; [totalItems] is the number of stored videos
    that are published, belong to the user the request names by a valid id
    (a malformed id is ignored) and hold a match of the pattern, if any, in
    their title or description; and every item of the page is a published
    video.  On any other request the feed fails and writes nothing. *)
Theorem feed_lists_published_matches q db :
  (refused_by_engine q = false ->
   exists r,
     getAllVideos q db = (inr r, db)
     /\ status r = 200
     /\ totalItems (data r) = Z.of_nat (count (in_feed q) (videos db))
     /\ Forall (fun d => matches (Fields [("isPublished", CEq (VBool true))]) d = true)
               (items (data r)))
  /\ (refused_by_engine q = true ->
      exists e, getAllVideos q db = (inl e, db)).
Proof.
  split; intros Hq; [|rewrite (getAllVideos_refused q db Hq); now eexists].
  rewrite (getAllVideos_accepted q db Hq).
  eexists. split; [reflexivity|]. split; [reflexivity|].
  cbn [data]. unfold paginate. cbn [totalItems items coll].
  rewrite feed_pipeline_result.
  destruct (sortStage_run (from_collection db) (option_map key_text (q_sortBy q))
              (q_sortType q) (filter (in_feed q) (videos db))) as (key & dir & ->).
  cbn [run_stage]. split.
  - now rewrite !length_map, sort_by_length.
  - apply Forall_window. apply Forall_map. apply Forall_map.
    apply Forall_forall. intros d Hin.
    rewrite (matches_field_ext "isPublished" _ d)
      by (apply owner_join_keeps; discriminate).
    assert (Hs : Forall (fun d => in_feed q d = true)
                        (sort_by key dir (filter (in_feed q) (videos db)))).
    { apply sort_by_Forall. apply Forall_forall. intros x Hx.
      now apply filter_In in Hx. }
    rewrite Forall_forall in Hs. specialize (Hs d Hin).
    unfold in_feed in Hs. apply andb_prop in Hs. destruct Hs as [Hs _].
    apply andb_prop in Hs. now destruct Hs.
Qed.

(** A search text with a metacharacter is read as the engine reads it, not
    letter by letter: with the pattern "." the feed lists every published
    video that has a title, and a text that is no pattern is refused. *)
Example feed_search_on_sample :
  (exists r,
      getAllVideos (mkVideoQuery None None
                      (Some (Pattern "." (fun s => negb (String.eqb s ""))))
                      None None None) (feedDb 3) = (inr r, feedDb 3)
      /\ totalItems (data r) = 3%Z)
  /\ (exists e,
        getAllVideos (mkVideoQuery None None (Some (IllFormed "(")) None None None)
                     (feedDb 3) = (inl e, feedDb 3))
  /\ (exists e,
        getAllVideos (mkVideoQuery None None None (Some (BadKey "__proto__"))
                                   (Some "asc") None) (feedDb 3)
        = (inl e, feedDb 3)).
Proof.
  split; [|split]; eexists; [split|..]; reflexivity.
Qed.

(* ------------------------------------------------------------------ *)
(** ** The read views *)



Example read_views_on_sample :
  fst (run_view (UserTweets (GoodId 3)) None None sampleDb)
  = Some (mkApiError 404 "User not found")
  /\ fst (run_view (PlaylistById (BadId "xyz")) None None sampleDb)
     = Some (mkApiError 400 "Invalid playlist ID")
  /\ run_view (Subscribers (GoodId alice)) None None sampleDb = (None, sampleDb).
Proof. repeat split. Qed.

(* ------------------------------------------------------------------ *)
(** ** Newest first *)

Lemma insert_newest d ds :
  dated d -> Forall dated ds -> newest_first ds ->
  newest_first
    (insert_by (fun a b => value_leb (field "createdAt" b) (field "createdAt" a)) d ds).
Proof.
  intros [n Hn] Hf. induction ds as [|x ds IH]; cbn [insert_by newest_first].
  - intros _. split; constructor.
  - intros [Hx Hs]. inversion Hf as [|? ? [m Hm] Hf']; subst.
    rewrite Hn, Hm. cbn [value_leb].
    destruct (m <=? n)%Z eqn:E.
    + apply Z.leb_le in E. cbn [newest_first].
      split; [|split; assumption].
      constructor; [unfold created; rewrite Hn, Hm; exact E|].
      rewrite Forall_forall in *. intros y Hy. specialize (Hx y Hy).
      unfold created in *. rewrite Hn. rewrite Hm in Hx. cbn [num_of] in *. lia.
    + apply Z.leb_gt in E. cbn [newest_first].
      split; [|now apply IH].
      apply insert_by_Forall; [|exact Hx].
      unfold created. rewrite Hn, Hm. cbn [num_of]. lia.
Qed.

Lemma sort_by_dated key dir ds : Forall dated ds -> Forall dated (sort_by key dir ds).
Proof. apply sort_by_Forall. Qed.

Lemma sort_newest ds :
  Forall dated ds -> newest_first (sort_by "createdAt" (-1) ds).
Proof.
  intros Hf. unfold sort_by. cbn [Z.eqb].
  induction Hf as [|d ds Hd Hf IH]; cbn [fold_right]; [exact I|].
  apply insert_newest; [exact Hd | | exact IH].
  now apply (sort_by_dated "createdAt" (-1)).
Qed.

Lemma newest_first_map (f : document -> document) ds :
  (forall d, created (f d) = created d) ->
  newest_first ds -> newest_first (map f ds).
Proof.
  intros Hc. induction ds as [|x ds IH]; cbn [map newest_first]; [tauto|].
  intros [Hx Hs]. split; [|now apply IH].
  apply Forall_map. rewrite Forall_forall in Hx |- *. intros y Hy.
  rewrite !Hc. now apply Hx.
Qed.

Lemma newest_first_drop k : forall ds, newest_first ds -> newest_first (skipn k ds).
Proof.
  induction k as [|k IH]; intros ds Hs; [exact Hs|].
  destruct ds as [|x ds]; [exact I|]. cbn [skipn]. apply IH. now destruct Hs.
Qed.

Lemma newest_first_take n : forall ds, newest_first ds -> newest_first (firstn n ds).
Proof.
  induction n as [|n IH]; intros ds Hs; [exact I|].
  destruct ds as [|x ds]; [exact I|]. cbn [firstn newest_first].
  destruct Hs as [Hx Hs]. split; [now apply Forall_take | now apply IH].
Qed.

Lemma sortStage_default sortBy sortType :
  truthy sortBy && truthy sortType = false ->
  sortStage sortBy sortType = Sort "createdAt" (-1).
Proof.
  unfold sortStage. destruct sortBy, sortType; try reflexivity.
  now intros ->.
Qed.

Lemma owner_join_created d v :
  created (add_fields [("owner", EFirst "owner")] (set_field "owner" v d)) = created d.
Proof. unfold created. rewrite owner_join_keeps; [reflexivity | discriminate]. Qed.

Lemma owner_join_dated d v :
  dated d -> dated (add_fields [("owner", EFirst "owner")] (set_field "owner" v d)).
Proof.
  intros [n Hn]. exists n. rewrite owner_join_keeps; [exact Hn | discriminate].
Qed.

(** When every stored video carries a numeric [createdAt], the request
    does not give both a sort field and a sort direction, and its search
    text, if any, is a pattern, the page of the feed lists its videos newest
    first. *)
Theorem feed_lists_newest_first q db :
  Forall dated (videos db) ->
  truthy (option_map key_text (q_sortBy q)) && truthy (q_sortType q) = false ->
  refused_by_engine q = false ->
  exists r, getAllVideos q db = (inr r, db) /\ newest_first (items (data r)).
Proof.
  intros Hf Hdef Hq. rewrite (getAllVideos_accepted q db Hq).
  eexists. split; [reflexivity|].
  cbn [data]. unfold paginate. cbn [items coll].
  rewrite feed_pipeline_result, (sortStage_default _ _ Hdef).
  cbn [run_stage]. apply newest_first_take, newest_first_drop.
  rewrite map_map. apply newest_first_map; [intros d; apply owner_join_created|].
  apply sort_newest. apply Forall_forall. intros d Hd.
  apply filter_In in Hd. rewrite Forall_forall in Hf. now apply Hf.
Qed.

Lemma feed_lists_newest_first_witness :
  exists r,
    getAllVideos (mkVideoQuery None None (Some (literal "clip")) None None None)
                 (feedDb 4)
    = (inr r, feedDb 4)
    /\ newest_first (items (data r)).
Proof.
  assert (Hf : Forall dated (videos (feedDb 4)))
    by (repeat constructor; eexists; reflexivity).
  exact (feed_lists_newest_first
           (mkVideoQuery None None (Some (literal "clip")) None None None)
           (feedDb 4) Hf eq_refl eq_refl).
Defined.

(** When every stored tweet carries a numeric [createdAt], every page of
    the tweets of a stored user lists them newest first. *)
Theorem user_tweets_newest_first u pg lim db :
  Forall dated (tweets db) ->
  find (matches (byId u)) (users db) <> None ->
  exists r, getUserTweets (GoodId u) pg lim db = (inr r, db)
            /\ newest_first (items (data r)).
Proof.
  intros Hf Hu. unfold byId in Hu.
  unfold getUserTweets, bind, throw_if, findById, findOne, aggregatePaginate, ret, throw.
  cbn [isValidObjectId negb cast coll].
  destruct (find _ (users db)); [|congruence].
  eexists. split; [reflexivity|].
  cbn [data]. unfold paginate. cbn [items].
  unfold userTweets_pipeline, run_pipeline. cbn [fold_left run_stage].
  apply newest_first_take, newest_first_drop, sort_newest.
  rewrite map_map. apply Forall_map. apply Forall_forall. intros x Hx.
  apply filter_In in Hx. rewrite Forall_forall in Hf.
  apply owner_join_dated. now apply Hf.
Qed.

Lemma user_tweets_newest_first_witness :
  exists r, getUserTweets (GoodId alice) None None sampleDb = (inr r, sampleDb)
            /\ newest_first (items (data r)).
Proof.
  assert (Hf : Forall dated (tweets sampleDb))
    by (repeat constructor; eexists; reflexivity).
  assert (Hu : find (matches (byId alice)) (users sampleDb) <> None) by discriminate.
  exact (user_tweets_newest_first alice None None sampleDb Hf Hu).
Defined.

Example feed_of_four_newest_first :
  map created
      (items (paginate (run_pipeline (from_collection (feedDb 4))
                          (getAllVideos_pipeline (feedQuery None None))
                          (videos (feedDb 4)))
                       (mkPageRequest 1 3)))
  = [4; 3; 2]%Z.
Proof. reflexivity. Qed.

(* ------------------------------------------------------------------ *)
(** ** What a view lists *)













Example like_of_deleted_video_is_listed :
  fst (getLikedVideos bob None None (snd (deleteVideo alice (GoodId 10) sampleDb)))
  = inr (mkApiResponse 200
           {| items := [[("_id", VId 100); ("likedBy", VId bob); ("createdAt", VNum 5)]];
              totalItems := 1; totalPages := 1; resultPage := 1; resultLimit := 10 |}
           "Liked videos fetched successfully").
Proof. reflexivity. Qed.

(* ------------------------------------------------------------------ *)
(** ** Subscriptions and the statistics of a channel *)

Lemma subscription_to_channel channel subscriber e :
  matches (edge_query SubscriptionToggle subscriber channel) e = true ->
  matches (Fields [("channel", CEq (VId channel))]) e = true.
Proof.
  cbn. intros H. apply andb_prop in H. destruct H as [_ H]. exact H.
Qed.

(** A subscription toggled by a user on the stored channel of another
    moves the subscriber count of that channel by exactly one: down when
    the subscription was there, up when it was not. *)
Theorem subscription_toggle_moves_totalSubscribers channel subscriber db cd :
  find (matches (byId channel)) (users db) = Some cd ->
  channel <> subscriber ->
  wf_coll (subscriptions db) ->
  edge_count SubscriptionToggle subscriber channel db <= 1 ->
  exists r r',
    getChannelStats channel db = (inr r, db)
    /\ getChannelStats channel
         (snd (toggleSubscription subscriber (GoodId channel) db))
       = (inr r', snd (toggleSubscription subscriber (GoodId channel) db))
    /\ totalSubscribers (data r')
       = (totalSubscribers (data r)
          + (if present SubscriptionToggle subscriber channel db then -1 else 1))%Z.
Proof.
  intros Hfind Hne Hwf Hone.
  assert (Hv : valid_triple SubscriptionToggle subscriber channel db = true).
  { unfold valid_triple, byId in *. cbn [target_model coll]. rewrite Hfind.
    apply Nat.eqb_neq in Hne. now rewrite Hne. }
  change (toggleSubscription subscriber (GoodId channel) db)
    with (run_toggle SubscriptionToggle subscriber (GoodId channel) db).
  set (db' := snd (run_toggle SubscriptionToggle subscriber (GoodId channel) db)).
  do 2 eexists. rewrite !getChannelStats_value.
  split; [reflexivity|]. split; [reflexivity|].
  cbn [data totalSubscribers].
  destruct (toggle_step SubscriptionToggle subscriber channel db Hv Hwf Hone)
    as (_ & _ & _ & _ & Hpresent & Habsent).
  cbv zeta in Hpresent, Habsent. cbn [edge_model coll] in Hpresent, Habsent.
  fold db' in Hpresent, Habsent.
  destruct (present SubscriptionToggle subscriber channel db).
  - destruct (Hpresent eq_refl) as (_ & l1 & e & l2 & Hb & Hm & Ha).
    rewrite Ha, Hb, !count_app, count_cons.
    rewrite (subscription_to_channel _ _ _ Hm). lia.
  - destruct (Habsent eq_refl) as (_ & e & Hm & Ha).
    rewrite Ha, count_app, count_cons.
    rewrite (subscription_to_channel _ _ _ Hm).
    unfold count at 2. cbn [filter List.length]. lia.
Qed.

Lemma subscription_toggle_moves_totalSubscribers_witness :
  exists r r',
    getChannelStats alice sampleDb = (inr r, sampleDb)
    /\ getChannelStats alice (snd (toggleSubscription bob (GoodId alice) sampleDb))
       = (inr r', snd (toggleSubscription bob (GoodId alice) sampleDb))
    /\ totalSubscribers (data r') = (totalSubscribers (data r) + -1)%Z.
Proof.
  assert (Hwf : wf_coll (subscriptions sampleDb))
    by (apply wf_collb_sound; reflexivity).
  assert (Hone : edge_count SubscriptionToggle bob alice sampleDb <= 1)
    by (vm_compute; lia).
  assert (Hne : alice <> bob) by discriminate.
  exact (subscription_toggle_moves_totalSubscribers alice bob sampleDb
           (sampleUser alice "Alice" "alice") eq_refl Hne Hwf Hone).
Defined.

(* ------------------------------------------------------------------ *)
(** ** The dashboard and the lists *)

Lemma stats_of_value u db :
  stats_of u db
  = Some (mkChannelStats
            (Z.of_nat (count (owned_by u) (videos db)))
            (sum_field "views" (filter (owned_by u) (videos db)))
            (Z.of_nat (count (matches (Fields [("channel", CEq (VId u))]))
                             (subscriptions db)))
            (Z.of_nat (count (on_video_of u db) (likes db)))
            (Z.of_nat (count (on_video_of u db) (comments db)))).
Proof. unfold stats_of. now rewrite getChannelStats_value. Qed.

Lemma on_video_of_none u db l : field "video" l = None -> on_video_of u db l = false.
Proof.
  intros H. unfold on_video_of. rewrite H.
  induction (videos db) as [|v vs IH]; [reflexivity|].
  cbn [existsb]. now rewrite andb_false_r.
Qed.

(** A like toggled on a comment or on a tweet, in a store where the like
    of that comment or tweet carries no [video], changes the statistics of
    no channel. *)
Theorem other_likes_leave_stats t liker target owner db :
  t = CommentLikeToggle \/ t = TweetLikeToggle ->
  valid_triple t liker target db = true ->
  wf_coll (likes db) ->
  (forall l, In l (likes db) ->
             matches (edge_query t liker target) l = true -> not_on_video l) ->
  stats_of owner (snd (run_toggle t liker (GoodId target) db)) = stats_of owner db.
Proof.
  intros Ht Hv Hwf Hclean.
  assert (Hmodel : edge_model t = Like) by (destruct Ht; subst; reflexivity).
  set (db' := snd (run_toggle t liker (GoodId target) db)).
  assert (Hvid : videos db' = videos db)
    by (apply (toggle_frame t liker target db Video Hv); rewrite Hmodel; discriminate).
  assert (Hsub : subscriptions db' = subscriptions db)
    by (apply (toggle_frame t liker target db Subscription Hv);
        rewrite Hmodel; discriminate).
  assert (Hcom : comments db' = comments db)
    by (apply (toggle_frame t liker target db Comment Hv); rewrite Hmodel; discriminate).
  assert (Hon : forall l, on_video_of owner db' l = on_video_of owner db l)
    by (intros l; unfold on_video_of; now rewrite Hvid).
  rewrite !stats_of_value, Hvid, Hsub, Hcom.
  rewrite (count_ext _ _ (comments db) Hon), (count_ext _ _ (likes db') Hon).
  do 2 f_equal.
  change (likes db') with (coll Like db'). unfold db'.
  rewrite (run_toggle_valid _ _ _ _ Hv), Hmodel.
  destruct (find (matches (edge_query t liker target)) (coll Like db))
    as [e|] eqn:Hfind.
  - rewrite (toggle_core_present _ _ _ _ _ _ _ Hfind). cbn [snd].
    cbn [coll] in Hfind.
    destruct (delete_found _ _ _ Hwf Hfind) as [Hdel _].
    rewrite delete_coll. cbn [coll]. rewrite Hdel.
    destruct (remove_first_split _ _ _ Hfind) as (l1 & l2 & H1 & H2).
    cbn [coll] in H1, H2. rewrite H2, H1, !count_app, count_cons.
    rewrite (on_video_of_none owner db e); [reflexivity|].
    apply find_some in Hfind. destruct Hfind as [Hin Hm].
    now apply Hclean.
  - rewrite (toggle_core_absent _ _ _ _ _ _ Hfind). cbn [snd].
    rewrite coll_tick, coll_with_coll_same, count_app, count_cons.
    cbn [coll].
    rewrite (on_video_of_none owner db).
    + unfold count at 2. cbn [filter List.length]. lia.
    + destruct Ht; subst t; reflexivity.
Qed.

Lemma other_likes_leave_stats_witness :
  stats_of alice (snd (run_toggle TweetLikeToggle bob (GoodId 30) sampleDb))
  = stats_of alice sampleDb.
Proof.
  apply (other_likes_leave_stats TweetLikeToggle bob 30 alice sampleDb).
  - right. reflexivity.
  - reflexivity.
  - apply wf_collb_sound. reflexivity.
  - intros l [<-|[]] Hm. vm_compute in Hm. discriminate Hm.
Defined.

Lemma channel_entries_eq u db :
  channel_entries u db
  = sort_by "createdAt" (-1)
      (map (channel_entry db) (filter (owned_by u) (videos db))).
Proof.
  unfold channel_entries, run_pipeline, channelVideos_pipeline.
  cbn [fold_left run_stage]. rewrite !map_map.
  f_equal. apply map_ext. intros x. unfold channel_entry, joined.
  rewrite (field_set_field_other "likes" "_id") by discriminate. reflexivity.
Qed.

Lemma sum_field_cons k d ds :
  sum_field k (d :: ds) = (num_of (field k d) + sum_field k ds)%Z.
Proof. reflexivity. Qed.

Lemma sum_field_insert_by k le d ds :
  sum_field k (insert_by le d ds) = (num_of (field k d) + sum_field k ds)%Z.
Proof.
  induction ds as [|x ds IH]; cbn [insert_by]; [reflexivity|].
  destruct (le d x); rewrite ?sum_field_cons; [reflexivity|].
  rewrite IH. lia.
Qed.

Lemma sum_field_sort_by k key dir ds :
  sum_field k (sort_by key dir ds) = sum_field k ds.
Proof.
  unfold sort_by. induction ds as [|d ds IH]; cbn [fold_right]; [reflexivity|].
  now rewrite sum_field_insert_by, IH.
Qed.

Lemma sum_field_map k (g : document -> document) (h : document -> Z) vs :
  (forall v, num_of (field k (g v)) = h v) ->
  sum_field k (map g vs) = fold_right (fun v acc => (h v + acc)%Z) 0%Z vs.
Proof.
  intros H. induction vs as [|v vs IH]; [reflexivity|].
  cbn [map fold_right]. now rewrite sum_field_cons, H, IH.
Qed.

Lemma field_project_out k fs d :
  existsb snd fs = false ->
  existsb (fun f => String.eqb (fst f) k) fs = false ->
  field k (project fs d) = field k d.
Proof.
  intros Hex Hk. unfold project. rewrite Hex.
  induction d as [|[k' v] d IH]; [reflexivity|]. cbn [filter fst].
  destruct (existsb (fun f => String.eqb (fst f) k') fs) eqn:E; cbn [negb field].
  - destruct (String.eqb k k') eqn:Ek; [|exact IH].
    apply String.eqb_eq in Ek. subst k'. congruence.
  - destruct (String.eqb k k'); [reflexivity | exact IH].
Qed.

Lemma channel_entry_likeCount db v :
  field "likeCount" (channel_entry db v)
  = Some (VNum (Z.of_nat (List.length (joined (likes db) v)))).
Proof.
  unfold channel_entry. rewrite field_project_out by reflexivity.
  unfold add_fields. cbn [fold_left fst snd eval_expr].
  rewrite (field_set_field_other "comments" "likes") by discriminate.
  rewrite !field_set_field_same.
  rewrite field_set_field_other by discriminate.
  now rewrite field_set_field_same, length_map.
Qed.

Lemma channel_entry_commentCount db v :
  field "commentCount" (channel_entry db v)
  = Some (VNum (Z.of_nat (List.length (joined (comments db) v)))).
Proof.
  unfold channel_entry. rewrite field_project_out by reflexivity.
  unfold add_fields. cbn [fold_left fst snd eval_expr].
  rewrite (field_set_field_other "comments" "likes") by discriminate.
  rewrite !field_set_field_same.
  now rewrite length_map.
Qed.

Lemma channel_entry_views db v :
  field "views" (channel_entry db v) = field "views" v.
Proof.
  unfold channel_entry. rewrite field_project_out by reflexivity.
  unfold add_fields. cbn [fold_left fst snd eval_expr].
  rewrite (field_set_field_other "comments" "likes") by discriminate.
  rewrite !field_set_field_same.
  now rewrite !field_set_field_other by discriminate.
Qed.

Lemma count_add (p q r : document -> bool) cs :
  (forall l, In l cs ->
             (if p l then 1 else 0) + (if q l then 1 else 0) = if r l then 1 else 0) ->
  count p cs + count q cs = count r cs.
Proof.
  induction cs as [|c cs IH]; intros H; [reflexivity|].
  rewrite !count_cons.
  pose proof (H c (or_introl eq_refl)) as Hc.
  assert (Hrest : count p cs + count q cs = count r cs)
    by (apply IH; intros l Hl; apply H; now right).
  lia.
Qed.

(** Each like or comment is joined to at most one video, so the joined
    documents of the videos of [u] are those [on_video_of] counts. *)
Lemma joined_count u db cs :
  wf_coll (videos db) ->
  Forall video_is_id cs ->
  fold_right (fun v acc => (Z.of_nat (List.length (joined cs v)) + acc)%Z) 0%Z
             (filter (owned_by u) (videos db))
  = Z.of_nat (count (on_video_of u db) cs).
Proof.
  intros [Hids Hnd] Hcs. unfold on_video_of.
  induction (videos db) as [|v vs IH].
  - cbn [filter fold_right existsb]. unfold count.
    now induction cs as [|c cs' IHc]; [|apply IHc; inversion Hcs].
  - inversion Hids as [|? ? [i Hi] Hids']; subst.
    cbn [map] in Hnd. inversion Hnd as [|? ? Hfresh Hnd']; subst.
    specialize (IH Hids' Hnd').
    cbn [filter existsb]. destruct (owned_by u v) eqn:Ho.
    + cbn [fold_right andb]. rewrite IH, <- Nat2Z.inj_add. f_equal.
      apply (count_add (fun e => joins (field "_id" v) (field "video" e))).
      intros l Hl. rewrite Hi. cbn [joins].
      rewrite Forall_forall in Hcs. destruct (Hcs l Hl) as [Hn | [j Hj]].
      * rewrite Hn. cbn [orb].
        replace (existsb _ vs) with false; [reflexivity|].
        symmetry. clear. induction vs as [|w ws IHw]; [reflexivity|].
        cbn [existsb]. now rewrite andb_false_r.
      * rewrite Hj.
        destruct (value_matches (VId j) (VId i)) eqn:Hm; cbn [orb]; [|reflexivity].
        replace (existsb _ vs) with false; [reflexivity|].
        symmetry. apply not_true_is_false. intros Hex.
        apply existsb_exists in Hex. destruct Hex as (w & Hw & Hc).
        apply andb_prop in Hc. destruct Hc as [_ Hc].
        destruct (field "_id" w) as [x|] eqn:Hx; [|discriminate].
        unfold value_matches in Hm, Hc. rewrite orb_false_r in Hm, Hc.
        apply value_eqb_eq in Hm. apply value_eqb_eq in Hc. subst x.
        apply Hfresh. rewrite Hi, <- Hm, <- Hx. now apply in_map.
    + cbn [andb orb]. exact IH.
Qed.

(** In a store whose videos have distinct identifiers and whose likes and
    comments name one video each, the statistics of a channel agree with
    the list of its videos: as many videos as entries, and the views,
    likes and comments are the sums of the entries' counts. *)
Theorem dashboard_agrees_with_list u db :
  wf_coll (videos db) ->
  Forall video_is_id (likes db) ->
  Forall video_is_id (comments db) ->
  exists s,
    stats_of u db = Some s
    /\ totalVideos s = Z.of_nat (List.length (channel_entries u db))
    /\ totalViews s = sum_field "views" (channel_entries u db)
    /\ totalLikes s = sum_field "likeCount" (channel_entries u db)
    /\ totalComments s = sum_field "commentCount" (channel_entries u db).
Proof.
  intros Hwf Hl Hc. eexists. split; [apply stats_of_value|].
  cbn [totalVideos totalViews totalLikes totalComments].
  rewrite channel_entries_eq, sort_by_length, length_map, !sum_field_sort_by.
  repeat split.
  - symmetry. apply (sum_field_map "views" _ (fun v => num_of (field "views" v))).
    intros v. now rewrite channel_entry_views.
  - rewrite <- (joined_count u db (likes db) Hwf Hl). symmetry.
    apply (sum_field_map "likeCount" _
             (fun v => Z.of_nat (List.length (joined (likes db) v)))).
    intros v. now rewrite channel_entry_likeCount.
  - rewrite <- (joined_count u db (comments db) Hwf Hc). symmetry.
    apply (sum_field_map "commentCount" _
             (fun v => Z.of_nat (List.length (joined (comments db) v)))).
    intros v. now rewrite channel_entry_commentCount.
Qed.

Lemma dashboard_agrees_with_list_witness :
  exists s,
    stats_of alice sampleDb = Some s
    /\ totalLikes s = sum_field "likeCount" (channel_entries alice sampleDb)
    /\ totalComments s = sum_field "commentCount" (channel_entries alice sampleDb).
Proof.
  assert (Hwf : wf_coll (videos sampleDb)) by (apply wf_collb_sound; reflexivity).
  assert (Hl : Forall video_is_id (likes sampleDb))
    by (constructor; [right; eexists; reflexivity | constructor]).
  assert (Hc : Forall video_is_id (comments sampleDb))
    by (constructor; [right; eexists; reflexivity | constructor]).
  destruct (dashboard_agrees_with_list alice sampleDb Hwf Hl Hc)
    as (s & Hs & _ & _ & Hlikes & Hcomments).
  exists s. split; [exact Hs | split; [exact Hlikes | exact Hcomments]].
Defined.
